(** * pipe_util.c: pipelines of worker threads over blocking queues

    A shallow embedding of [pipe_util.c] (the stage connector, the
    fan-out/fan-in builder, the linear pipeline builder and the registry of
    thread handles) together with the properties its specification states.

    The C code runs against three collaborators that are not part of the
    file: the queue primitive ([pipe_new], [pipe_pop], ...), the platform
    threads ([pthread_create], [pthread_join]) and the allocator.  They are
    modelled as operations on an explicit [world]; every call they receive
    is appended to the world's [trace], tagged with the calling thread. *)

From stdpp Require Import base tactics option list numbers.

Local Open Scope N_scope.

(** ** Values *)

(** A data pointer is an address, [0] being [NULL]. *)
Definition ptr := N.
Definition NULL : ptr := 0.

(** [THREAD_HANDLE] is [pthread_t] (or a Win32 [HANDLE]): an integer of
    pointer size.  [(THREAD_HANDLE)NULL] is [0]. *)
Definition THREAD_HANDLE := N.

(** [pipe_processor_t] is a function pointer: an address into the code
    table of the program, [0] being [NULL]. *)
Definition pipe_processor_t := N.

(** Queue elements are opaque to this layer: fixed-size values that are
    copied around and never inspected. *)
Definition elem := Z.

(** A [pipe_t*] names a queue; endpoints name a queue and carry the serial
    number under which the queue primitive issued them.  The C pointers
    [pipe_producer_t*] and [pipe_consumer_t*] are [option]s of these, [None]
    being [NULL]. *)
Definition pipe_ref := nat.

Record pipe_producer_t := Producer { p_pipe : pipe_ref; p_serial : nat }.
Record pipe_consumer_t := Consumer { c_pipe : pipe_ref; c_serial : nat }.

#[global] Instance pipe_producer_eq_dec : EqDecision pipe_producer_t.
Proof. solve_decision. Defined.
#[global] Instance pipe_consumer_eq_dec : EqDecision pipe_consumer_t.
Proof. solve_decision. Defined.

(** [pipeline_t]: the two open ends of a network of stages. *)
Record pipeline_t := Pipeline {
  pl_in  : option pipe_producer_t;
  pl_out : option pipe_consumer_t
}.

(** [connect_data_t]: what [pipe_connect] hands to the worker thread. *)
Record connect_data_t := ConnectData {
  cd_in   : option pipe_consumer_t;
  cd_proc : pipe_processor_t;
  cd_aux  : ptr;
  cd_out  : option pipe_producer_t
}.

(** ** Machine integers *)

Definition SIZE_MOD : N := 2 ^ 64.
Definition INT_MAX : Z := 2147483647.
Definition INT_MIN : Z := -2147483648.
Definition PTRDIFF_MAX : N := 2 ^ 63 - 1.

(** [sizeof(THREAD_HANDLE)], [sizeof(THREAD_HANDLE* )] and
    [sizeof(connect_data_t)] on an LP64 platform. *)
Definition sizeof_handle : N := 8.
Definition sizeof_ptr : N := 8.
Definition sizeof_connect_data : N := 32.

(** [size_t] arithmetic wraps. *)
Definition size_mul (a b : N) : N := (a * b) mod SIZE_MOD.

(** Conversion of an [int] to [size_t]. *)
Definition size_of_int (z : Z) : N := Z.to_N (z mod Z.of_N SIZE_MOD).

(** Conversion of a [size_t] to [int] (wraps into the 32-bit signed range,
    as gcc and clang define it). *)
Definition int_of_size (n : N) : Z :=
  let r := (Z.of_N n mod 4294967296)%Z in
  if (r <=? INT_MAX)%Z then r else (r - 4294967296)%Z.

Definition in_int_range (z : Z) : bool := ((INT_MIN <=? z) && (z <=? INT_MAX))%Z.

(** ** The world *)

(** Modelled from the spec: the state of one queue of the queue primitive
    (sections 3 and 6).  [pipe_new] hands out the queue's own handle, which
    keeps the queue open on both sides until [pipe_free]; producer and
    consumer endpoints are counted. *)
Record pipe_t := Pipe {
  elem_size     : N;
  limit         : N;
  items         : list elem;
  producer_refs : nat;
  consumer_refs : nat;
  handle_live   : bool
}.

(** What a block of allocated memory holds. *)
Inductive block :=
| BConnect (d : option connect_data_t)          (* a [connect_data_t], maybe not yet written *)
| BScratch (bytes : N)                          (* a batch buffer *)
| BHandles (cells : list (option THREAD_HANDLE)). (* an array of handles; [None] is indeterminate *)

Definition block_bytes (b : block) : N :=
  match b with
  | BConnect _ => sizeof_connect_data
  | BScratch n => n
  | BHandles cells => N.of_nat (length cells) * sizeof_handle
  end.

(** Where a worker thread stands in [process_pipe] (see below). *)
Inductive worker_pc :=
| PcEntry   (param : ptr)                                        (* line 85 *)
| PcAlloc   (p : connect_data_t)                                 (* line 88 *)
| PcPop     (p : connect_data_t) (buf : ptr)                     (* line 92 *)
| PcProc    (p : connect_data_t) (buf : ptr) (batch : list elem) (* line 93 *)
| PcEos     (p : connect_data_t) (buf : ptr)                     (* line 95 *)
| PcFreeBuf (p : connect_data_t) (buf : ptr)                     (* line 97 *)
| PcFreeIn  (p : connect_data_t)                                 (* line 99 *)
| PcFreeOut (p : connect_data_t)                                 (* line 100 *)
| PcExit.                                                        (* line 102 *)

Record thread := Thread { th_handle : THREAD_HANDLE; th_pc : worker_pc }.

(** The calls this layer makes to its collaborators. *)
Inductive event :=
| EvPipeNew      (q : pipe_ref) (esz lim : N)
| EvPipeFree     (q : pipe_ref)
| EvProducerNew  (q : pipe_ref) (p : pipe_producer_t)
| EvConsumerNew  (q : pipe_ref) (c : pipe_consumer_t)
| EvProducerFree (p : pipe_producer_t)
| EvConsumerFree (c : pipe_consumer_t)
| EvElemSize     (q : pipe_ref)
| EvPush         (p : pipe_producer_t) (elems : list elem)
| EvPop          (c : pipe_consumer_t) (buf : ptr) (max : N) (got : list elem)
| EvMalloc       (bytes : N) (a : ptr)
| EvRealloc      (old : ptr) (bytes : N) (a : ptr)
| EvFree         (a : ptr)
| EvThreadCreate (param : ptr) (t : THREAD_HANDLE)
| EvThreadDestroy (t : THREAD_HANDLE)
| EvProc         (f : pipe_processor_t) (elems : ptr) (count : N)
                 (out : option pipe_producer_t) (aux : ptr).

Record world := World {
  pipes   : list pipe_t;               (* queue [q] is [pipes !! q] *)
  issued  : nat;                       (* endpoints issued so far *)
  heap    : list (option block);       (* address [a] is [heap !! (a - 1)]; [None] once freed *)
  threads : list thread;               (* in creation order *)
  oom     : list bool;                 (* which of the coming [realloc]s fail *)
  trace   : list (THREAD_HANDLE * event)
}.

Definition set_pipes (f : list pipe_t → list pipe_t) (w : world) : world :=
  World (f (pipes w)) (issued w) (heap w) (threads w) (oom w) (trace w).
Definition set_issued (f : nat → nat) (w : world) : world :=
  World (pipes w) (f (issued w)) (heap w) (threads w) (oom w) (trace w).
Definition set_heap (f : list (option block) → list (option block)) (w : world) : world :=
  World (pipes w) (issued w) (f (heap w)) (threads w) (oom w) (trace w).
Definition set_threads (f : list thread → list thread) (w : world) : world :=
  World (pipes w) (issued w) (heap w) (f (threads w)) (oom w) (trace w).
Definition set_oom (f : list bool → list bool) (w : world) : world :=
  World (pipes w) (issued w) (heap w) (threads w) (f (oom w)) (trace w).
Definition set_trace (f : list (THREAD_HANDLE * event) → list (THREAD_HANDLE * event))
    (w : world) : world :=
  World (pipes w) (issued w) (heap w) (threads w) (oom w) (f (trace w)).

Definition empty_world : world := World [] 0 [] [] [] [].

(** The thread that runs the builders. *)
Definition main_thread : THREAD_HANDLE := 0.

(** ** Computations *)

(** A call either returns, trips an [assert] (the process aborts), blocks
    forever in the model's single step, or has no defined behaviour in C. *)
Inductive outcome (A : Type) :=
| Done (a : A) (w : world)
| AssertFail (w : world)
| Blocked
| Undefined.
Arguments Done {A} a w.
Arguments AssertFail {A} w.
Arguments Blocked {A}.
Arguments Undefined {A}.

(** A computation reads the identity of the thread that runs it and
    transforms the world. *)
Definition M (A : Type) : Type := THREAD_HANDLE → world → outcome A.

#[global] Instance M_ret : MRet M := λ A a _ w, Done a w.

#[global] Instance M_bind : MBind M := λ A B k m tid w,
  match m tid w with
  | Done a w' => k a tid w'
  | AssertFail w' => AssertFail w'
  | Blocked => Blocked
  | Undefined => Undefined
  end.

Definition undefined {A} : M A := λ _ _, Undefined.
Definition blocked {A} : M A := λ _ _, Blocked.

Definition emit (e : event) : M unit :=
  λ tid w, Done () (set_trace (λ t, t ++ [(tid, e)]) w).

Definition get {A} (f : world → A) : M A := λ _ w, Done (f w) w.
Definition modify (f : world → world) : M unit := λ _ w, Done () (f w).

(** [assert(e)] from <assert.h>. *)
Definition assert (b : bool) : M unit :=
  λ _ w, if b then Done () w else AssertFail w.

Definition is_null (a : N) : bool := a =? 0.

(** ** The allocator *)

Definition block_at (a : ptr) (h : list (option block)) : option block :=
  if is_null a then None else mjoin (h !! Nat.pred (N.to_nat a)).

Definition heap_at (a : ptr) (w : world) : option block := block_at a (heap w).

Definition load_block (a : ptr) : M block :=
  λ _ w, match heap_at a w with Some b => Done b w | None => Undefined end.

Definition store_block (a : ptr) (b : block) : M unit :=
  _ ← load_block a;
  modify (set_heap (λ h, <[Nat.pred (N.to_nat a) := Some b]> h)).

Definition kill_block (a : ptr) : M unit :=
  _ ← load_block a;
  modify (set_heap (λ h, <[Nat.pred (N.to_nat a) := None]> h)).

Definition fresh_block (b : block) : M ptr :=
  a ← get (λ w, N.of_nat (S (length (heap w))));
  modify (set_heap (λ h, h ++ [Some b]));;
  mret a.

(** [malloc]: the code never checks its result, so it is taken to succeed;
    the block starts out as [b] (uninitialised storage of [bytes] bytes). *)
Definition malloc (bytes : N) (b : block) : M ptr :=
  a ← fresh_block b;
  emit (EvMalloc bytes a);;
  mret a.

Definition fresh_handles (bytes : N) : block :=
  BHandles (replicate (N.to_nat (bytes / sizeof_handle)) None).

(** [free]: [free(NULL)] does nothing; freeing anything but a live block is
    undefined. *)
Definition free (a : ptr) : M unit :=
  (if is_null a then mret () else kill_block a);;
  emit (EvFree a).

Definition next_oom : M bool :=
  λ _ w, Done (default false (head (oom w))) (set_oom (drop 1) w).

(** [realloc] of an array of handles.  It fails when the world's [oom]
    oracle says so or when the request exceeds [PTRDIFF_MAX]; on failure the
    old block is untouched and [NULL] is returned.  On success the old
    block is gone and the new one starts with the old cells. *)
Definition realloc (a : ptr) (bytes : N) : M ptr :=
  if is_null bytes then undefined else
  cells ← (if is_null a then mret []
            else b ← load_block a;
                 match b with BHandles cells => mret cells | _ => undefined end);
  fail ← next_oom;
  if fail || (PTRDIFF_MAX <? bytes) then
    emit (EvRealloc a bytes NULL);; mret NULL
  else
    (if is_null a then mret () else kill_block a);;
    a' ← fresh_block (BHandles (resize (N.to_nat (bytes / sizeof_handle)) None cells));
    emit (EvRealloc a bytes a');;
    mret a'.

(** [memcpy((char * )base + off, &h, sizeof(h))]. *)
Definition store_handle (base : ptr) (off : N) (h : THREAD_HANDLE) : M unit :=
  b ← load_block base;
  match b with
  | BHandles cells =>
      let i := N.to_nat (off / sizeof_handle) in
      if (off mod sizeof_handle =? 0) && bool_decide (i < length cells)%nat
      then store_block base (BHandles (<[i := Some h]> cells))
      else undefined
  | _ => undefined
  end.

(** [memcpy(&h, (char * )base + off, sizeof(h))]; using an indeterminate
    handle is undefined. *)
Definition load_handle (base : ptr) (off : N) : M THREAD_HANDLE :=
  b ← load_block base;
  match b with
  | BHandles cells =>
      if off mod sizeof_handle =? 0
      then match cells !! N.to_nat (off / sizeof_handle) with
           | Some (Some h) => mret h
           | _ => undefined
           end
      else undefined
  | _ => undefined
  end.

(** ** The queue primitive *)

Definition lookup_pipe (q : pipe_ref) : M pipe_t :=
  λ _ w, match pipes w !! q with Some p => Done p w | None => Undefined end.

Definition update_pipe (q : pipe_ref) (f : pipe_t → pipe_t) : M unit :=
  modify (set_pipes (alter f q)).

Definition add_producer (p : pipe_t) : pipe_t :=
  Pipe (elem_size p) (limit p) (items p) (S (producer_refs p)) (consumer_refs p) (handle_live p).
Definition add_consumer (p : pipe_t) : pipe_t :=
  Pipe (elem_size p) (limit p) (items p) (producer_refs p) (S (consumer_refs p)) (handle_live p).
Definition drop_producer (p : pipe_t) : pipe_t :=
  Pipe (elem_size p) (limit p) (items p) (Nat.pred (producer_refs p)) (consumer_refs p) (handle_live p).
Definition drop_consumer (p : pipe_t) : pipe_t :=
  Pipe (elem_size p) (limit p) (items p) (producer_refs p) (Nat.pred (consumer_refs p)) (handle_live p).
Definition drop_handle (p : pipe_t) : pipe_t :=
  Pipe (elem_size p) (limit p) (items p) (producer_refs p) (consumer_refs p) false.
Definition set_items (l : list elem) (p : pipe_t) : pipe_t :=
  Pipe (elem_size p) (limit p) l (producer_refs p) (consumer_refs p) (handle_live p).

(** Modelled from the spec: [create(element_size, capacity_or_zero)] of the
    queue primitive (section 6).  The new queue is empty and has no
    endpoints yet. *)
Definition pipe_new (esz lim : N) : M pipe_ref :=
  q ← get (λ w, length (pipes w));
  modify (set_pipes (λ ps, ps ++ [Pipe esz lim [] 0 0 true]));;
  emit (EvPipeNew q esz lim);;
  mret q.

(** Modelled from the spec: [destroy(Queue)] (section 6): the creator gives
    up its handle; the endpoints live on. *)
Definition pipe_free (q : pipe_ref) : M unit :=
  p ← lookup_pipe q;
  if handle_live p then update_pipe q drop_handle;; emit (EvPipeFree q)
  else undefined.

(** Modelled from the spec: [new_producer_endpoint(Queue)] (section 6). *)
Definition pipe_producer_new (q : pipe_ref) : M pipe_producer_t :=
  p ← lookup_pipe q;
  if handle_live p then
    n ← get issued;
    modify (set_issued S);;
    update_pipe q add_producer;;
    emit (EvProducerNew q (Producer q n));;
    mret (Producer q n)
  else undefined.

(** Modelled from the spec: [new_consumer_endpoint(Queue)] (section 6). *)
Definition pipe_consumer_new (q : pipe_ref) : M pipe_consumer_t :=
  p ← lookup_pipe q;
  if handle_live p then
    n ← get issued;
    modify (set_issued S);;
    update_pipe q add_consumer;;
    emit (EvConsumerNew q (Consumer q n));;
    mret (Consumer q n)
  else undefined.

(** Modelled from the spec: [release(ProducerEndpoint)] (section 6). *)
Definition pipe_producer_free (p : option pipe_producer_t) : M unit :=
  match p with
  | None => undefined
  | Some e =>
      q ← lookup_pipe (p_pipe e);
      if bool_decide (producer_refs q = 0%nat) then undefined
      else update_pipe (p_pipe e) drop_producer;; emit (EvProducerFree e)
  end.

(** Modelled from the spec: [release(ConsumerEndpoint)] (section 6). *)
Definition pipe_consumer_free (c : option pipe_consumer_t) : M unit :=
  match c with
  | None => undefined
  | Some e =>
      q ← lookup_pipe (c_pipe e);
      if bool_decide (consumer_refs q = 0%nat) then undefined
      else update_pipe (c_pipe e) drop_consumer;; emit (EvConsumerFree e)
  end.

(** Modelled from the spec: [element_size(endpoint)] (section 6), as
    [pipe_elem_size(PIPE_GENERIC(c))]. *)
Definition pipe_elem_size (c : option pipe_consumer_t) : M N :=
  match c with
  | None => undefined
  | Some e => q ← lookup_pipe (c_pipe e); emit (EvElemSize (c_pipe e));; mret (elem_size q)
  end.

(** Modelled from the spec: [push(ProducerEndpoint, buffer, count)]
    (section 6).  Every queue this layer creates is unbounded ([limit] 0),
    so a push never blocks. *)
Definition pipe_push (p : option pipe_producer_t) (elems : list elem) : M unit :=
  match p with
  | None => undefined
  | Some e =>
      q ← lookup_pipe (p_pipe e);
      if bool_decide (producer_refs q = 0%nat) then undefined
      else update_pipe (p_pipe e) (λ q, set_items (items q ++ elems) q);;
           emit (EvPush e elems)
  end.

(** A queue is open on its input side while its creator's handle or a
    producer endpoint is alive. *)
Definition pipe_open (q : pipe_t) : bool :=
  handle_live q || negb (bool_decide (producer_refs q = 0%nat)).

(** How many elements a pop hands over when the queue holds [len] and the
    caller asks for at most [max]: at least one and at most [min max len].
    [k] is the scheduler's pick within that range. *)
Definition granted (k : nat) (max : N) (len : nat) : nat :=
  Nat.max 1 (Nat.min k (Nat.min (N.to_nat max) len)).

(** Modelled from the spec: [pop(ConsumerEndpoint, buffer, max_count)]
    (section 6): it blocks if the queue is empty and open, returns 0 once
    the input side is closed and drained, and otherwise hands over between
    1 and [max_count] elements from the front of the queue. *)
Definition pipe_pop (c : option pipe_consumer_t) (buf : ptr) (max : N) (k : nat)
    : M (list elem) :=
  match c with
  | None => undefined
  | Some e =>
      q ← lookup_pipe (c_pipe e);
      if bool_decide (consumer_refs q = 0%nat) || is_null max then undefined
      else match items q with
           | [] => if pipe_open q then blocked
                   else emit (EvPop e buf max []);; mret []
           | _ =>
               let n := granted k max (length (items q)) in
               update_pipe (c_pipe e) (set_items (drop n (items q)));;
               emit (EvPop e buf max (take n (items q)));;
               mret (take n (items q))
           end
  end.

(** ** Threads *)

(** [thread_create(&process_pipe, p)]: a new thread stands at the entry of
    [process_pipe] with argument [p].  Handles of threads are never [0]. *)
Definition thread_create (param : ptr) : M THREAD_HANDLE :=
  t ← get (λ w, N.of_nat (S (length (threads w))));
  modify (set_threads (λ ts, ts ++ [Thread t (PcEntry param)]));;
  emit (EvThreadCreate param t);;
  mret t.

(** [thread_destroy(t)]: [pthread_join] (or [CloseHandle]).  The wait is not
    part of the model; the call is. *)
Definition thread_destroy (t : THREAD_HANDLE) : M unit :=
  emit (EvThreadDestroy t).

(** ** pipe_util.c *)

(** [pipe_trivial_pipeline].  The two initialisers of the compound literal
    are taken in the order they are written. *)
Definition pipe_trivial_pipeline (p : pipe_ref) : M pipeline_t :=
  i ← pipe_producer_new p;
  o ← pipe_consumer_new p;
  mret (Pipeline (Some i) (Some o)).

Definition DEFAULT_BUFFER_SIZE : N := 128.

(** [pipe_connect].  The out-parameter [handle] is [None] for a [NULL]
    pointer and [Some v] for a pointer to a variable holding [v]; the
    result is the variable's content afterwards. *)
Definition pipe_connect (in_ : option pipe_consumer_t)
    (proc : pipe_processor_t) (aux : ptr)
    (out : option pipe_producer_t)
    (handle : option THREAD_HANDLE) : M (option THREAD_HANDLE) :=
  assert (bool_decide (is_Some in_));;
  assert (bool_decide (is_Some out));;
  assert (negb (is_null proc));;
  d ← malloc sizeof_connect_data (BConnect None);
  store_block d (BConnect (Some (ConnectData in_ proc aux out)));;
  t ← thread_create d;
  match handle with
  | Some _ => mret (Some t)
  | None => mret None
  end.

Definition pipe_connect_free (handle : THREAD_HANDLE) : M unit :=
  if negb (is_null handle) then thread_destroy handle else mret ().

(** [count++] on an [int]: overflow is undefined. *)
Definition int_incr (count : Z) : M Z :=
  if bool_decide (count < INT_MAX)%Z then mret (count + 1)%Z else undefined.

(** The body of [while(instances--)] in [pipe_parallel], run [n] times.
    The two endpoint constructors are arguments of one call; they are taken
    left to right. *)
Fixpoint pipe_parallel_loop (n : nat) (in_ out : pipe_ref)
    (proc : pipe_processor_t) (aux : ptr) (threads : ptr) (count : Z) : M Z :=
  match n with
  | O => mret count
  | S n' =>
      c ← pipe_consumer_new in_;
      p ← pipe_producer_new out;
      thread ← pipe_connect (Some c) proc aux (Some p) (Some NULL);
      store_handle threads (size_mul (size_of_int count) sizeof_handle)
                   (default NULL thread);;
      count' ← int_incr count;
      pipe_parallel_loop n' in_ out proc aux threads count'
  end.

(** [pipe_parallel].  [handles] is [None] for a [NULL] pointer, [Some v] for
    a pointer to a variable holding [v]; the second component of the result
    is the variable's content afterwards. *)
Definition pipe_parallel (instances : N) (handles : option ptr) (in_size : N)
    (proc : pipe_processor_t) (aux : ptr) (out_size : N)
    : M (pipeline_t * option ptr) :=
  in_ ← pipe_new in_size 0;
  out ← pipe_new out_size 0;
  threads ← malloc (size_mul instances sizeof_handle)
                   (fresh_handles (size_mul instances sizeof_handle));
  _ ← pipe_parallel_loop (N.to_nat instances) in_ out proc aux threads 0;
  i ← pipe_producer_new in_;
  o ← pipe_consumer_new out;
  pipe_free in_;;
  pipe_free out;;
  match handles with
  | Some _ => mret (Pipeline (Some i) (Some o), Some threads)
  | None => free threads;; mret (Pipeline (Some i) (Some o), None)
  end.

(** The variadic arguments of [pipe_pipeline]: pointers (processing
    functions and auxiliary contexts) and sizes.  [va_arg] takes the next
    one; taking one that is not there, or at the wrong type, is undefined. *)
Inductive va_value :=
| VaPtr (a : N)
| VaSize (n : N).

Definition va_list := list va_value.

(** Lines 195-206 of [va_pipe_pipeline]: record [handle] in the registry
    [( *count, *handles)].  [count] and [handles] are [None] for [NULL]
    pointers; the result is the content of the two variables afterwards. *)
Definition record_handle (count : option Z) (handles : option ptr)
    (handle : THREAD_HANDLE) : M (option Z * option ptr) :=
  match count, handles with
  | Some c, Some hs =>
      if bool_decide (c < INT_MAX)%Z then
        let new_count := (c + 1)%Z in
        let new_size := int_of_size (size_mul (size_of_int new_count) sizeof_ptr) in
        new_handles ← realloc hs (size_of_int new_size);
        if negb (is_null new_handles) then
          store_handle new_handles (size_mul (size_of_int c) sizeof_handle) handle;;
          mret (Some new_count, Some new_handles)
        else mret (count, handles)
      else undefined
  | _, _ => mret (count, handles)
  end.

Fixpoint va_pipe_pipeline (count : option Z) (handles : option ptr)
    (result_so_far : pipeline_t) (args : va_list) {struct args}
    : M (pipeline_t * option Z * option ptr) :=
  match args with
  | VaPtr proc :: args1 =>
      if is_null proc then mret (result_so_far, count, handles)
      else
        match args1 with
        | VaPtr aux :: VaSize pipe_size :: args2 =>
            if is_null pipe_size then
              pipe_consumer_free (pl_out result_so_far);;
              mret (Pipeline (pl_in result_so_far) None, count, handles)
            else
              pipe ← pipe_new pipe_size 0;
              p ← pipe_producer_new pipe;
              handle ← pipe_connect (pl_out result_so_far) proc aux (Some p) (Some NULL);
              '(count', handles') ← record_handle count handles (default NULL handle);
              c ← pipe_consumer_new pipe;
              pipe_free pipe;;
              va_pipe_pipeline count' handles'
                (Pipeline (pl_in result_so_far) (Some c)) args2
        | _ => undefined
        end
  | _ => undefined
  end.

Definition pipe_pipeline (count : option Z) (handles : option ptr)
    (first_size : N) (va : va_list) : M (pipeline_t * option Z * option ptr) :=
  p ← pipe_new first_size 0;
  t ← pipe_trivial_pipeline p;
  r ← va_pipe_pipeline count handles t va;
  pipe_free p;;
  mret r.

(** The [for] loop of [pipe_handles_free], [n] iterations from index [i]. *)
Fixpoint pipe_handles_free_loop (n : nat) (t : ptr) (i : Z) : M unit :=
  match n with
  | O => mret ()
  | S n' =>
      handle ← load_handle t (size_mul (size_of_int i) sizeof_handle);
      pipe_connect_free handle;;
      pipe_handles_free_loop n' t (i + 1)%Z
  end.

(** [pipe_handles_free].  [handles] is [None] for a [NULL] pointer, [Some t]
    for a pointer to a variable holding [t]; the result is the variable's
    content afterwards. *)
Definition pipe_handles_free (count : Z) (handles : option ptr) : M (option ptr) :=
  match handles with
  | None => mret None
  | Some t =>
      if (count =? 0)%Z then mret (Some t)
      else
        pipe_handles_free_loop (Z.to_nat count) t 0;;
        free t;;
        mret (Some NULL)
  end.

(** ** The worker thread *)

(** Modelled from the spec: a processing function (section 3) is "a pure
    capability taking (input batch pointer, input batch count, output
    producer endpoint, auxiliary context) and performing zero or more pushes
    to the output endpoint".  Its body maps the batch and the auxiliary
    context to the pushes it performs, in order. *)
Definition proc_body := list elem → N → ptr → list (list elem).

(** The code table: what stands at the address of a function pointer. *)
Definition code_table := pipe_processor_t → option proc_body.

Fixpoint push_all (out : option pipe_producer_t) (pushes : list (list elem)) : M unit :=
  match pushes with
  | [] => mret ()
  | e :: rest => pipe_push out e;; push_all out rest
  end.

(** The call [f(elems, count, out, aux)], where [batch] is what [elems]
    points to. *)
Definition call_proc (code : code_table) (f : pipe_processor_t)
    (elems : ptr) (batch : list elem) (count : N)
    (out : option pipe_producer_t) (aux : ptr) : M unit :=
  emit (EvProc f elems count out aux);;
  match code f with
  | Some body => push_all out (body batch count aux)
  | None => undefined
  end.

(** [process_pipe], one call to a collaborator at a time: the step the
    worker takes from [pc].  [k] is the scheduler's pick for a pop. *)
Definition process_pipe (code : code_table) (k : nat) (pc : worker_pc) : M worker_pc :=
  match pc with
  | PcEntry param =>
      b ← load_block param;
      match b with
      | BConnect (Some p) => free param;; mret (PcAlloc p)
      | _ => undefined
      end
  | PcAlloc p =>
      esz ← pipe_elem_size (cd_in p);
      buf ← malloc (size_mul DEFAULT_BUFFER_SIZE esz)
                   (BScratch (size_mul DEFAULT_BUFFER_SIZE esz));
      mret (PcPop p buf)
  | PcPop p buf =>
      batch ← pipe_pop (cd_in p) buf DEFAULT_BUFFER_SIZE k;
      match batch with
      | [] => mret (PcEos p buf)
      | _ => mret (PcProc p buf batch)
      end
  | PcProc p buf batch =>
      call_proc code (cd_proc p) buf batch (N.of_nat (length batch)) (cd_out p) (cd_aux p);;
      mret (PcPop p buf)
  | PcEos p buf =>
      call_proc code (cd_proc p) NULL [] 0 None (cd_aux p);;
      mret (PcFreeBuf p buf)
  | PcFreeBuf p buf =>
      free buf;;
      mret (PcFreeIn p)
  | PcFreeIn p =>
      pipe_consumer_free (cd_in p);;
      mret (PcFreeOut p)
  | PcFreeOut p =>
      pipe_producer_free (cd_out p);;
      mret PcExit
  | PcExit => blocked
  end.

(** The thread at index [i] of the thread table takes its next step. *)
Definition step_thread (code : code_table) (i k : nat) (w : world) : outcome unit :=
  match threads w !! i with
  | None => Undefined
  | Some th =>
      match process_pipe code k (th_pc th) (th_handle th) w with
      | Done pc' w' => Done () (set_threads (<[i := Thread (th_handle th) pc']>) w')
      | AssertFail w' => AssertFail w'
      | Blocked => Blocked
      | Undefined => Undefined
      end
  end.

(** The thread at index [i] takes one step for each pick in [ks]. *)
Fixpoint run_thread (code : code_table) (i : nat) (ks : list nat) (w : world)
    : outcome unit :=
  match ks with
  | [] => Done () w
  | k :: ks' =>
      match step_thread code i k w with
      | Done _ w' => run_thread code i ks' w'
      | o => o
      end
  end.

(** * The vocabulary of the properties *)

(** ** The worker's own calls *)












Definition good_batch (b : list elem) : Prop :=
  b ≠ [] ∧ (length b ≤ N.to_nat DEFAULT_BUFFER_SIZE)%nat.

(** What a call leaves behind: the thread table as it was and the trace
    extended by [evs], all made by the calling thread. *)
Definition logs {A} (m : M A) (evs : A → list event) : Prop :=
  ∀ tid w a w', m tid w = Done a w' →
    threads w' = threads w ∧ trace w' = trace w ++ (pair tid <$> evs a).

(** ** The stage connector *)

(** The world [pipe_connect] leaves when its assertions hold. *)
Definition connect_world (in_ : option pipe_consumer_t) (proc : pipe_processor_t)
    (aux : ptr) (out : option pipe_producer_t) (tid : THREAD_HANDLE) (w : world) : world :=
  let d := N.of_nat (S (length (heap w))) in
  let t := N.of_nat (S (length (threads w))) in
  World (pipes w) (issued w)
        (heap w ++ [Some (BConnect (Some (ConnectData in_ proc aux out)))])
        (threads w ++ [Thread t (PcEntry d)])
        (oom w)
        (trace w ++ [(tid, EvMalloc sizeof_connect_data d); (tid, EvThreadCreate d t)]).



(** ** The worker running alone *)

(** The worker at index [i] stands at [pc]; its input queue is [qi], its
    output queue [qo], the heap [h]. *)
Definition alone (i : nat) (t : THREAD_HANDLE) (c : pipe_consumer_t) (o : pipe_producer_t)
    (pc : worker_pc) (qi qo : pipe_t) (h : list (option block)) (w : world) : Prop :=
  threads w !! i = Some (Thread t pc) ∧
  pipes w !! c_pipe c = Some qi ∧
  pipes w !! p_pipe o = Some qo ∧
  heap w = h.

(** What the processing function [body] pushes, in all, when it is handed
    the batches [bs] one after the other. *)
Definition pushed (body : proc_body) (aux : ptr) (bs : list (list elem)) : list elem :=
  concat (concat ((λ b, body b (N.of_nat (length b)) aux) <$> bs)).

(** What a run of the worker at index [i], connected from [c] to [o], leaves
    alone: the other threads and the other queues. *)
Definition framed (i : nat) (c : pipe_consumer_t) (o : pipe_producer_t) (w w' : world)
    : Prop :=
  length (threads w') = length (threads w) ∧
  (∀ j, j ≠ i → threads w' !! j = threads w !! j) ∧
  (∀ q, q ≠ c_pipe c → q ≠ p_pipe o → pipes w' !! q = pipes w !! q).

(** ** The registry of thread handles *)


(** ** The fan-out/fan-in builder *)

Section Parallel.
(** [pipe_parallel] called in the world [w] by thread [tid], for
    [total] instances. *)
Variables (w : world) (in_size out_size : N) (proc : pipe_processor_t)
          (aux : ptr) (tid : THREAD_HANDLE) (total : nat).

(** The input queue and the output queue. *)
Definition par_in : pipe_ref := length (pipes w).
Definition par_out : pipe_ref := S (length (pipes w)).

(** The array of handles. *)
Definition par_array : ptr := N.of_nat (S (length (heap w))).

(** What instance [j] gets: its endpoints, its argument block, its
    thread. *)
Definition par_consumer (j : nat) : pipe_consumer_t :=
  Consumer par_in (issued w + 2 * j).
Definition par_producer (j : nat) : pipe_producer_t :=
  Producer par_out (issued w + 2 * j + 1).
Definition par_data (j : nat) : connect_data_t :=
  ConnectData (Some (par_consumer j)) proc aux (Some (par_producer j)).
Definition par_handle (j : nat) : THREAD_HANDLE :=
  N.of_nat (S (length (threads w) + j)).
Definition par_block (j : nat) : ptr :=
  N.of_nat (S (S (length (heap w)) + j)).
Definition par_thread (j : nat) : thread :=
  Thread (par_handle j) (PcEntry (par_block j)).
Definition par_events (j : nat) : list event :=
  [EvConsumerNew par_in (par_consumer j);
   EvProducerNew par_out (par_producer j);
   EvMalloc sizeof_connect_data (par_block j);
   EvThreadCreate (par_block j) (par_handle j)].

(** The array after [j] instances. *)
Definition par_cells (j : nat) : list (option THREAD_HANDLE) :=
  (Some ∘ par_handle <$> seq 0 j) ++ replicate (total - j) None.

Definition par_start : list event :=
  [EvPipeNew par_in in_size 0; EvPipeNew par_out out_size 0;
   EvMalloc (size_mul (N.of_nat total) sizeof_handle) par_array].

(** The world after [j] turns of the loop. *)
Definition par_world (j : nat) : world :=
  World (pipes w ++ [Pipe in_size 0 [] 0 j true; Pipe out_size 0 [] j 0 true])
        (issued w + 2 * j)
        (heap w ++ Some (BHandles (par_cells j))
                :: (Some ∘ BConnect ∘ Some ∘ par_data <$> seq 0 j))
        (threads w ++ (par_thread <$> seq 0 j))
        (oom w)
        (trace w ++ (pair tid <$> par_start ++ concat (par_events <$> seq 0 j))).

(** The caller's ends of the two queues. *)
Definition par_result : pipeline_t :=
  Pipeline (Some (Producer par_in (issued w + 2 * total)))
           (Some (Consumer par_out (issued w + 2 * total + 1))).

Definition par_finish : list event :=
  [EvProducerNew par_in (Producer par_in (issued w + 2 * total));
   EvConsumerNew par_out (Consumer par_out (issued w + 2 * total + 1));
   EvPipeFree par_in; EvPipeFree par_out].

(** The world [pipe_parallel] leaves; [keep] says whether the caller
    asked for the array of handles. *)
Definition par_final (keep : bool) : world :=
  World (pipes w ++ [Pipe in_size 0 [] 1 total false; Pipe out_size 0 [] total 1 false])
        (issued w + 2 * total + 2)
        (heap w ++ (if keep then Some (BHandles (Some ∘ par_handle <$> seq 0 total)) else None)
                :: (Some ∘ BConnect ∘ Some ∘ par_data <$> seq 0 total))
        (threads w ++ (par_thread <$> seq 0 total))
        (oom w)
        (trace w ++ (pair tid <$> par_start ++ concat (par_events <$> seq 0 total)
                                ++ par_finish ++ (if keep then [] else [EvFree par_array]))).
End Parallel.

(** The world in turn [j] of the loop once [pipe_connect] has returned:
    instance [j] has its endpoints, its argument block and its thread; its
    handle is not in the array yet. *)
Definition par_connected (w : world) (in_size out_size : N) (proc : pipe_processor_t)
    (aux : ptr) (tid : THREAD_HANDLE) (total j : nat) : world :=
  World (pipes w ++ [Pipe in_size 0 [] 0 (S j) true; Pipe out_size 0 [] (S j) 0 true])
        (issued w + 2 * S j)
        (heap w ++ Some (BHandles (par_cells w total j))
                :: (Some ∘ BConnect ∘ Some ∘ par_data w proc aux <$> seq 0 (S j)))
        (threads w ++ (par_thread w <$> seq 0 (S j)))
        (oom w)
        (trace w ++ (pair tid <$> par_start w in_size out_size total
                                ++ concat (par_events w <$> seq 0 (S j)))).

(** ** The linear pipeline builder *)

(** The registry [( *count, *handles)] is usable in [w]: the count is not
    negative and small enough for the [int] arithmetic of lines 197-198,
    and the array is [NULL] or a live array of handles.  A [NULL] pointer
    for [count] or [handles] is always fine. *)
Definition REGISTRY_MAX : Z := 268435455.

Definition registry_ok (count : option Z) (handles : option ptr) (w : world) : Prop :=
  match count, handles with
  | Some c, Some hs =>
      (0 ≤ c < REGISTRY_MAX)%Z ∧
      (hs = NULL ∨ ∃ cells, heap_at hs w = Some (BHandles cells))
  | _, _ => True
  end.

Definition registry_cells (hs : ptr) (w : world) : list (option THREAD_HANDLE) :=
  match heap_at hs w with
  | Some (BHandles cells) => cells
  | _ => []
  end.

(** The size [va_pipe_pipeline] asks [realloc] for. *)
Definition realloc_bytes (c : Z) : N := Z.to_N ((c + 1) * 8).

(** What lines 195-206 leave: the content of [*count] and [*handles] and
    the world, when the handle [t] is to be recorded. *)
Definition recorded (count : option Z) (handles : option ptr) (t : THREAD_HANDLE)
    (tid : THREAD_HANDLE) (w : world) : option Z * option ptr * world :=
  match count, handles with
  | Some c, Some hs =>
      if default false (head (oom w)) then
        (Some c, Some hs,
         World (pipes w) (issued w) (heap w) (threads w) (drop 1 (oom w))
               (trace w ++ [(tid, EvRealloc hs (realloc_bytes c) NULL)]))
      else
        (Some (c + 1)%Z, Some (N.of_nat (S (length (heap w)))),
         World (pipes w) (issued w)
               ((if is_null hs then heap w
                 else <[Nat.pred (N.to_nat hs) := None]> (heap w))
                  ++ [Some (BHandles (<[Z.to_nat c := Some t]>
                                        (resize (S (Z.to_nat c)) None (registry_cells hs w))))])
               (threads w) (drop 1 (oom w))
               (trace w ++ [(tid, EvRealloc hs (realloc_bytes c) (N.of_nat (S (length (heap w)))))]))
  | _, _ => (count, handles, w)
  end.

(** The world after [realloc(hs, realloc_bytes c)], when it fails and
    when it succeeds. *)
Definition realloc_failed (hs : ptr) (c : Z) (tid : THREAD_HANDLE) (w : world) : world :=
  World (pipes w) (issued w) (heap w) (threads w) (drop 1 (oom w))
        (trace w ++ [(tid, EvRealloc hs (realloc_bytes c) NULL)]).

Definition realloc_done (hs : ptr) (c : Z) (tid : THREAD_HANDLE) (w : world) : world :=
  World (pipes w) (issued w)
        ((if is_null hs then heap w else <[Nat.pred (N.to_nat hs) := None]> (heap w))
           ++ [Some (BHandles (resize (S (Z.to_nat c)) None (registry_cells hs w)))])
        (threads w) (drop 1 (oom w))
        (trace w ++ [(tid, EvRealloc hs (realloc_bytes c) (N.of_nat (S (length (heap w)))))]).

(** A stage descriptor: processing function, auxiliary context, size of
    the elements of the next queue; and the way it is passed, as three
    variadic arguments. *)
Definition stage : Type := pipe_processor_t * ptr * N.

Definition st_proc (d : stage) : pipe_processor_t := d.1.1.
Definition st_aux (d : stage) : ptr := d.1.2.
Definition st_size (d : stage) : N := d.2.

Definition va_stage (d : stage) : va_list :=
  [VaPtr (st_proc d); VaPtr (st_aux d); VaSize (st_size d)].

Definition va_stages (ds : list stage) : va_list := concat (va_stage <$> ds).

(** A descriptor that makes a stage: neither the sentinel nor a sink. *)
Definition real_stage (d : stage) : Prop := st_proc d ≠ 0 ∧ st_size d ≠ 0.

(** Where a construction stands: the registry, the pipeline so far, the
    world. *)
Record build := Build {
  b_count   : option Z;
  b_handles : option ptr;
  b_result  : pipeline_t;
  b_world   : world
}.

(** The world once the new queue, its producer endpoint and the worker of
    stage [d] exist (lines 191-194). *)
Definition stage_connected (r : pipeline_t) (d : stage) (tid : THREAD_HANDLE)
    (w : world) : world :=
  let q := length (pipes w) in
  let a := N.of_nat (S (length (heap w))) in
  let t := N.of_nat (S (length (threads w))) in
  World (pipes w ++ [Pipe (st_size d) 0 [] 1 0 true])
        (S (issued w))
        (heap w ++ [Some (BConnect (Some (ConnectData (pl_out r) (st_proc d) (st_aux d)
                                                      (Some (Producer q (issued w))))))])
        (threads w ++ [Thread t (PcEntry a)])
        (oom w)
        (trace w ++ [(tid, EvPipeNew q (st_size d) 0);
                     (tid, EvProducerNew q (Producer q (issued w)));
                     (tid, EvMalloc sizeof_connect_data a);
                     (tid, EvThreadCreate a t)]).

(** One turn of [va_pipe_pipeline] on the descriptor [d]. *)
Definition build_stage (tid : THREAD_HANDLE) (b : build) (d : stage) : build :=
  let w := b_world b in
  let q := length (pipes w) in
  let t := N.of_nat (S (length (threads w))) in
  let rec := recorded (b_count b) (b_handles b) t tid
                      (stage_connected (b_result b) d tid w) in
  Build rec.1.1 rec.1.2
        (Pipeline (pl_in (b_result b)) (Some (Consumer q (S (issued w)))))
        (World (pipes w ++ [Pipe (st_size d) 0 [] 1 1 false])
               (S (S (issued w)))
               (heap rec.2) (threads rec.2) (oom rec.2)
               (trace rec.2 ++ [(tid, EvConsumerNew q (Consumer q (S (issued w))));
                                (tid, EvPipeFree q)])).

Definition build_chain (tid : THREAD_HANDLE) (b : build) (ds : list stage) : build :=
  foldl (build_stage tid) b ds.

(** Room in the registry for [n] more handles. *)
Definition registry_room (n : nat) (count : option Z) (handles : option ptr)
    (w : world) : Prop :=
  match count, handles with
  | Some c, Some hs =>
      (0 ≤ c)%Z ∧ (c + Z.of_nat n ≤ REGISTRY_MAX)%Z ∧
      (hs = NULL ∨ ∃ cells, heap_at hs w = Some (BHandles cells))
  | _, _ => True
  end.

(** The pipeline before its first stage (lines 219-221): one queue, with
    one producer and one consumer endpoint. *)
Definition pipeline_start (count : option Z) (handles : option ptr) (first_size : N)
    (tid : THREAD_HANDLE) (w : world) : build :=
  let q := length (pipes w) in
  Build count handles
        (Pipeline (Some (Producer q (issued w))) (Some (Consumer q (S (issued w)))))
        (World (pipes w ++ [Pipe first_size 0 [] 1 1 true])
               (S (S (issued w))) (heap w) (threads w) (oom w)
               (trace w ++ [(tid, EvPipeNew q first_size 0);
                            (tid, EvProducerNew q (Producer q (issued w)));
                            (tid, EvConsumerNew q (Consumer q (S (issued w))))])).

(** What the worker of a thread that has not started yet will run on. *)
Definition worker_data (w : world) (th : thread) : option connect_data_t :=
  match th_pc th with
  | PcEntry a =>
      match heap_at a w with
      | Some (BConnect d) => d
      | _ => None
      end
  | _ => None
  end.

(** The wiring of a chain of stages: each is connected from the consumer
    end so far, [prev], to a new producer endpoint on a new queue [q], whose
    new consumer endpoint is the consumer end for the next one.  [i] counts
    the endpoints issued. *)
Fixpoint chain_data (prev : option pipe_consumer_t) (q i : nat) (ds : list stage)
    : list connect_data_t :=
  match ds with
  | [] => []
  | d :: ds' =>
      ConnectData prev (st_proc d) (st_aux d) (Some (Producer q i))
        :: chain_data (Some (Consumer q (S i))) (S q) (S (S i)) ds'
  end.

Fixpoint chain_out (prev : option pipe_consumer_t) (q i : nat) (ds : list stage)
    : option pipe_consumer_t :=
  match ds with
  | [] => prev
  | d :: ds' => chain_out (Some (Consumer q (S i))) (S q) (S (S i)) ds'
  end.

(** The handles of [n] threads created when [t] exist. *)
Definition new_handles (t n : nat) : list THREAD_HANDLE := N.of_nat ∘ S <$> seq t n.

(** The registry [(c, hs)] holds exactly the handles [hl]. *)
Definition registry_is (c : Z) (hs : ptr) (hl : list THREAD_HANDLE) (w : world) : Prop :=
  c = Z.of_nat (length hl) ∧
  if is_null hs then hl = [] else heap_at hs w = Some (BHandles (Some <$> hl)).

(** The construction of the stages [ds], from [pipeline_start]. *)
Definition pipeline_chain (count : option Z) (handles : option ptr) (first_size : N)
    (ds : list stage) (tid : THREAD_HANDLE) (w : world) : build :=
  build_chain tid (pipeline_start count handles first_size tid w) ds.

(** Of the handles [hs] of the threads created in turn, those that end up
    in the registry when the [realloc]s fail as [oom] says: stage after
    stage, the handle is dropped where [realloc] fails and appended where it
    succeeds. *)
Fixpoint kept_handles (oom : list bool) (hs : list THREAD_HANDLE) : list THREAD_HANDLE :=
  match hs with
  | [] => []
  | h :: hs' =>
      if default false (head oom) then kept_handles (drop 1 oom) hs'
      else h :: kept_handles (drop 1 oom) hs'
  end.

(** ** A pipeline of maps, stage after stage *)

(** Modelled from the spec: a processing function (section 3) that pushes,
    for each batch, the image of the batch under [f], and nothing on the
    end-of-stream call.  The identity function of section 8 is [map_body]
    of the identity. *)
Definition map_body (f : elem → elem) : proc_body :=
  λ batch _ _, match batch with [] => [] | _ => [f <$> batch] end.

(** A schedule: which thread takes the next step, with the pick for its
    pop. *)
Fixpoint run_sched (code : code_table) (sched : list (nat * nat)) (w : world)
    : outcome unit :=
  match sched with
  | [] => Done () w
  | (i, k) :: s =>
      match step_thread code i k w with
      | Done _ w' => run_sched code s w'
      | o => o
      end
  end.

(** What the worker of stage [j] of a pipeline built by a fresh process
    runs on. *)
Definition stage_data (j : nat) (d : stage) : connect_data_t :=
  ConnectData (Some (Consumer j (2 * j + 1))) (st_proc d) (st_aux d)
              (Some (Producer (S j) (2 * j + 2))).

(** A pipeline of the stages [ds], built by a fresh process, when the
    workers of the first [k] stages have run to their end and the others
    have not started: queue [k] holds [ys] and is closed on its input
    side. *)
Definition stages_inv (ds : list stage) (k : nat) (ys : list elem) (w : world) : Prop :=
  length (threads w) = length ds ∧
  (length ds ≤ length (heap w))%nat ∧
  (∀ j, (j < k)%nat → th_pc <$> threads w !! j = Some PcExit) ∧
  (∀ j d, (k ≤ j)%nat → ds !! j = Some d →
     threads w !! j = Some (Thread (N.of_nat (S j)) (PcEntry (N.of_nat (S j)))) ∧
     heap w !! j = Some (Some (BConnect (Some (stage_data j d)))) ∧
     pipes w !! S j = Some (Pipe (st_size d) 0 [] 1 1 false)) ∧
  (∃ sz, pipes w !! k = Some (Pipe sz 0 ys 0 1 false)).

(** The instances of [pipe_parallel] called in [w] for [n] instances of a
    function that maps [f], fed [xs], when the workers of the first [k]
    instances have run to their end and the others have not started. *)
Definition instances_inv (w : world) (in_size out_size : N) (proc : pipe_processor_t)
    (aux : ptr) (n : nat) (f : elem → elem) (xs : list elem) (k : nat) (w' : world) : Prop :=
  (S (length (heap w)) + n ≤ length (heap w'))%nat ∧
  (∀ j, (j < k)%nat → th_pc <$> threads w' !! (length (threads w) + j)%nat = Some PcExit) ∧
  (∀ j, (k ≤ j < n)%nat →
     threads w' !! (length (threads w) + j)%nat = Some (par_thread w j) ∧
     heap w' !! (S (length (heap w)) + j)%nat
       = Some (Some (BConnect (Some (par_data w proc aux j))))) ∧
  pipes w' !! par_in w =
    Some (Pipe in_size 0 (match k with O => xs | _ => [] end) 0 (n - k) false) ∧
  pipes w' !! par_out w =
    Some (Pipe out_size 0 (match k with O => [] | _ => f <$> xs end) (n - k) 1 false).

(** ** One stage running the identity function *)

(** Modelled from the spec: the identity processing function of section 8,
    which "copies every input batch verbatim to the output"; on the
    end-of-stream call (empty batch, null output) it pushes nothing. *)
Definition identity_body : proc_body :=
  λ batch _ _, match batch with [] => [] | _ => [batch] end.

(** The address of the identity function, and the code table of a program
    that has it. *)
Definition identity : pipe_processor_t := 1.

Definition identity_code : code_table :=
  λ f, if f =? identity then Some identity_body else None.

(** Modelled from the spec: the test of section 8.  A caller feeds a list
    of elements to the producer end of a one-stage pipeline, releases the
    producer end, and pops from the consumer end until a pop returns
    nothing.  [Sys] is the process: the world, what the caller has yet to
    push, the caller's two ends ([source] is [None] once released), what
    the caller has popped so far and whether it has seen the end of the
    stream. *)
Record stage_sys := Sys {
  sys_world : world;
  to_feed   : list elem;
  source    : option pipe_producer_t;
  sink      : option pipe_consumer_t;
  seen      : list elem;
  eos       : bool
}.

(** What the scheduler can let happen next: the caller pushes some of the
    elements left, the caller releases the producer end, the worker takes a
    step, the caller pops. *)
Inductive move :=
| Feed (k : nat)
| Release
| Work (k : nat)
| Drain (buf : ptr) (max : positive) (k : nat).

Inductive result :=
| Next (s : stage_sys)
| Stuck
| Crash.

Definition advance {A} (o : outcome A) (k : A → world → stage_sys) : result :=
  match o with
  | Done a w => Next (k a w)
  | Blocked => Stuck
  | AssertFail _ | Undefined => Crash
  end.

Definition sys_step (m : move) (s : stage_sys) : result :=
  match m with
  | Feed k =>
      match to_feed s with
      | [] => Stuck
      | _ =>
          let n := Nat.max 1 (Nat.min k (length (to_feed s))) in
          advance (pipe_push (source s) (take n (to_feed s)) main_thread (sys_world s))
                  (λ _ w, Sys w (drop n (to_feed s)) (source s) (sink s) (seen s) (eos s))
      end
  | Release =>
      match to_feed s, source s with
      | [], Some p =>
          advance (pipe_producer_free (Some p) main_thread (sys_world s))
                  (λ _ w, Sys w [] None (sink s) (seen s) (eos s))
      | _, _ => Stuck
      end
  | Work k =>
      advance (step_thread identity_code 0 k (sys_world s))
              (λ _ w, Sys w (to_feed s) (source s) (sink s) (seen s) (eos s))
  | Drain buf max k =>
      if eos s then Stuck
      else
        advance (pipe_pop (sink s) buf (Npos max) k main_thread (sys_world s))
                (λ got w, Sys w (to_feed s) (source s) (sink s) (seen s ++ got)
                              (match got with [] => true | _ => false end))
  end.

Fixpoint sys_run (ms : list move) (s : stage_sys) : result :=
  match ms with
  | [] => Next s
  | m :: ms' =>
      match sys_step m s with
      | Next s' => sys_run ms' s'
      | r => r
      end
  end.

(** The process at the start: a fresh process builds the one-stage
    pipeline with [pipe_pipeline], keeping no registry. *)
Definition stage_init (esz : N) (aux : ptr) (xs : list elem) : option stage_sys :=
  match pipe_pipeline None None esz [VaPtr identity; VaPtr aux; VaSize esz; VaPtr 0]
                      main_thread empty_world with
  | Done (pl, _, _) w => Some (Sys w xs (pl_in pl) (pl_out pl) [] false)
  | _ => None
  end.

(** [1; 2; ...; n]. *)
Definition upto (n : nat) : list elem := Z.of_nat <$> seq 1 n.

Local Open Scope nat_scope.

(** The shape of every state the process can reach. *)
Record shape := Shape {
  a_pc    : worker_pc;
  a_inq   : list elem;
  a_outq  : list elem;
  a_feed  : list elem;
  a_seen  : list elem;
  a_open  : bool;
  a_eos   : bool;
  a_trace : list (THREAD_HANDLE * event)
}.

Section IdentityStage.
Variables (esz : N) (aux : ptr) (xs : list elem).

Definition the_data : connect_data_t :=
  ConnectData (Some (Consumer 0 1)) identity aux (Some (Producer 1 2)).

Definition heap_of (pc : worker_pc) : list (option block) :=
  match pc with
  | PcEntry _ => [Some (BConnect (Some the_data))]
  | PcAlloc _ => [None]
  | PcPop _ _ | PcProc _ _ _ | PcEos _ _ | PcFreeBuf _ _ =>
      [None; Some (BScratch (size_mul DEFAULT_BUFFER_SIZE esz))]
  | PcFreeIn _ | PcFreeOut _ | PcExit => [None; None]
  end.

Definition in_consumers (pc : worker_pc) : nat :=
  match pc with PcFreeOut _ | PcExit => 0 | _ => 1 end.

Definition out_producers (pc : worker_pc) : nat :=
  match pc with PcExit => 0 | _ => 1 end.

Definition shaped (a : shape) : stage_sys :=
  Sys (World [Pipe esz 0 (a_inq a) (if a_open a then 1 else 0) (in_consumers (a_pc a)) false;
              Pipe esz 0 (a_outq a) (out_producers (a_pc a)) 1 false]
             4 (heap_of (a_pc a)) [Thread 1%N (a_pc a)] [] (a_trace a))
      (a_feed a)
      (if a_open a then Some (Producer 0 0) else None)
      (Some (Consumer 1 3))
      (a_seen a) (a_eos a).

Definition pc_ok (pc : worker_pc) : Prop :=
  match pc with
  | PcEntry a => a = 1%N
  | PcAlloc p | PcFreeIn p | PcFreeOut p => p = the_data
  | PcPop p b | PcEos p b | PcFreeBuf p b => p = the_data ∧ b = 2%N
  | PcProc p b batch => p = the_data ∧ b = 2%N ∧ batch ≠ []
  | PcExit => True
  end.

(** The batch the worker holds. *)
Definition inflight (pc : worker_pc) : list elem :=
  match pc with PcProc _ _ b => b | _ => [] end.

(** The worker has left its loop. *)
Definition draining (pc : worker_pc) : bool :=
  match pc with
  | PcEos _ _ | PcFreeBuf _ _ | PcFreeIn _ | PcFreeOut _ | PcExit => true
  | _ => false
  end.

Definition shape_ok (a : shape) : Prop :=
  pc_ok (a_pc a) ∧
  a_seen a ++ a_outq a ++ inflight (a_pc a) ++ a_inq a ++ a_feed a = xs ∧
  (a_open a = false → a_feed a = []) ∧
  (draining (a_pc a) = true → a_inq a = [] ∧ a_open a = false) ∧
  (a_eos a = true → a_outq a = [] ∧ a_pc a = PcExit).

(** How far the process is from its end. *)
Definition pc_weight (pc : worker_pc) : nat :=
  match pc with
  | PcEntry _ => 9 | PcAlloc _ => 8 | PcPop _ _ => 7 | PcProc _ _ _ => 6
  | PcEos _ _ => 5 | PcFreeBuf _ _ => 4 | PcFreeIn _ => 3 | PcFreeOut _ => 2
  | PcExit => 0
  end.

Definition weight (a : shape) : nat :=
  5 * length (a_feed a) + 4 * length (a_inq a) + 3 * length (inflight (a_pc a))
  + length (a_outq a) + pc_weight (a_pc a)
  + (if a_open a then 1 else 0) + (if a_eos a then 0 else 1).

(** What a step from the shape [a] must look like: it leads to a shape
    again, closer to the end; it may be disabled; it never crashes. *)
Definition step_ok (a : shape) (r : result) : Prop :=
  match r with
  | Next s' => ∃ a', s' = shaped a' ∧ shape_ok a' ∧ weight a' < weight a
  | Stuck => True
  | Crash => False
  end.
End IdentityStage.

(** ** Concrete runs *)

(** A process about to connect a stage: two queues, the first one holding
    three elements and closed on its input side. *)
Definition demo_setup : M unit :=
  q ← pipe_new 4 0;
  o ← pipe_new 4 0;
  src ← pipe_producer_new q;
  _ ← pipe_consumer_new q;
  _ ← pipe_producer_new o;
  pipe_push (Some src) [10; 20; 30]%Z;;
  pipe_producer_free (Some src);;
  pipe_free q;;
  pipe_free o.

Definition world_of {A} (o : outcome A) : world :=
  match o with
  | Done _ w => w
  | _ => empty_world
  end.

Definition demo_world : world := world_of (demo_setup main_thread empty_world).
Definition demo_in : option pipe_consumer_t := Some (Consumer 0 1).
Definition demo_out : option pipe_producer_t := Some (Producer 1 2).
Definition demo_connected : world :=
  world_of (pipe_connect demo_in identity 0%N demo_out None main_thread demo_world).


(** Two stages and the sentinel, and what [pipe_pipeline] makes of them in
    a fresh process with an empty registry. *)
Definition demo_stages : list stage := [(identity, 0%N, 4%N); (identity, 0%N, 8%N)].
Definition demo_pipeline : world :=
  world_of (pipe_pipeline (Some 0%Z) (Some NULL) 4 (va_stages demo_stages ++ [VaPtr 0])
                          main_thread empty_world).

(** A process whose next [realloc] fails. *)
Definition demo_oom : world := set_oom (λ _, [true]) empty_world.

(** A process that has just created one queue. *)
Definition demo_queue : world := world_of (pipe_new 4 0 main_thread empty_world).

(** A program with two processing functions, one that adds 1 to every
    element and one that doubles every element, and the two stages that run
    them. *)
Definition demo_code : code_table :=
  λ f, if (f =? 1)%N then Some (map_body (Z.add 1))
       else if (f =? 2)%N then Some (map_body (Z.mul 2))
       else None.

Definition demo_maps : list (stage * (elem → elem)) :=
  [((1%N, 0%N, 4%N), Z.add 1); ((2%N, 0%N, 4%N), Z.mul 2)].

(** The caller feeds [1..1000] in one push; the worker and the caller then
    take turns. *)
Fixpoint round_robin (n : nat) : list move :=
  match n with
  | O => []
  | S n' => Work 128 :: Work 128 :: Drain 0%N 128 128 :: round_robin n'
  end.

Definition demo_schedule : list move :=
  Feed 1000 :: Release :: Work 0 :: Work 0 :: round_robin 8
    ++ [Work 0; Work 0; Work 0; Work 0; Work 0; Drain 0%N 128 128].

Definition sys_of (r : option stage_sys) : stage_sys :=
  match r with
  | Some s => s
  | None => Sys empty_world [] None None [] false
  end.

Definition demo_start : stage_sys := sys_of (stage_init 4 0%N (upto 1000)).
Definition demo_end : stage_sys :=
  match sys_run demo_schedule demo_start with
  | Next s => s
  | _ => demo_start
  end.

Local Close Scope nat_scope.

(** * Properties *)

(** ** Reasoning about computations *)



Ltac munfold :=
  unfold mbind, M_bind, mret, M_ret, get, modify, emit, undefined, blocked, assert in *.

Ltac wsimpl :=
  unfold set_pipes, set_issued, set_heap, set_threads, set_oom, set_trace in *;
  cbn -[N.of_nat N.to_nat] in *.


Ltac logs_prim :=
  intros tid w x w'; munfold; intros Hrun;
  repeat (case_match; simplify_eq/=; try done);
  simplify_eq/=; rewrite ?app_nil_r; done.

Lemma logs_load_block a : logs (load_block a) (λ _, []).
Proof. unfold load_block. logs_prim. Qed.

Lemma logs_kill_block a : logs (kill_block a) (λ _, []).
Proof. unfold kill_block, load_block. logs_prim. Qed.

Lemma logs_store_block a b : logs (store_block a b) (λ _, []).
Proof. unfold store_block, load_block. logs_prim. Qed.








Lemma pred_to_nat_of_nat_S n : Nat.pred (N.to_nat (N.of_nat (S n))) = n.
Proof. rewrite Nat2N.id. done. Qed.

Lemma is_null_of_nat_S n : is_null (N.of_nat (S n)) = false.
Proof. unfold is_null. apply N.eqb_neq. lia. Qed.

Lemma block_at_fresh h b : block_at (N.of_nat (S (length h))) (h ++ [Some b]) = Some b.
Proof.
  unfold block_at. rewrite is_null_of_nat_S, pred_to_nat_of_nat_S.
  rewrite lookup_app_r, Nat.sub_diag by done. done.
Qed.

Lemma insert_snoc {A} (l : list A) (x y : A) : <[length l := y]> (l ++ [x]) = l ++ [y].
Proof. rewrite insert_app_r_alt, Nat.sub_diag by done. done. Qed.

(** [pipe_connect] returns exactly when its three assertions hold, and then
    it has done this: *)
Lemma pipe_connect_Done in_ proc aux out handle tid w :
  is_Some in_ → is_Some out → proc ≠ 0 →
  pipe_connect in_ proc aux out handle tid w =
    Done (handle ≫= λ _, Some (N.of_nat (S (length (threads w)))))
         (connect_world in_ proc aux out tid w).
Proof.
  intros Hin Hout Hproc. destruct w as [ps n h ts o tr].
  unfold pipe_connect, malloc, fresh_block, store_block,
    load_block, thread_create, connect_world, heap_at. munfold.
  rewrite !bool_decide_eq_true_2 by done.
  replace (is_null proc) with false by (symmetry; by apply N.eqb_neq).
  cbn -[N.of_nat N.to_nat].
  rewrite block_at_fresh. wsimpl.
  rewrite pred_to_nat_of_nat_S, insert_snoc, <- (assoc_L (++)).
  destruct handle; done.
Qed.

Lemma pipe_connect_AssertFail in_ proc aux out handle tid w :
  in_ = None ∨ out = None ∨ proc = 0 →
  pipe_connect in_ proc aux out handle tid w = AssertFail w.
Proof.
  intros H. unfold pipe_connect. munfold.
  destruct in_ as [c|]; [|done].
  rewrite (bool_decide_eq_true_2 (is_Some (Some c))) by eauto.
  destruct out as [o|]; [|done].
  rewrite (bool_decide_eq_true_2 (is_Some (Some o))) by eauto.
  destruct H as [?|[?| ->]]; done.
Qed.

(** ** The worker's own calls *)




















(** C8.  [pipe_connect] trips an assertion, leaving the world as it was,
    exactly when the consumer endpoint, the producer endpoint or the
    processing function is null.  Otherwise it returns, there is no other
    outcome, and it has created exactly one thread, standing at the entry
    of [process_pipe] on a block that holds the four arguments
    ([connect_world]); the caller's variable receives the handle if and
    only if the [handle] pointer is non-null. *)
Theorem pipe_connect_contract in_ proc aux out handle tid w :
  pipe_connect in_ proc aux out handle tid w =
    if bool_decide (is_Some in_) && bool_decide (is_Some out) && negb (is_null proc)
    then Done (match handle with
               | Some _ => Some (N.of_nat (S (length (threads w))))
               | None => None
               end)
              (World (pipes w) (issued w)
                 (heap w ++ [Some (BConnect (Some (ConnectData in_ proc aux out)))])
                 (threads w ++ [Thread (N.of_nat (S (length (threads w))))
                                       (PcEntry (N.of_nat (S (length (heap w)))))])
                 (oom w)
                 (trace w ++ [(tid, EvMalloc sizeof_connect_data (N.of_nat (S (length (heap w)))));
                              (tid, EvThreadCreate (N.of_nat (S (length (heap w))))
                                                   (N.of_nat (S (length (threads w)))))]))
    else AssertFail w.
Proof.
  destruct in_ as [c|]; [|by rewrite pipe_connect_AssertFail by auto].
  destruct out as [o|]; [|by rewrite pipe_connect_AssertFail by auto].
  destruct (decide (proc = 0)) as [->|Hproc];
    [by rewrite pipe_connect_AssertFail by auto|].
  rewrite pipe_connect_Done by eauto.
  rewrite !bool_decide_eq_true_2 by eauto.
  replace (is_null proc) with false by (symmetry; by apply N.eqb_neq).
  by destruct handle.
Qed.

(** ** The registry of thread handles *)

Lemma bind_run {A B} (m : M A) (k : A → M B) tid w a w1 :
  m tid w = Done a w1 → (m ≫= k) tid w = k a tid w1.
Proof. intros H. unfold mbind, M_bind. by rewrite H. Qed.

(** The byte offset of cell [i] of an array of handles. *)
Lemma handle_offset (i : nat) :
  (Z.of_nat i ≤ INT_MAX)%Z →
  size_mul (size_of_int (Z.of_nat i)) sizeof_handle = N.of_nat i * 8.
Proof.
  intros Hi. unfold size_mul, size_of_int, sizeof_handle, SIZE_MOD, INT_MAX in *.
  change (2 ^ 64) with 18446744073709551616.
  rewrite Z.mod_small by lia. rewrite <- nat_N_Z, N2Z.id.
  rewrite N.mod_small; [done|]. lia.
Qed.




Lemma free_eq t b tid w :
  heap_at t w = Some b →
  free t tid w =
    Done () (World (pipes w) (issued w) (<[Nat.pred (N.to_nat t) := None]> (heap w))
                   (threads w) (oom w) (trace w ++ [(tid, EvFree t)])).
Proof.
  intros Hblk. unfold free, kill_block, load_block. munfold.
  assert (is_null t = false) as ->.
  { unfold heap_at, block_at in Hblk. by destruct (is_null t). }
  by rewrite Hblk.
Qed.


(** ** Equations for the collaborators *)

Lemma lookup_middle0 {A} (l k : list A) x : (l ++ x :: k) !! length l = Some x.
Proof. by apply list_lookup_middle. Qed.

Lemma lookup_middle1 {A} (l k : list A) x y : (l ++ x :: y :: k) !! S (length l) = Some y.
Proof. induction l; [done|]. simpl. done. Qed.

Lemma alter_middle0 {A} (f : A → A) (l k : list A) x :
  alter f (length l) (l ++ x :: k) = l ++ f x :: k.
Proof. induction l as [|a l IH]; [done|]. simpl. by f_equal. Qed.

Lemma alter_middle1 {A} (f : A → A) (l k : list A) x y :
  alter f (S (length l)) (l ++ x :: y :: k) = l ++ x :: f y :: k.
Proof. induction l as [|a l IH]; [done|]. simpl. by f_equal. Qed.

Lemma insert_middle0 {A} (l k : list A) x y :
  <[length l := y]> (l ++ x :: k) = l ++ y :: k.
Proof. induction l as [|a l IH]; [done|]. simpl. by f_equal. Qed.

Lemma block_at_middle h k b :
  block_at (N.of_nat (S (length h))) (h ++ Some b :: k) = Some b.
Proof.
  unfold block_at. rewrite is_null_of_nat_S, pred_to_nat_of_nat_S.
  by rewrite lookup_middle0.
Qed.

Lemma pipe_new_eq esz lim tid w :
  pipe_new esz lim tid w =
    Done (length (pipes w))
         (World (pipes w ++ [Pipe esz lim [] 0 0 true]) (issued w) (heap w)
                (threads w) (oom w)
                (trace w ++ [(tid, EvPipeNew (length (pipes w)) esz lim)])).
Proof. done. Qed.

Lemma pipe_producer_new_eq q p tid w :
  pipes w !! q = Some p → handle_live p = true →
  pipe_producer_new q tid w =
    Done (Producer q (issued w))
         (World (alter add_producer q (pipes w)) (S (issued w)) (heap w)
                (threads w) (oom w)
                (trace w ++ [(tid, EvProducerNew q (Producer q (issued w)))])).
Proof.
  intros Hq Hlive. unfold pipe_producer_new, lookup_pipe, update_pipe. munfold.
  by rewrite Hq, Hlive.
Qed.

Lemma pipe_consumer_new_eq q p tid w :
  pipes w !! q = Some p → handle_live p = true →
  pipe_consumer_new q tid w =
    Done (Consumer q (issued w))
         (World (alter add_consumer q (pipes w)) (S (issued w)) (heap w)
                (threads w) (oom w)
                (trace w ++ [(tid, EvConsumerNew q (Consumer q (issued w)))])).
Proof.
  intros Hq Hlive. unfold pipe_consumer_new, lookup_pipe, update_pipe. munfold.
  by rewrite Hq, Hlive.
Qed.

Lemma pipe_free_eq q p tid w :
  pipes w !! q = Some p → handle_live p = true →
  pipe_free q tid w =
    Done () (World (alter drop_handle q (pipes w)) (issued w) (heap w)
                   (threads w) (oom w) (trace w ++ [(tid, EvPipeFree q)])).
Proof.
  intros Hq Hlive. unfold pipe_free, lookup_pipe, update_pipe. munfold.
  by rewrite Hq, Hlive.
Qed.

Lemma pipe_consumer_free_eq c q tid w :
  pipes w !! c_pipe c = Some q → consumer_refs q ≠ 0%nat →
  pipe_consumer_free (Some c) tid w =
    Done () (World (alter drop_consumer (c_pipe c) (pipes w)) (issued w) (heap w)
                   (threads w) (oom w) (trace w ++ [(tid, EvConsumerFree c)])).
Proof.
  intros Hq Hrefs. unfold pipe_consumer_free, lookup_pipe, update_pipe. munfold.
  by rewrite Hq, bool_decide_eq_false_2.
Qed.

Lemma malloc_eq bytes b tid w :
  malloc bytes b tid w =
    Done (N.of_nat (S (length (heap w))))
         (World (pipes w) (issued w) (heap w ++ [Some b]) (threads w) (oom w)
                (trace w ++ [(tid, EvMalloc bytes (N.of_nat (S (length (heap w)))))])).
Proof. done. Qed.

Lemma store_handle_eq t (i : nat) cells h tid w :
  (Z.of_nat i ≤ INT_MAX)%Z →
  heap_at t w = Some (BHandles cells) →
  (i < length cells)%nat →
  store_handle t (size_mul (size_of_int (Z.of_nat i)) sizeof_handle) h tid w =
    Done () (World (pipes w) (issued w)
                   (<[Nat.pred (N.to_nat t) := Some (BHandles (<[i := Some h]> cells))]> (heap w))
                   (threads w) (oom w) (trace w)).
Proof.
  intros Hi Hblk Hlen. rewrite handle_offset by done.
  unfold store_handle, store_block, load_block. munfold. rewrite Hblk.
  unfold sizeof_handle. rewrite N.Div0.mod_mul, N.div_mul by done.
  rewrite Nat2N.id, bool_decide_eq_true_2 by done. simpl. by rewrite Hblk.
Qed.

Lemma int_incr_eq (j : nat) tid w :
  (Z.of_nat j < INT_MAX)%Z → int_incr (Z.of_nat j) tid w = Done (Z.of_nat (S j)) w.
Proof.
  intros Hj. unfold int_incr. rewrite bool_decide_eq_true_2 by done.
  unfold mret, M_ret. f_equal. lia.
Qed.

Section ParallelLoop.
Variables (w : world) (in_size out_size : N) (proc : pipe_processor_t)
          (aux : ptr) (tid : THREAD_HANDLE) (total : nat).

Lemma par_cells_insert j :
  (j < total)%nat →
  <[j := Some (par_handle w j)]> (par_cells w total j) = par_cells w total (S j).
Proof.
  intros Hj. unfold par_cells.
  replace (total - j)%nat with (S (total - S j)) by lia.
  rewrite seq_S, fmap_app. simpl.
  rewrite <- (assoc_L (++)). simpl.
  assert (length (Some ∘ (par_handle w) <$> seq 0 j) = j) as Hlen
    by by rewrite length_fmap, length_seq.
  rewrite <- Hlen at 1. apply insert_middle0.
Qed.

Lemma par_cells_length j : (j ≤ total)%nat → length (par_cells w total j) = total.
Proof.
  intros Hj. unfold par_cells.
  rewrite length_app, length_fmap, length_seq, length_replicate. lia.
Qed.

Lemma par_trace_S j :
  pair tid <$> (par_start w in_size out_size total) ++ concat ((par_events w) <$> seq 0 (S j)) =
  (pair tid <$> (par_start w in_size out_size total) ++ concat ((par_events w) <$> seq 0 j)) ++ (pair tid <$> (par_events w) j).
Proof.
  rewrite seq_S, (fmap_app (par_events w)), concat_app, (assoc_L (++)), fmap_app.
  f_equal.
Qed.

Lemma pipe_parallel_loop_step n j :
  (j < total)%nat → (Z.of_nat total ≤ INT_MAX)%Z → proc ≠ 0 →
  pipe_parallel_loop (S n) (par_in w) (par_out w) proc aux (par_array w) (Z.of_nat j) tid (par_world w in_size out_size proc aux tid total j) =
  pipe_parallel_loop n (par_in w) (par_out w) proc aux (par_array w) (Z.of_nat (S j)) tid (par_world w in_size out_size proc aux tid total (S j)).
Proof.
  intros Hj Htotal Hproc. cbn [pipe_parallel_loop]. unfold par_world at 1.
  unfold par_in, par_out.
  erewrite bind_run by (eapply pipe_consumer_new_eq; [apply lookup_middle0|done]).
  cbn [pipes issued heap threads oom trace]. rewrite alter_middle0.
  erewrite bind_run by (eapply pipe_producer_new_eq; [apply lookup_middle1|done]).
  cbn [pipes issued heap threads oom trace]. rewrite alter_middle1.
  erewrite bind_run by (apply pipe_connect_Done; eauto).
  unfold connect_world. cbn [pipes issued heap threads oom trace default mbind option_bind].
  erewrite bind_run.
  2:{ eapply store_handle_eq; [lia| |].
      - unfold heap_at. cbn [heap]. rewrite <- (assoc_L (++)). apply block_at_middle.
      - rewrite par_cells_length by lia. done. }
  cbn [pipes issued heap threads oom trace].
  erewrite bind_run by (apply int_incr_eq; lia).
  assert (length (threads w ++ ((par_thread w) <$> seq 0 j)) = (length (threads w) + j)%nat)
    as -> by (by rewrite length_app, length_fmap, length_seq).
  assert (length (heap w ++ Some (BHandles (par_cells w total j))
                         :: (Some ∘ BConnect ∘ Some ∘ (par_data w proc aux) <$> seq 0 j))
          = (S (length (heap w)) + j)%nat)
    as -> by (rewrite length_app; simpl; rewrite length_fmap, length_seq; lia).
  unfold id. fold (par_handle w j) (par_block w j).
  f_equal. unfold par_world. f_equal.
  - lia.
  - unfold par_array. rewrite pred_to_nat_of_nat_S, <- (assoc_L (++)). cbn [app].
    rewrite insert_middle0, par_cells_insert by done. do 2 f_equal.
    rewrite seq_S, fmap_app. f_equal. simpl. unfold par_data, par_consumer, par_producer.
    unfold par_in, par_out. repeat first [lia | progress f_equal].
  - rewrite seq_S, fmap_app, <- (assoc_L (++)). done.
  - rewrite par_trace_S, (assoc_L (++) (trace w)).
    set (X := trace w ++ _). rewrite <- !(assoc_L (++)). f_equal.
    unfold par_events, par_consumer, par_producer, par_in, par_out.
    replace (S (issued w + 2 * j)) with (issued w + 2 * j + 1)%nat by lia.
    done.
Qed.

Lemma pipe_parallel_loop_eq n j :
  (j + n ≤ total)%nat → (Z.of_nat total ≤ INT_MAX)%Z → n = 0%nat ∨ proc ≠ 0 →
  pipe_parallel_loop n (par_in w) (par_out w) proc aux (par_array w) (Z.of_nat j) tid (par_world w in_size out_size proc aux tid total j) =
  Done (Z.of_nat (j + n)) (par_world w in_size out_size proc aux tid total (j + n)).
Proof.
  revert j. induction n as [|n IH]; intros j Hj Htotal Hproc.
  - rewrite Nat.add_0_r. done.
  - destruct Hproc as [|Hproc]; [done|].
    rewrite pipe_parallel_loop_step by (done || lia).
    rewrite IH by (auto || lia). by rewrite Nat.add_succ_r.
Qed.
End ParallelLoop.

Lemma size_mul_handles (n : N) :
  (Z.of_N n ≤ INT_MAX)%Z →
  size_mul n sizeof_handle = n * 8 ∧
  N.to_nat (size_mul n sizeof_handle / sizeof_handle) = N.to_nat n.
Proof.
  intros Hn. unfold size_mul, sizeof_handle, SIZE_MOD, INT_MAX in *.
  change (2 ^ 64) with 18446744073709551616.
  rewrite N.mod_small by lia. by rewrite N.div_mul.
Qed.

Lemma pipe_parallel_eq instances handles in_size proc aux out_size tid w :
  (Z.of_N instances ≤ INT_MAX)%Z → instances = 0 ∨ proc ≠ 0 →
  pipe_parallel instances handles in_size proc aux out_size tid w =
    Done (par_result w (N.to_nat instances), handles ≫= λ _, Some (par_array w))
         (par_final w in_size out_size proc aux tid (N.to_nat instances)
                    (bool_decide (is_Some handles))).
Proof.
  intros Hmax Hproc. unfold pipe_parallel.
  pose proof (size_mul_handles instances Hmax) as [Hbytes Hcells].
  set (total := N.to_nat instances) in *.
  rewrite (bind_run _ _ _ _ _ _ (pipe_new_eq _ _ _ _)).
  rewrite (bind_run _ _ _ _ _ _ (pipe_new_eq _ _ _ _)).
  rewrite (bind_run _ _ _ _ _ _ (malloc_eq _ _ _ _)).
  cbn [pipes issued heap threads oom trace].
  match goal with
  | |- (_ ≫= _) _ ?W = _ =>
      assert (W = par_world w in_size out_size proc aux tid total 0) as ->
  end.
  { unfold par_world, par_cells, fresh_handles. rewrite Hcells. f_equal.
    - by rewrite <- (assoc_L (++)).
    - lia.
    - simpl. by rewrite Nat.sub_0_r.
    - by rewrite app_nil_r.
    - rewrite length_app, <- !(assoc_L (++)). f_equal. simpl.
      unfold par_start, par_in, par_out, par_array, total.
      rewrite N2Nat.id, Nat.add_1_r. done. }
  rewrite length_app, Nat.add_1_r. fold (par_in w) (par_out w) (par_array w).
  rewrite (bind_run _ _ _ _ _ _
             (pipe_parallel_loop_eq w in_size out_size proc aux tid total total 0
                ltac:(lia) ltac:(unfold total; lia)
                ltac:(destruct Hproc as [->|?]; [by left|by right]))).
  unfold par_world, par_in, par_out. simpl (0 + total)%nat.
  erewrite bind_run by (eapply pipe_producer_new_eq; [apply lookup_middle0|done]).
  cbn [pipes issued heap threads oom trace]. rewrite alter_middle0.
  erewrite bind_run by (eapply pipe_consumer_new_eq; [apply lookup_middle1|done]).
  cbn [pipes issued heap threads oom trace]. rewrite alter_middle1.
  erewrite bind_run by (eapply pipe_free_eq; [apply lookup_middle0|done]).
  cbn [pipes issued heap threads oom trace]. rewrite alter_middle0.
  erewrite bind_run by (eapply pipe_free_eq; [apply lookup_middle1|done]).
  cbn [pipes issued heap threads oom trace]. rewrite alter_middle1.
  assert (par_cells w total total = (Some ∘ par_handle w <$> seq 0 total)) as Hfull.
  { unfold par_cells. rewrite Nat.sub_diag. apply app_nil_r. }
  rewrite Hfull.
  destruct handles as [h0|].
  - unfold mret, M_ret. cbn [mbind option_bind].
    rewrite bool_decide_eq_true_2 by eauto. f_equal.
    + unfold par_result, par_in, par_out. repeat first [lia | progress f_equal].
    + unfold par_final. f_equal; [lia|].
      rewrite <- !(assoc_L (++)), !fmap_app, <- !(assoc_L (++)). do 3 f_equal.
      rewrite app_nil_r. unfold par_finish, par_in, par_out. simpl.
      repeat first [lia | progress f_equal].
  - erewrite bind_run.
    2:{ eapply free_eq. unfold heap_at. cbn [heap]. apply block_at_middle. }
    cbn [pipes issued heap threads oom trace]. unfold mret, M_ret.
    rewrite bool_decide_eq_false_2 by (by intros [??]). f_equal.
    + unfold par_result, par_in, par_out. repeat first [lia | progress f_equal].
    + unfold par_final. f_equal; [lia| |].
      * unfold par_array. by rewrite pred_to_nat_of_nat_S, insert_middle0.
      * rewrite <- !(assoc_L (++)), !fmap_app, <- !(assoc_L (++)). do 3 f_equal.
        unfold par_finish, par_in, par_out. simpl.
        repeat first [lia | progress f_equal].
Qed.


Lemma par_final_array w in_size out_size proc aux tid total keep :
  heap_at (par_array w) (par_final w in_size out_size proc aux tid total keep)
    = if keep then Some (BHandles (Some ∘ par_handle w <$> seq 0 total)) else None.
Proof.
  unfold heap_at, block_at, par_array, par_final. cbn [heap].
  rewrite is_null_of_nat_S, pred_to_nat_of_nat_S, lookup_middle0. by destruct keep.
Qed.


(** C10.  With [count] 0, [pipe_handles_free] returns at once whatever
    [handles] points to: the array is not freed, the caller's variable is
    not reset, no call is made.  A fan-out build of zero instances hands
    the caller such a registry: a non-null, empty array [a], which
    [pipe_handles_free 0] then leaves allocated. *)
Theorem pipe_handles_free_zero_count_keeps_array t tid w :
  pipe_handles_free 0 (Some t) tid w = Done (Some t) w ∧
  ∀ h0 in_size proc aux out_size,
  ∃ pl a w',
    pipe_parallel 0 (Some h0) in_size proc aux out_size tid w = Done (pl, Some a) w' ∧
    a ≠ NULL ∧
    heap_at a w' = Some (BHandles []) ∧
    pipe_handles_free 0 (Some a) tid w' = Done (Some a) w'.
Proof.
  split; [done|]. intros h0 in_size proc aux out_size.
  eexists _, _, _. split_and!.
  - rewrite pipe_parallel_eq by (unfold INT_MAX; (lia || auto)). done.
  - unfold par_array, NULL. lia.
  - by rewrite par_final_array.
  - done.
Qed.

Lemma realloc_size c :
  (0 ≤ c < REGISTRY_MAX)%Z →
  size_of_int (int_of_size (size_mul (size_of_int (c + 1)) sizeof_ptr)) = realloc_bytes c ∧
  N.to_nat (realloc_bytes c / sizeof_handle) = S (Z.to_nat c) ∧
  is_null (realloc_bytes c) = false ∧
  (PTRDIFF_MAX <? realloc_bytes c) = false ∧
  size_mul (size_of_int c) sizeof_handle = N.of_nat (Z.to_nat c) * 8.
Proof.
  intros Hc. unfold size_of_int, int_of_size, size_mul, sizeof_ptr, sizeof_handle,
    realloc_bytes, SIZE_MOD, INT_MAX, PTRDIFF_MAX, REGISTRY_MAX, is_null in *.
  change (2 ^ 64) with 18446744073709551616.
  change (2 ^ 63 - 1) with 9223372036854775807.
  rewrite (Z.mod_small (c + 1)) by lia.
  rewrite N.mod_small by lia.
  rewrite N2Z.inj_mul, Z2N.id by lia. change (Z.of_N 8) with 8%Z.
  rewrite (Z.mod_small ((c + 1) * 8)) by lia.
  destruct (Z.leb_spec ((c + 1) * 8) 2147483647); [|lia].
  rewrite Z.mod_small by lia.
  split_and!.
  - done.
  - replace (Z.to_N ((c + 1) * 8)) with (N.of_nat (S (Z.to_nat c)) * 8) by lia.
    rewrite N.div_mul by done. by rewrite Nat2N.id.
  - apply N.eqb_neq. lia.
  - apply N.ltb_ge. lia.
  - rewrite Z.mod_small by lia. rewrite N.mod_small by lia. lia.
Qed.

Lemma realloc_eq hs c tid w :
  (0 ≤ c < REGISTRY_MAX)%Z →
  hs = NULL ∨ (∃ cells, heap_at hs w = Some (BHandles cells)) →
  realloc hs (realloc_bytes c) tid w =
    if default false (head (oom w))
    then Done NULL (realloc_failed hs c tid w)
    else Done (N.of_nat (S (length (heap w)))) (realloc_done hs c tid w).
Proof.
  intros Hc Hhs.
  destruct (realloc_size c Hc) as (Hbytes & Hcells & Hnz & Hbig & Hoff).
  unfold realloc. rewrite Hnz.
  assert ((if is_null hs then mret []
           else b ← load_block hs;
                match b with BHandles cells => mret cells | _ => undefined end) tid w
          = Done (registry_cells hs w) w) as Hload.
  { unfold registry_cells. destruct Hhs as [->|[cells Hblk]]; [done|].
    assert (is_null hs = false) as ->.
    { unfold heap_at, block_at in Hblk. by destruct (is_null hs). }
    unfold load_block. munfold. by rewrite Hblk. }
  rewrite (bind_run _ _ _ _ _ _ Hload).
  rewrite (bind_run _ _ _ _ (default false (head (oom w))) (set_oom (drop 1) w)) by done.
  rewrite Hbig, orb_false_r.
  destruct (default false (head (oom w))) eqn:Hoom; [done|].
  rewrite Hcells.
  assert ((if is_null hs then mret () else kill_block hs) tid (set_oom (drop 1) w)
          = Done () (set_heap (λ h, if is_null hs then h
                                    else <[Nat.pred (N.to_nat hs) := None]> h)
                              (set_oom (drop 1) w))) as Hkill.
  { destruct Hhs as [->|[cells Hblk]]; [by destruct w|].
    assert (is_null hs = false) as ->.
    { unfold heap_at, block_at in Hblk. by destruct (is_null hs). }
    unfold kill_block, load_block. munfold.
    change (heap_at hs (set_oom (drop 1) w)) with (heap_at hs w). by rewrite Hblk. }
  rewrite (bind_run _ _ _ _ _ _ Hkill).
  unfold fresh_block, realloc_done. munfold. wsimpl.
  assert (length (if is_null hs then heap w
                  else <[Nat.pred (N.to_nat hs) := None]> (heap w)) = length (heap w))
    as -> by (destruct (is_null hs); [done|apply length_insert]).
  done.
Qed.

Lemma record_handle_eq count handles t tid w :
  registry_ok count handles w →
  record_handle count handles t tid w =
    Done (recorded count handles t tid w).1 (recorded count handles t tid w).2.
Proof.
  intros Hok. unfold record_handle, recorded.
  destruct count as [c|]; [|done]. destruct handles as [hs|]; [|done].
  destruct Hok as [Hc Hhs].
  destruct (realloc_size c Hc) as (Hbytes & Hcells & Hnz & Hbig & Hoff).
  rewrite bool_decide_eq_true_2 by (unfold INT_MAX, REGISTRY_MAX in *; lia).
  cbv zeta. rewrite Hbytes.
  unfold mbind at 1. unfold M_bind. rewrite realloc_eq by done.
  destruct (default false (head (oom w))) eqn:Hoom; [done|].
  rewrite is_null_of_nat_S. cbn [negb].
  unfold store_handle, store_block, load_block, heap_at, realloc_done. munfold. wsimpl.
  assert (length (if is_null hs then heap w
                  else <[Nat.pred (N.to_nat hs) := None]> (heap w)) = length (heap w))
    as Hlen by (destruct (is_null hs); [done|apply length_insert]).
  rewrite <- Hlen at 1. rewrite block_at_fresh, Hoff.
  unfold sizeof_handle. rewrite N.Div0.mod_mul, N.div_mul, Nat2N.id by done.
  rewrite bool_decide_eq_true_2 by (rewrite length_resize; lia).
  wsimpl. rewrite <- Hlen at 1. rewrite block_at_fresh. wsimpl.
  do 2 f_equal. rewrite pred_to_nat_of_nat_S, <- Hlen. apply insert_snoc.
Qed.

Lemma block_at_app a h l b : block_at a h = Some b → block_at a (h ++ l) = Some b.
Proof.
  unfold block_at. destruct (is_null a); [done|].
  destruct (h !! Nat.pred (N.to_nat a)) as [x|] eqn:Hx; [|done].
  by rewrite (lookup_app_l_Some _ _ _ _ Hx).
Qed.

Lemma registry_room_ok n count handles r d tid w :
  registry_room (S n) count handles w →
  registry_ok count handles (stage_connected r d tid w).
Proof.
  unfold registry_room, registry_ok. destruct count as [c|], handles as [hs|]; try done.
  intros (Hc & Hn & Hhs). split; [lia|].
  destruct Hhs as [->|[cells Hblk]]; [by left|right].
  exists cells. unfold heap_at. simpl. by apply block_at_app.
Qed.

Lemma recorded_frame count handles t tid w :
  pipes (recorded count handles t tid w).2 = pipes w ∧
  issued (recorded count handles t tid w).2 = issued w ∧
  threads (recorded count handles t tid w).2 = threads w.
Proof.
  unfold recorded. destruct count, handles; try done.
  by destruct (default false (head (oom w))).
Qed.

Lemma va_pipe_pipeline_stage count handles r d rest tid w :
  real_stage d → is_Some (pl_out r) →
  registry_room 1 count handles w →
  va_pipe_pipeline count handles r (va_stage d ++ rest) tid w =
    let b := build_stage tid (Build count handles r w) d in
    va_pipe_pipeline (b_count b) (b_handles b) (b_result b) rest tid (b_world b).
Proof.
  intros [Hproc Hsize] Hout Hroom. destruct d as [[proc aux] sz].
  unfold st_proc, st_aux, st_size in *. simpl in Hproc, Hsize.
  cbn [va_stage app va_pipe_pipeline st_proc st_aux st_size fst snd].
  assert (is_null proc = false) as -> by by apply N.eqb_neq.
  assert (is_null sz = false) as -> by by apply N.eqb_neq.
  rewrite (bind_run _ _ _ _ _ _ (pipe_new_eq _ _ _ _)).
  erewrite bind_run by (eapply pipe_producer_new_eq; [apply lookup_middle0|done]).
  cbn [pipes issued heap threads oom trace]. rewrite alter_middle0.
  erewrite bind_run by (apply pipe_connect_Done; eauto).
  unfold connect_world. cbn [pipes issued heap threads oom trace default mbind option_bind].
  unfold id.
  match goal with
  | |- (_ ≫= _) _ ?W = _ =>
      assert (W = stage_connected r (proc, aux, sz) tid w) as ->
  end.
  { unfold stage_connected, st_proc, st_aux, st_size, add_producer. simpl.
    by rewrite <- !(assoc_L (++)). }
  erewrite bind_run
    by (apply record_handle_eq; by apply (registry_room_ok 0)).
  set (rec := recorded count handles _ tid _).
  destruct (recorded_frame count handles (N.of_nat (S (length (threads w)))) tid
              (stage_connected r (proc, aux, sz) tid w)) as (Hp & Hi & Ht).
  fold rec in Hp, Hi, Ht.
  destruct rec as [[count' handles'] w2] eqn:Hrec. simpl in Hp, Hi, Ht.
  cbn [fst snd].
  erewrite bind_run
    by (eapply pipe_consumer_new_eq; [rewrite Hp; apply lookup_middle0|done]).
  erewrite bind_run.
  2:{ eapply pipe_free_eq; cbn [pipes]; [rewrite Hp, alter_middle0; apply lookup_middle0|done]. }
  cbn [pipes issued heap threads oom trace].
  unfold build_stage. cbn [b_world b_count b_handles b_result st_size snd].
  fold rec. rewrite Hrec. cbn [fst snd].
  rewrite Hp, Hi, Ht, !alter_middle0, <- (assoc_L (++)). done.
Qed.

Lemma registry_room_stage n tid count handles r d w :
  registry_room (S n) count handles w →
  let b := build_stage tid (Build count handles r w) d in
  registry_room n (b_count b) (b_handles b) (b_world b).
Proof.
  intros Hroom. pose proof (registry_room_ok n count handles r d tid w Hroom) as Hok.
  unfold build_stage, recorded. cbn [b_count b_handles b_result b_world].
  destruct count as [c|]; [|done]. destruct handles as [hs|]; [|done].
  destruct Hroom as (Hc & Hn & _). destruct Hok as [_ Hhs].
  destruct (default false (head (oom (stage_connected r d tid w)))); cbn [fst snd].
  - split_and!; [lia|lia|]. done.
  - split_and!; [lia|lia|]. right. eexists. unfold heap_at. cbn [heap].
    set (h := heap (stage_connected r d tid w)).
    assert (length (if is_null hs then h else <[Nat.pred (N.to_nat hs) := None]> h) = length h)
      as <- by (destruct (is_null hs); [done|apply length_insert]).
    apply block_at_fresh.
Qed.

Lemma va_pipe_pipeline_chain ds count handles r rest tid w :
  Forall real_stage ds → is_Some (pl_out r) →
  registry_room (length ds) count handles w →
  va_pipe_pipeline count handles r (va_stages ds ++ rest) tid w =
    let b := build_chain tid (Build count handles r w) ds in
    va_pipe_pipeline (b_count b) (b_handles b) (b_result b) rest tid (b_world b).
Proof.
  revert count handles r w. induction ds as [|d ds IH]; intros count handles r w Hds Hout Hroom.
  - done.
  - apply list.Forall_cons in Hds as [Hd Hds].
    change (va_stages (d :: ds)) with (va_stage d ++ va_stages ds).
    rewrite <- (assoc_L (++)).
    rewrite va_pipe_pipeline_stage; [|done|done|].
    2:{ destruct count, handles; try done. simpl in *. destruct Hroom as (?&?&?).
        split_and!; [lia|lia|done]. }
    cbv zeta. pose proof (registry_room_stage _ tid _ _ r d _ Hroom) as Hroom'.
    destruct (build_stage tid (Build count handles r w) d) as [count' handles' r' w'] eqn:Hb.
    cbn [b_count b_handles b_result b_world] in *.
    rewrite IH; [by cbn [build_chain foldl]; rewrite Hb | done | | done].
    unfold build_stage in Hb. injection Hb as _ _ <- _. eauto.
Qed.

Lemma va_pipe_pipeline_sentinel count handles r rest tid w :
  va_pipe_pipeline count handles r (VaPtr 0 :: rest) tid w = Done (r, count, handles) w.
Proof. done. Qed.

Lemma va_pipe_pipeline_sink count handles r proc aux rest c q tid w :
  proc ≠ 0 → pl_out r = Some c →
  pipes w !! c_pipe c = Some q → consumer_refs q ≠ 0%nat →
  va_pipe_pipeline count handles r (VaPtr proc :: VaPtr aux :: VaSize 0 :: rest) tid w =
    Done (Pipeline (pl_in r) None, count, handles)
         (World (alter drop_consumer (c_pipe c) (pipes w)) (issued w) (heap w)
                (threads w) (oom w) (trace w ++ [(tid, EvConsumerFree c)])).
Proof.
  intros Hproc Hout Hq Hrefs. cbn [va_pipe_pipeline].
  assert (is_null proc = false) as -> by by apply N.eqb_neq.
  change (is_null 0) with true. cbv iota. rewrite Hout.
  erewrite bind_run by (by eapply pipe_consumer_free_eq). done.
Qed.

Lemma pipe_trivial_pipeline_new ps esz n h ts o tr tid :
  pipe_trivial_pipeline (length ps) tid
      (World (ps ++ [Pipe esz 0 [] 0 0 true]) n h ts o tr) =
    Done (Pipeline (Some (Producer (length ps) n)) (Some (Consumer (length ps) (S n))))
         (World (ps ++ [Pipe esz 0 [] 1 1 true]) (S (S n)) h ts o
                (tr ++ [(tid, EvProducerNew (length ps) (Producer (length ps) n));
                        (tid, EvConsumerNew (length ps) (Consumer (length ps) (S n)))])).
Proof.
  unfold pipe_trivial_pipeline.
  erewrite bind_run by (eapply pipe_producer_new_eq; [apply lookup_middle0|done]).
  cbn [pipes issued heap threads oom trace]. rewrite alter_middle0.
  erewrite bind_run by (eapply pipe_consumer_new_eq; [apply lookup_middle0|done]).
  cbn [pipes issued heap threads oom trace]. rewrite alter_middle0.
  unfold mret, M_ret. by rewrite <- !(assoc_L (++)).
Qed.

Lemma pipe_pipeline_start count handles first_size va tid w :
  pipe_pipeline count handles first_size va tid w =
    let b := pipeline_start count handles first_size tid w in
    (r ← va_pipe_pipeline count handles (b_result b) va;
     pipe_free (length (pipes w));; mret r) tid (b_world b).
Proof.
  unfold pipe_pipeline.
  rewrite (bind_run _ _ _ _ _ _ (pipe_new_eq _ _ _ _)).
  rewrite (bind_run _ _ _ _ _ _ (pipe_trivial_pipeline_new _ _ _ _ _ _ _ _)).
  unfold pipeline_start. cbv zeta. cbn [b_result b_world].
  by rewrite <- !(assoc_L (++)).
Qed.

Lemma recorded_keeps_connect count handles t tid w a x :
  registry_ok count handles w →
  heap_at a w = Some (BConnect x) →
  heap_at a (recorded count handles t tid w).2 = Some (BConnect x).
Proof.
  intros Hok Ha. unfold recorded.
  destruct count as [c|]; [|done]. destruct handles as [hs|]; [|done].
  destruct (default false (head (oom w))); [done|].
  unfold heap_at in *. cbn [snd heap]. apply block_at_app.
  destruct (is_null hs) eqn:Hnull; [done|].
  destruct Hok as [_ [->|[cells Hhs]]]; [done|].
  unfold heap_at, block_at in *. rewrite Hnull in Hhs.
  destruct (is_null a); [done|].
  rewrite list_lookup_insert_ne; [done|]. intros Heq. rewrite Heq in Hhs. congruence.
Qed.

Lemma build_stage_spec tid b d :
  registry_room 1 (b_count b) (b_handles b) (b_world b) →
  let w := b_world b in
  let b' := build_stage tid b d in
  let w' := b_world b' in
  let th := Thread (N.of_nat (S (length (threads w)))) (PcEntry (N.of_nat (S (length (heap w))))) in
  pipes w' = pipes w ++ [Pipe (st_size d) 0 [] 1 1 false] ∧
  issued w' = S (S (issued w)) ∧
  pl_in (b_result b') = pl_in (b_result b) ∧
  pl_out (b_result b') = Some (Consumer (length (pipes w)) (S (issued w))) ∧
  threads w' = threads w ++ [th] ∧
  worker_data w' th = Some (ConnectData (pl_out (b_result b)) (st_proc d) (st_aux d)
                                         (Some (Producer (length (pipes w)) (issued w)))) ∧
  (∀ a x, heap_at a w = Some (BConnect x) → heap_at a w' = Some (BConnect x)).
Proof.
  intros Hroom w b' w' th.
  pose proof (registry_room_ok 0 _ _ (b_result b) d tid _ Hroom) as Hok.
  destruct (recorded_frame (b_count b) (b_handles b) (N.of_nat (S (length (threads w)))) tid
              (stage_connected (b_result b) d tid w)) as (Hp & Hi & Ht).
  split_and!; try done.
  - unfold worker_data, w', b', build_stage, heap_at. cbn [th th_pc b_world heap].
    fold (heap_at (N.of_nat (S (length (heap w))))
            (recorded (b_count b) (b_handles b) (N.of_nat (S (length (threads (b_world b)))))
                      tid (stage_connected (b_result b) d tid (b_world b))).2).
    erewrite recorded_keeps_connect; [done|done|]. apply block_at_fresh.
  - intros a x Ha. unfold w', b', build_stage, heap_at. cbn [b_world heap].
    apply recorded_keeps_connect; [done|]. by apply block_at_app.
Qed.

Lemma build_chain_spec tid ds b :
  registry_room (length ds) (b_count b) (b_handles b) (b_world b) →
  let w := b_world b in
  let b' := build_chain tid b ds in
  let w' := b_world b' in
  pipes w' = pipes w ++ ((λ d, Pipe (st_size d) 0 [] 1 1 false) <$> ds) ∧
  issued w' = (issued w + 2 * length ds)%nat ∧
  pl_in (b_result b') = pl_in (b_result b) ∧
  pl_out (b_result b') = chain_out (pl_out (b_result b)) (length (pipes w)) (issued w) ds ∧
  (∃ new,
     threads w' = threads w ++ new ∧
     th_handle <$> new = new_handles (length (threads w)) (length ds) ∧
     worker_data w' <$> new =
       Some <$> chain_data (pl_out (b_result b)) (length (pipes w)) (issued w) ds) ∧
  (∀ a x, heap_at a w = Some (BConnect x) → heap_at a w' = Some (BConnect x)).
Proof.
  revert b. induction ds as [|d ds IH]; intros b Hroom w b' w'.
  - subst w w' b'. cbn [build_chain foldl length fmap list_fmap chain_out].
    split_and!;
      [by rewrite app_nil_r | lia | done | done | exists []; by rewrite app_nil_r | done].
  - assert (registry_room 1 (b_count b) (b_handles b) (b_world b)) as Hroom1.
    { destruct (b_count b), (b_handles b); try done. simpl in *. destruct Hroom as (?&?&?).
      split_and!; [lia|lia|done]. }
    destruct (build_stage_spec tid b d Hroom1) as (Hp1 & Hi1 & Hin1 & Hout1 & Ht1 & Hd1 & Hk1).
    assert (registry_room (length ds) (b_count (build_stage tid b d))
              (b_handles (build_stage tid b d)) (b_world (build_stage tid b d))) as Hroom'.
    { destruct b as [count handles r w0]. by apply registry_room_stage. }
    destruct (IH _ Hroom') as (Hp & Hi & Hin & Hout & (new & Ht & Hh & Hd) & Hk).
    change (build_chain tid (build_stage tid b d) ds) with b' in *.
    fold w' in Hp, Hi, Ht, Hd, Hk. fold w in Hp1, Hi1, Ht1, Hd1, Hk1.
    split_and!.
    + rewrite Hp, Hp1, <- (assoc_L (++)). done.
    + rewrite Hi, Hi1. simpl. lia.
    + by rewrite Hin, Hin1.
    + rewrite Hout, Hout1, Hp1, Hi1, length_app, Nat.add_1_r. done.
    + eexists (_ :: new). split_and!.
      * rewrite Ht, Ht1, <- (assoc_L (++)). done.
      * rewrite fmap_cons, Hh, Ht1, length_app, Nat.add_1_r. done.
      * rewrite fmap_cons, Hd, Hout1, Hp1, Hi1, length_app, Nat.add_1_r.
        cbn [chain_data fmap list_fmap]. f_equal.
        unfold worker_data in *. cbn [th_pc] in *.
        destruct (heap_at (N.of_nat (S (length (heap w)))) (b_world (build_stage tid b d)))
          as [[x| |]|] eqn:Hblk; try done.
        rewrite (Hk _ _ Hblk). done.
    + intros a x Ha. apply Hk, Hk1, Ha.
Qed.

Lemma registry_is_room n c hs hl w :
  registry_is c hs hl w → (c + Z.of_nat n ≤ REGISTRY_MAX)%Z →
  registry_room n (Some c) (Some hs) w.
Proof.
  intros [-> Hhs] Hn. split_and!; [lia|done|].
  destruct (is_null hs) eqn:Hnull; [left; by apply N.eqb_eq|right; eauto].
Qed.

Lemma build_stage_registry tid c hs hl r d w :
  registry_is c hs hl w → (c < REGISTRY_MAX)%Z →
  default false (head (oom w)) = false →
  let b' := build_stage tid (Build (Some c) (Some hs) r w) d in
  ∃ a, b_count b' = Some (c + 1)%Z ∧ b_handles b' = Some a ∧
       registry_is (c + 1) a (hl ++ [N.of_nat (S (length (threads w)))]) (b_world b') ∧
       oom (b_world b') = drop 1 (oom w).
Proof.
  intros [Hc Hhs] Hmax Hoom b'. unfold b', build_stage, recorded.
  cbn [b_count b_handles b_result b_world].
  change (oom (stage_connected r d tid w)) with (oom w). rewrite Hoom. cbn [fst snd].
  eexists. split_and!; [done|done| |done].
  set (w1 := stage_connected r d tid w).
  assert (registry_cells hs w1 = Some <$> hl) as ->.
  { unfold registry_cells, heap_at, block_at in *. destruct (is_null hs); [by subst hl|].
    unfold w1. cbn [stage_connected heap].
    destruct (heap w !! Nat.pred (N.to_nat hs)) as [x|] eqn:Hx; [|done].
    rewrite (lookup_app_l_Some _ _ _ _ Hx). simpl in *. by subst x. }
  split.
  - rewrite length_app. simpl. lia.
  - rewrite is_null_of_nat_S. unfold heap_at. cbn [heap].
    set (h := heap w1).
    assert (length (if is_null hs then h else <[Nat.pred (N.to_nat hs) := None]> h) = length h)
      as <- by (destruct (is_null hs); [done|apply length_insert]).
    rewrite block_at_fresh. do 2 f_equal.
    assert (length (Some <$> hl) = Z.to_nat c) as Hlen by (rewrite length_fmap; lia).
    rewrite resize_ge by lia.
    replace (S (Z.to_nat c) - length (Some <$> hl))%nat with 1%nat by lia.
    rewrite <- Hlen, fmap_app. apply insert_snoc.
Qed.

Lemma build_chain_registry tid ds c hs hl r w :
  registry_is c hs hl w → (c + Z.of_nat (length ds) ≤ REGISTRY_MAX)%Z →
  Forall (λ b, b = false) (take (length ds) (oom w)) →
  let b' := build_chain tid (Build (Some c) (Some hs) r w) ds in
  ∃ a, b_count b' = Some (c + Z.of_nat (length ds))%Z ∧ b_handles b' = Some a ∧
       registry_is (c + Z.of_nat (length ds)) a
                   (hl ++ new_handles (length (threads w)) (length ds)) (b_world b').
Proof.
  revert c hs hl r w. induction ds as [|d ds IH]; intros c hs hl r w Hreg Hmax Hoom b'.
  - exists hs. unfold b', new_handles. simpl. rewrite Z.add_0_r, app_nil_r. done.
  - assert (default false (head (oom w)) = false) as Hhead.
    { destruct (oom w) as [|x o]; [done|]. simpl in Hoom.
      by apply list.Forall_cons in Hoom as [-> _]. }
    destruct (build_stage_registry tid c hs hl r d w Hreg ltac:(simpl in Hmax; lia) Hhead)
      as (a & Hc1 & Hh1 & Hreg1 & Hoom1).
    assert (registry_room 1 (Some c) (Some hs) w) as Hroom1
      by (apply (registry_is_room 1 c hs hl); [done|simpl in Hmax; lia]).
    destruct (build_stage_spec tid (Build (Some c) (Some hs) r w) d Hroom1)
      as (_ & _ & _ & _ & Ht1 & _).
    destruct (build_stage tid (Build (Some c) (Some hs) r w) d)
      as [count1 handles1 r1 w1] eqn:Hb1.
    cbn [b_count b_handles b_world] in *. subst count1 handles1.
    destruct (IH (c + 1)%Z a _ r1 w1 Hreg1) as (a' & Hc' & Hh' & Hreg').
    { simpl in Hmax. lia. }
    { rewrite Hoom1. simpl in Hoom. destruct (oom w) as [|x o]; simpl in *.
      - rewrite take_nil. constructor.
      - by apply list.Forall_cons in Hoom as [_ ?]. }
    unfold b'.
    change (build_chain tid ?b (d :: ds)) with (build_chain tid (build_stage tid b d) ds).
    rewrite Hb1.
    exists a'. split_and!.
    + rewrite Hc'. f_equal. simpl length. lia.
    + done.
    + replace (c + Z.of_nat (length (d :: ds)))%Z with (c + 1 + Z.of_nat (length ds))%Z
        by (simpl length; lia).
      rewrite Ht1, length_app, Nat.add_1_r, <- (assoc_L (++)) in Hreg'. done.
Qed.

Lemma chain_out_last q0 i0 ds :
  chain_out (Some (Consumer q0 (S i0))) (S q0) (S (S i0)) ds =
    Some (Consumer (q0 + length ds)%nat (i0 + 2 * length ds + 1)%nat).
Proof.
  revert q0 i0. induction ds as [|d ds IH]; intros q0 i0.
  - simpl. do 2 f_equal; lia.
  - cbn [chain_out]. rewrite IH. simpl length. do 2 f_equal; lia.
Qed.

Lemma worker_data_heap w1 w2 th :
  heap w1 = heap w2 → worker_data w1 th = worker_data w2 th.
Proof. intros H. unfold worker_data, heap_at. by rewrite H. Qed.

Lemma pipeline_start_room n count handles first_size tid w :
  registry_room n count handles w →
  registry_room n (b_count (pipeline_start count handles first_size tid w))
                (b_handles (pipeline_start count handles first_size tid w))
                (b_world (pipeline_start count handles first_size tid w)).
Proof. done. Qed.

Lemma pipeline_chain_pipes count handles first_size ds tid w :
  registry_room (length ds) count handles w →
  pipes (b_world (pipeline_chain count handles first_size ds tid w)) =
    pipes w ++ Pipe first_size 0 [] 1 1 true
            :: ((λ d, Pipe (st_size d) 0 [] 1 1 false) <$> ds).
Proof.
  intros Hroom.
  destruct (build_chain_spec tid ds _ (pipeline_start_room _ _ _ first_size tid _ Hroom))
    as (Hp & _). unfold pipeline_chain. rewrite Hp. simpl. by rewrite <- (assoc_L (++)).
Qed.

(** A list of descriptors ended by the sentinel. *)
Lemma pipe_pipeline_sentinel_eq count handles first_size ds rest tid w :
  Forall real_stage ds → registry_room (length ds) count handles w →
  let b := pipeline_chain count handles first_size ds tid w in
  pipe_pipeline count handles first_size (va_stages ds ++ VaPtr 0 :: rest) tid w =
    Done (b_result b, b_count b, b_handles b)
         (World (alter drop_handle (length (pipes w)) (pipes (b_world b)))
                (issued (b_world b)) (heap (b_world b)) (threads (b_world b))
                (oom (b_world b))
                (trace (b_world b) ++ [(tid, EvPipeFree (length (pipes w)))])).
Proof.
  intros Hds Hroom b. rewrite pipe_pipeline_start. cbv zeta.
  unfold mbind at 1. unfold M_bind at 1.
  rewrite va_pipe_pipeline_chain; [|done|by eexists|done].
  cbv zeta. change (build_chain tid _ ds) with b.
  rewrite va_pipe_pipeline_sentinel. cbv beta iota.
  erewrite bind_run.
  2:{ eapply pipe_free_eq;
        [unfold b; rewrite pipeline_chain_pipes by done; apply lookup_middle0|done]. }
  done.
Qed.

(** A list of descriptors ended by a sink: [proc] with next size 0. *)
Lemma pipe_pipeline_sink_eq count handles first_size ds proc aux rest tid w :
  Forall real_stage ds → proc ≠ 0 → registry_room (length ds) count handles w →
  let b := pipeline_chain count handles first_size ds tid w in
  let q0 := length (pipes w) in
  let c := Consumer (q0 + length ds)%nat (issued w + 2 * length ds + 1)%nat in
  pipe_pipeline count handles first_size
      (va_stages ds ++ VaPtr proc :: VaPtr aux :: VaSize 0 :: rest) tid w =
    Done (Pipeline (Some (Producer q0 (issued w))) None, b_count b, b_handles b)
         (World (alter drop_handle q0 (alter drop_consumer (q0 + length ds)%nat (pipes (b_world b))))
                (issued (b_world b)) (heap (b_world b)) (threads (b_world b))
                (oom (b_world b))
                (trace (b_world b) ++ [(tid, EvConsumerFree c); (tid, EvPipeFree q0)])).
Proof.
  intros Hds Hproc Hroom b q0 c. rewrite pipe_pipeline_start. cbv zeta.
  unfold mbind at 1. unfold M_bind at 1.
  rewrite va_pipe_pipeline_chain; [|done|by eexists|done].
  cbv zeta. change (build_chain tid _ ds) with b.
  destruct (build_chain_spec tid ds _ (pipeline_start_room _ _ _ first_size tid _ Hroom))
    as (_ & _ & Hin & Hout & _).
  fold (pipeline_chain count handles first_size ds tid w) in Hin, Hout. fold b in Hin, Hout.
  cbn [pipeline_start b_result b_world pl_in pl_out pipes issued] in Hin, Hout.
  rewrite length_app, Nat.add_1_r, chain_out_last in Hout. fold q0 c in Hout.
  pose proof (pipeline_chain_pipes count handles first_size ds tid w Hroom) as Hp.
  fold b q0 in Hp.
  assert (∃ q q1, pipes (b_world b) !! (q0 + length ds)%nat = Some q ∧
                  consumer_refs q = 1%nat ∧
                  alter drop_consumer (q0 + length ds)%nat (pipes (b_world b)) !! q0 = Some q1 ∧
                  handle_live q1 = true)
    as (q & q1 & Hq & Hrefs & Hq1 & Hlive).
  { rewrite Hp. unfold q0. destruct ds as [|d ds _] using rev_ind.
    - simpl. rewrite Nat.add_0_r, lookup_middle0, alter_middle0, lookup_middle0.
      eexists _, _. done.
    - rewrite fmap_app, length_app. simpl.
      rewrite list_lookup_alter_ne, lookup_middle0 by lia.
      rewrite app_comm_cons, (assoc_L (++)).
      set (l := pipes w ++ _ :: _).
      assert (length l = (length (pipes w) + (length ds + 1))%nat) as Hl.
      { unfold l. rewrite length_app. simpl. rewrite length_fmap. lia. }
      rewrite <- Hl, lookup_middle0. eexists _, _. done. }
  erewrite va_pipe_pipeline_sink; [|done|done|done|lia]. cbv beta iota.
  cbn [c_pipe c].
  erewrite bind_run.
  2:{ eapply pipe_free_eq; cbn [pipes]; [exact Hq1|done]. }
  cbn [pipes issued heap threads oom trace].
  unfold mret, M_ret. rewrite Hin, <- (assoc_L (++)). done.
Qed.

Lemma recorded_none count handles t tid w :
  count = None ∨ handles = None → recorded count handles t tid w = (count, handles, w).
Proof. intros [-> | ->]; [done|by destruct count]. Qed.

Lemma build_chain_unrecorded tid ds b :
  b_count b = None ∨ b_handles b = None →
  let b' := build_chain tid b ds in
  b_count b' = b_count b ∧ b_handles b' = b_handles b ∧
  heap (b_world b') =
    heap (b_world b) ++
      (Some ∘ BConnect ∘ Some <$>
         chain_data (pl_out (b_result b)) (length (pipes (b_world b))) (issued (b_world b)) ds) ∧
  oom (b_world b') = oom (b_world b).
Proof.
  revert b. induction ds as [|d ds IH]; intros b Hnone b'.
  - subst b'. simpl. by rewrite app_nil_r.
  - subst b'. change (build_chain tid b (d :: ds))
      with (build_chain tid (build_stage tid b d) ds).
    assert (build_stage tid b d =
            Build (b_count b) (b_handles b)
                  (Pipeline (pl_in (b_result b))
                            (Some (Consumer (length (pipes (b_world b))) (S (issued (b_world b))))))
                  (World (pipes (b_world b) ++ [Pipe (st_size d) 0 [] 1 1 false])
                         (S (S (issued (b_world b))))
                         (heap (stage_connected (b_result b) d tid (b_world b)))
                         (threads (stage_connected (b_result b) d tid (b_world b)))
                         (oom (b_world b))
                         (trace (stage_connected (b_result b) d tid (b_world b)) ++
                            [(tid, EvConsumerNew (length (pipes (b_world b)))
                                     (Consumer (length (pipes (b_world b))) (S (issued (b_world b)))));
                             (tid, EvPipeFree (length (pipes (b_world b))))]))) as Hb.
    { unfold build_stage. by rewrite recorded_none. }
    destruct (IH (build_stage tid b d)) as (Hc & Hh & Hheap & Hoom); [by rewrite Hb|].
    rewrite Hc, Hh, Hheap, Hoom, Hb.
    cbn [b_count b_handles b_result b_world pl_out pipes issued heap oom].
    split_and!; try done.
    cbn [stage_connected heap chain_data fmap list_fmap].
    rewrite <- (assoc_L (++)), length_app, Nat.add_1_r. done.
Qed.

(** C3.  A list of [n] stage descriptors (non-null processing functions,
    non-zero sizes) followed by the sentinel, with a registry that has room
    and an allocator that does not fail: [pipe_pipeline] returns the
    producer endpoint of the first queue and the consumer endpoint of the
    last queue created; whatever follows the sentinel is not looked at.  It
    has created the first queue and one queue per descriptor, in order, and
    one thread per descriptor, in order; the thread of each stage runs on
    the consumer end of the queue before it, its own processing function
    and auxiliary context, and a producer endpoint of its own queue
    ([chain_data]); and the registry has grown by the handles of these
    threads, in construction order. *)
Theorem pipe_pipeline_builds ds rest c hs hl first_size tid w :
  Forall real_stage ds →
  registry_is c hs hl w →
  (c + Z.of_nat (length ds) ≤ REGISTRY_MAX)%Z →
  Forall (λ b, b = false) (take (length ds) (oom w)) →
  let n := length ds in
  let q0 := length (pipes w) in
  ∃ a w' new,
    pipe_pipeline (Some c) (Some hs) first_size (va_stages ds ++ VaPtr 0 :: rest) tid w =
      Done (Pipeline (Some (Producer q0 (issued w)))
                     (Some (Consumer (q0 + n)%nat (issued w + 2 * n + 1)%nat)),
            Some (c + Z.of_nat n)%Z, Some a) w' ∧
    pipes w' = pipes w ++ Pipe first_size 0 [] 1 1 false
                       :: ((λ d, Pipe (st_size d) 0 [] 1 1 false) <$> ds) ∧
    threads w' = threads w ++ new ∧
    th_handle <$> new = new_handles (length (threads w)) n ∧
    worker_data w' <$> new =
      Some <$> chain_data (Some (Consumer q0 (S (issued w)))) (S q0) (S (S (issued w))) ds ∧
    registry_is (c + Z.of_nat n) a (hl ++ new_handles (length (threads w)) n) w'.
Proof.
  intros Hds Hreg Hmax Hoom n q0.
  pose proof (registry_is_room n c hs hl w Hreg Hmax) as Hroom.
  pose proof (pipe_pipeline_sentinel_eq (Some c) (Some hs) first_size ds rest tid w Hds Hroom)
    as Hrun. cbv zeta in Hrun.
  destruct (build_chain_spec tid ds _
              (pipeline_start_room _ _ _ first_size tid _ Hroom))
    as (_ & _ & Hin & Hout & (new & Ht & Hh & Hd) & _).
  destruct (build_chain_registry tid ds c hs hl
              (b_result (pipeline_start (Some c) (Some hs) first_size tid w))
              (b_world (pipeline_start (Some c) (Some hs) first_size tid w)) Hreg Hmax Hoom)
    as (a & Hc' & Hh' & Hreg').
  change (build_chain tid _ ds)
    with (pipeline_chain (Some c) (Some hs) first_size ds tid w) in *.
  set (b := pipeline_chain (Some c) (Some hs) first_size ds tid w) in *.
  cbn [pipeline_start b_result b_world pl_in pl_out pipes issued threads] in *.
  rewrite length_app, Nat.add_1_r, chain_out_last in Hout.
  rewrite length_app, Nat.add_1_r in Hd.
  eexists a, _, new. split_and!.
  - rewrite Hrun. f_equal. f_equal; [|done]. f_equal; [|done].
    destruct (b_result b). simpl in *. by subst.
  - cbn [pipes]. unfold b. rewrite pipeline_chain_pipes by done.
    by rewrite alter_middle0.
  - done.
  - done.
  - erewrite (list_fmap_ext (worker_data _)); [exact Hd|].
    intros ? th _. by apply worker_data_heap.
  - exact Hreg'.
Qed.

Lemma lookup_alter_same {A} (f : A → A) (l : list A) i x :
  l !! i = Some x → alter f i l !! i = Some (f x).
Proof. intros H. rewrite list_lookup_alter. case_decide; [|done]. by rewrite H. Qed.

(** C4.  A list of [n] stage descriptors followed by a descriptor whose
    next element size is 0: [pipe_pipeline] returns the producer endpoint
    of the first queue and a null consumer end.  What it has built is what
    the same [n] descriptors followed by the sentinel build ([ws]): the
    same queues (none for the sink descriptor), the same threads (none for
    the sink descriptor), the same registry; the one difference is that the
    consumer end [c] reached so far has been released instead of being
    returned.  Whatever follows the sink descriptor is not looked at. *)
Theorem pipe_pipeline_sink ds proc aux rest rest' count handles first_size tid w :
  Forall real_stage ds → proc ≠ 0 →
  registry_room (length ds) count handles w →
  let n := length ds in
  let q0 := length (pipes w) in
  let c := Consumer (q0 + n)%nat (issued w + 2 * n + 1)%nat in
  ∃ count' handles' w' ws tr,
    pipe_pipeline count handles first_size
        (va_stages ds ++ VaPtr proc :: VaPtr aux :: VaSize 0 :: rest) tid w =
      Done (Pipeline (Some (Producer q0 (issued w))) None, count', handles') w' ∧
    pipe_pipeline count handles first_size (va_stages ds ++ VaPtr 0 :: rest') tid w =
      Done (Pipeline (Some (Producer q0 (issued w))) (Some c), count', handles') ws ∧
    length (pipes w') = (q0 + 1 + n)%nat ∧
    length (pipes ws) = (q0 + 1 + n)%nat ∧
    consumer_refs <$> pipes ws !! (q0 + n)%nat = Some 1%nat ∧
    consumer_refs <$> pipes w' !! (q0 + n)%nat = Some 0%nat ∧
    threads w' = threads ws ∧
    length (threads w') = (length (threads w) + n)%nat ∧
    heap w' = heap ws ∧ issued w' = issued ws ∧ oom w' = oom ws ∧
    trace ws = tr ++ [(tid, EvPipeFree q0)] ∧
    trace w' = tr ++ [(tid, EvConsumerFree c); (tid, EvPipeFree q0)].
Proof.
  intros Hds Hproc Hroom n q0 c.
  pose proof (pipe_pipeline_sentinel_eq count handles first_size ds rest' tid w Hds Hroom)
    as Hsent.
  pose proof (pipe_pipeline_sink_eq count handles first_size ds proc aux rest tid w
                Hds Hproc Hroom) as Hsink.
  cbv zeta in Hsent, Hsink.
  destruct (build_chain_spec tid ds _
              (pipeline_start_room _ _ _ first_size tid _ Hroom))
    as (_ & _ & Hin & Hout & (new & Ht & Hh & _) & _).
  pose proof (pipeline_chain_pipes count handles first_size ds tid w Hroom) as Hp.
  change (build_chain tid _ ds) with (pipeline_chain count handles first_size ds tid w) in *.
  set (b := pipeline_chain count handles first_size ds tid w) in *.
  cbn [pipeline_start b_result b_world pl_in pl_out pipes issued threads] in *.
  rewrite length_app, Nat.add_1_r, chain_out_last in Hout. fold q0 n c in Hout.
  assert (length new = n) as Hnew.
  { rewrite <- (length_fmap th_handle), Hh. unfold new_handles.
    by rewrite length_fmap, length_seq. }
  assert (∃ q, pipes (b_world b) !! (q0 + n)%nat = Some q ∧ consumer_refs q = 1%nat)
    as (q & Hq & Hrefs).
  { rewrite Hp. unfold q0, n. destruct ds as [|d ds' _] using rev_ind.
    - simpl. rewrite Nat.add_0_r, lookup_middle0. by eexists.
    - rewrite fmap_app, length_app. simpl.
      rewrite app_comm_cons, (assoc_L (++)).
      set (l := pipes w ++ _ :: _).
      assert (length l = (length (pipes w) + (length ds' + 1))%nat) as <-.
      { unfold l. rewrite length_app. simpl. rewrite length_fmap. lia. }
      rewrite lookup_middle0. by eexists. }
  assert (length (pipes (b_world b)) = (q0 + 1 + n)%nat) as Hlen.
  { rewrite Hp, length_app. simpl. rewrite length_fmap. unfold q0, n. lia. }
  assert (consumer_refs <$> alter drop_handle q0 (pipes (b_world b)) !! (q0 + n)%nat
          = Some 1%nat) as Hr1.
  { destruct (decide (q0 = (q0 + n)%nat)) as [Heq|Hne].
    - rewrite <- Heq in *. rewrite (lookup_alter_same _ _ _ _ Hq). simpl. by f_equal.
    - rewrite list_lookup_alter_ne, Hq by done. simpl. by f_equal. }
  assert (consumer_refs <$> alter drop_handle q0
            (alter drop_consumer (q0 + n)%nat (pipes (b_world b))) !! (q0 + n)%nat
          = Some 0%nat) as Hr0.
  { destruct (decide (q0 = (q0 + n)%nat)) as [Heq|Hne].
    - rewrite <- Heq in *.
      rewrite (lookup_alter_same _ _ _ _ (lookup_alter_same _ _ _ _ Hq)).
      simpl. f_equal. lia.
    - rewrite list_lookup_alter_ne, (lookup_alter_same _ _ _ _ Hq) by done.
      simpl. f_equal. lia. }
  eexists (b_count b), (b_handles b), _, _, (trace (b_world b)).
  split_and!.
  - exact Hsink.
  - rewrite Hsent. do 2 f_equal. f_equal. destruct (b_result b). simpl in *. by subst.
  - cbn [pipes]. by rewrite !length_alter.
  - cbn [pipes]. by rewrite length_alter.
  - exact Hr1.
  - exact Hr0.
  - done.
  - cbn [threads]. rewrite Ht, length_app. lia.
  - done.
  - done.
  - done.
  - done.
  - done.
Qed.


(** C9.  With a null [count] pointer or a null [handles] pointer,
    [pipe_pipeline] creates the same threads, one per descriptor, and
    records none of them: [*count] and [*handles] come back as they were,
    [realloc] is never called (the allocator's oracle is not consulted) and
    the only blocks added to the heap are the argument blocks of the
    workers.  No array holds the handles of the new threads. *)
Theorem pipe_pipeline_unrecorded ds rest count handles first_size tid w :
  Forall real_stage ds →
  count = None ∨ handles = None →
  let n := length ds in
  let q0 := length (pipes w) in
  ∃ w' new,
    pipe_pipeline count handles first_size (va_stages ds ++ VaPtr 0 :: rest) tid w =
      Done (Pipeline (Some (Producer q0 (issued w)))
                     (Some (Consumer (q0 + n)%nat (issued w + 2 * n + 1)%nat)),
            count, handles) w' ∧
    threads w' = threads w ++ new ∧
    th_handle <$> new = new_handles (length (threads w)) n ∧
    heap w' = heap w ++
      (Some ∘ BConnect ∘ Some <$>
         chain_data (Some (Consumer q0 (S (issued w)))) (S q0) (S (S (issued w))) ds) ∧
    oom w' = oom w.
Proof.
  intros Hds Hnone n q0.
  assert (registry_room n count handles w) as Hroom
    by (destruct Hnone as [-> | ->]; [done|by destruct count]).
  pose proof (pipe_pipeline_sentinel_eq count handles first_size ds rest tid w Hds Hroom)
    as Hrun. cbv zeta in Hrun.
  destruct (build_chain_spec tid ds _
              (pipeline_start_room _ _ _ first_size tid _ Hroom))
    as (_ & _ & Hin & Hout & (new & Ht & Hh & _) & _).
  destruct (build_chain_unrecorded tid ds (pipeline_start count handles first_size tid w) Hnone)
    as (Hc & Hhs & Hheap & Hoom).
  change (build_chain tid _ ds) with (pipeline_chain count handles first_size ds tid w) in *.
  set (b := pipeline_chain count handles first_size ds tid w) in *.
  cbn [pipeline_start b_result b_world b_count b_handles pl_in pl_out
       pipes issued threads heap oom] in *.
  rewrite length_app, Nat.add_1_r, chain_out_last in Hout.
  rewrite length_app, Nat.add_1_r in Hheap.
  eexists _, new. split_and!.
  - rewrite Hrun, Hc, Hhs. do 2 f_equal. f_equal.
    destruct (b_result b) as [pi po]. simpl in Hin, Hout. by rewrite Hin, Hout.
  - done.
  - done.
  - done.
  - done.
Qed.

(** ** Limits of the registry and of the builders *)


Lemma bind_Undefined {A B} (m : M A) (k : A → M B) tid w :
  m tid w = Undefined → (m ≫= k) tid w = Undefined.
Proof. intros H. unfold mbind, M_bind. by rewrite H. Qed.



(** X2.  With a negative [count] the guard [!count] lets the call through
    and the loop makes no turn: no handle is joined, yet the array is freed
    and the caller's variable is set to [NULL]. *)
Theorem pipe_handles_free_negative_count count t b tid w :
  (count < 0)%Z →
  heap_at t w = Some b →
  pipe_handles_free count (Some t) tid w =
    Done (Some NULL)
         (World (pipes w) (issued w) (<[Nat.pred (N.to_nat t) := None]> (heap w))
                (threads w) (oom w) (trace w ++ [(tid, EvFree t)])).
Proof.
  intros Hneg Hblk. unfold pipe_handles_free.
  assert ((count =? 0)%Z = false) as -> by (apply Z.eqb_neq; lia).
  rewrite Z2Nat.nonpos by lia. cbn [pipe_handles_free_loop].
  rewrite (bind_run _ _ tid w () w) by done.
  erewrite bind_run by (by eapply free_eq). done.
Qed.






(** *** More instances than the loop can count *)

Section ParallelTurn.
Variables (w : world) (in_size out_size : N) (proc : pipe_processor_t)
          (aux : ptr) (tid : THREAD_HANDLE) (total : nat).

Lemma pipe_parallel_loop_connected n j :
  proc ≠ 0 →
  pipe_parallel_loop (S n) (par_in w) (par_out w) proc aux (par_array w) (Z.of_nat j) tid
      (par_world w in_size out_size proc aux tid total j) =
    (store_handle (par_array w) (size_mul (size_of_int (Z.of_nat j)) sizeof_handle)
                  (par_handle w j);;
     count' ← int_incr (Z.of_nat j);
     pipe_parallel_loop n (par_in w) (par_out w) proc aux (par_array w) count') tid
      (par_connected w in_size out_size proc aux tid total j).
Proof.
  intros Hproc. cbn [pipe_parallel_loop]. unfold par_world at 1.
  unfold par_in, par_out.
  erewrite bind_run by (eapply pipe_consumer_new_eq; [apply lookup_middle0|done]).
  cbn [pipes issued heap threads oom trace]. rewrite alter_middle0.
  erewrite bind_run by (eapply pipe_producer_new_eq; [apply lookup_middle1|done]).
  cbn [pipes issued heap threads oom trace]. rewrite alter_middle1.
  erewrite bind_run by (apply pipe_connect_Done; eauto).
  unfold connect_world. cbn [pipes issued heap threads oom trace default mbind option_bind].
  assert (length (threads w ++ (par_thread w <$> seq 0 j)) = (length (threads w) + j)%nat)
    as -> by (by rewrite length_app, length_fmap, length_seq).
  assert (length (heap w ++ Some (BHandles (par_cells w total j))
                         :: (Some ∘ BConnect ∘ Some ∘ (par_data w proc aux) <$> seq 0 j))
          = (S (length (heap w)) + j)%nat)
    as -> by (rewrite length_app; simpl; rewrite length_fmap, length_seq; lia).
  unfold id. fold (par_handle w j) (par_block w j).
  f_equal. unfold par_connected. f_equal.
  - lia.
  - rewrite <- (assoc_L (++)). cbn [app]. do 2 f_equal.
    rewrite seq_S, fmap_app. f_equal. simpl. unfold par_data, par_consumer, par_producer.
    unfold par_in, par_out. repeat first [lia | progress f_equal].
  - rewrite seq_S, fmap_app, <- (assoc_L (++)). done.
  - rewrite par_trace_S, (assoc_L (++) (trace w)).
    set (X := trace w ++ _). rewrite <- !(assoc_L (++)). f_equal.
    unfold par_events, par_consumer, par_producer, par_in, par_out.
    replace (S (issued w + 2 * j)) with (issued w + 2 * j + 1)%nat by lia.
    done.
Qed.

Lemma par_connected_array j :
  heap_at (par_array w) (par_connected w in_size out_size proc aux tid total j)
    = Some (BHandles (par_cells w total j)).
Proof. unfold heap_at, par_connected, par_array. cbn [heap]. apply block_at_middle. Qed.

Lemma store_handle_connected j :
  (j < total)%nat → (Z.of_nat j ≤ INT_MAX)%Z →
  store_handle (par_array w) (size_mul (size_of_int (Z.of_nat j)) sizeof_handle)
               (par_handle w j) tid (par_connected w in_size out_size proc aux tid total j) =
    Done () (par_world w in_size out_size proc aux tid total (S j)).
Proof.
  intros Hj Hmax.
  erewrite store_handle_eq;
    [|done|apply par_connected_array|by rewrite par_cells_length by lia].
  unfold par_connected, par_world. cbn [pipes issued heap threads oom trace].
  do 2 f_equal.
  unfold par_array. rewrite pred_to_nat_of_nat_S, insert_middle0.
  by rewrite par_cells_insert.
Qed.

Lemma store_handle_beyond j :
  (total ≤ j)%nat → (Z.of_nat j ≤ INT_MAX)%Z →
  store_handle (par_array w) (size_mul (size_of_int (Z.of_nat j)) sizeof_handle)
               (par_handle w j) tid (par_connected w in_size out_size proc aux tid total total) =
    Undefined.
Proof.
  intros Hj Hmax. rewrite handle_offset by done.
  unfold store_handle, load_block. munfold. rewrite par_connected_array.
  unfold sizeof_handle. rewrite N.Div0.mod_mul, N.div_mul by done.
  rewrite Nat2N.id, bool_decide_eq_false_2; [done|].
  rewrite par_cells_length by lia. lia.
Qed.

(** The loop cannot take more turns than the array has cells, nor more
    than its [int] counter can count. *)
Lemma pipe_parallel_loop_overflow n j :
  proc ≠ 0 → (j ≤ total)%nat → (Z.of_nat j ≤ INT_MAX)%Z →
  (total < j + n)%nat ∨ (INT_MAX < Z.of_nat (j + n))%Z →
  pipe_parallel_loop n (par_in w) (par_out w) proc aux (par_array w) (Z.of_nat j) tid
      (par_world w in_size out_size proc aux tid total j) = Undefined.
Proof.
  intros Hproc. revert j. induction n as [|n IH]; intros j Hj Hmax Hover.
  - rewrite Nat.add_0_r in Hover. lia.
  - rewrite pipe_parallel_loop_connected by done.
    destruct (decide (j = total)) as [->|Hne].
    { apply bind_Undefined. by apply store_handle_beyond. }
    erewrite bind_run by (apply store_handle_connected; [lia|done]).
    destruct (decide (Z.of_nat j = INT_MAX)) as [Heq|Hlt].
    { apply bind_Undefined. unfold int_incr.
      rewrite bool_decide_eq_false_2 by lia. done. }
    erewrite bind_run by (apply int_incr_eq; lia).
    apply IH; [lia|lia|].
    replace (S j + n)%nat with (j + S n)%nat by lia. exact Hover.
Qed.
End ParallelTurn.

(** The array [malloc] returns has as many cells as its byte size holds,
    and that many cells take up these bytes again. *)
Lemma size_mul_cells (n : N) :
  size_mul (N.of_nat (N.to_nat (size_mul n sizeof_handle / sizeof_handle))) sizeof_handle
    = size_mul n sizeof_handle.
Proof.
  rewrite N2Nat.id. unfold size_mul, sizeof_handle, SIZE_MOD.
  change (2 ^ 64) with (2305843009213693952 * 8).
  rewrite (N.Div0.mul_mod_distr_r n), N.div_mul by done.
  rewrite N.Div0.mul_mod_distr_r, N.Div0.mod_mod. done.
Qed.

Lemma pipe_parallel_start instances in_size proc aux out_size tid w :
  let total := N.to_nat (size_mul instances sizeof_handle / sizeof_handle) in
  (in_ ← pipe_new in_size 0;
   out ← pipe_new out_size 0;
   threads ← malloc (size_mul instances sizeof_handle)
                    (fresh_handles (size_mul instances sizeof_handle));
   pipe_parallel_loop (N.to_nat instances) in_ out proc aux threads 0) tid w =
  pipe_parallel_loop (N.to_nat instances) (par_in w) (par_out w) proc aux (par_array w) 0 tid
    (par_world w in_size out_size proc aux tid total 0).
Proof.
  intros total.
  rewrite (bind_run _ _ _ _ _ _ (pipe_new_eq _ _ _ _)).
  rewrite (bind_run _ _ _ _ _ _ (pipe_new_eq _ _ _ _)).
  rewrite (bind_run _ _ _ _ _ _ (malloc_eq _ _ _ _)).
  cbn [pipes issued heap threads oom trace].
  rewrite length_app, Nat.add_1_r. fold (par_in w) (par_out w) (par_array w).
  f_equal. unfold par_world, par_cells, fresh_handles. fold total. f_equal.
  - by rewrite <- (assoc_L (++)).
  - lia.
  - simpl. by rewrite Nat.sub_0_r.
  - by rewrite app_nil_r.
  - rewrite <- !(assoc_L (++)). f_equal. simpl.
    unfold par_start. unfold total at 1. rewrite size_mul_cells. done.
Qed.

(** X6.  [pipe_parallel] has no defined behaviour for more than [INT_MAX]
    instances: [instances] is a [size_t] but the index [count] is an [int],
    so the loop either overflows [count++] or, where [instances *
    sizeof( *threads)] has wrapped, writes a handle past the end of the
    array. *)
Theorem pipe_parallel_too_many instances handles in_size proc aux out_size tid w :
  (INT_MAX < Z.of_N instances)%Z → proc ≠ 0 →
  pipe_parallel instances handles in_size proc aux out_size tid w = Undefined.
Proof.
  intros Hmany Hproc. unfold pipe_parallel.
  pose proof (pipe_parallel_start instances in_size proc aux out_size tid w) as Hstart.
  cbv zeta in Hstart.
  assert (pipe_parallel_loop (N.to_nat instances) (par_in w) (par_out w) proc aux
            (par_array w) 0 tid
            (par_world w in_size out_size proc aux tid
               (N.to_nat (size_mul instances sizeof_handle / sizeof_handle)) 0) = Undefined)
    as Hloop.
  { apply (pipe_parallel_loop_overflow w in_size out_size proc aux tid _ _ 0%nat Hproc);
      [apply Nat.le_0_l | unfold INT_MAX; lia | right; unfold INT_MAX in *; simpl; lia]. }
  rewrite <- Hstart in Hloop.
  unfold mbind, M_bind in *.
  destruct (pipe_new in_size 0 tid w) as [q1 w1| | |]; [|done..].
  destruct (pipe_new out_size 0 tid w1) as [q2 w2| | |]; [|done..].
  destruct (malloc _ _ tid w2) as [a w3| | |]; [|done..].
  by rewrite Hloop.
Qed.

(** X7.  With zero instances [pipe_parallel] trips no assertion, whatever
    [proc] is, and creates no thread; nothing connects its two queues.  The
    output queue has no producer and its creator's handle is released, so
    the first [pipe_pop] on the consumer end returned reports the end of the
    stream at once. *)
Theorem pipe_parallel_zero_instances handles in_size proc aux out_size buf max k tid w :
  max ≠ 0 →
  let o := Consumer (par_out w) (issued w + 1)%nat in
  let w' := par_final w in_size out_size proc aux tid 0 (bool_decide (is_Some handles)) in
  pipe_parallel 0 handles in_size proc aux out_size tid w
    = Done (Pipeline (Some (Producer (par_in w) (issued w))) (Some o),
            match handles with Some _ => Some (par_array w) | None => None end) w' ∧
  threads w' = threads w ∧
  pipe_pop (Some o) buf max k tid w' =
    Done [] (World (pipes w') (issued w') (heap w') (threads w') (oom w')
                   (trace w' ++ [(tid, EvPop o buf max [])])).
Proof.
  intros Hmax o w'. split_and!.
  - rewrite pipe_parallel_eq by (unfold INT_MAX; (lia || auto)).
    unfold par_result, o. simpl. rewrite !Nat.add_0_r. by destruct handles.
  - unfold w', par_final. simpl. by rewrite app_nil_r.
  - unfold pipe_pop, lookup_pipe. munfold. unfold o, w', par_final, par_out.
    cbn [c_pipe pipes]. rewrite lookup_middle1.
    cbn [consumer_refs items]. rewrite bool_decide_eq_false_2 by done.
    assert (is_null max = false) as -> by by apply N.eqb_neq.
    done.
Qed.



(** X9.  [pipe_trivial_pipeline] on a queue whose creator still holds its
    handle: the result is a new producer endpoint and a new consumer
    endpoint on that queue, issued in this order; the queue gains one
    reference of each kind and keeps its elements, its sizes and its
    creator's handle, which is still to be released; no other queue, no
    memory and no thread is touched. *)
Theorem pipe_trivial_pipeline_live q p tid w :
  pipes w !! q = Some p → handle_live p = true →
  pipe_trivial_pipeline q tid w =
    Done (Pipeline (Some (Producer q (issued w))) (Some (Consumer q (S (issued w)))))
         (World (<[q := Pipe (elem_size p) (limit p) (items p) (S (producer_refs p))
                             (S (consumer_refs p)) true]> (pipes w))
                (S (S (issued w))) (heap w) (threads w) (oom w)
                (trace w ++ [(tid, EvProducerNew q (Producer q (issued w)));
                             (tid, EvConsumerNew q (Consumer q (S (issued w))))])).
Proof.
  intros Hq Hlive. unfold pipe_trivial_pipeline.
  erewrite bind_run by (by eapply pipe_producer_new_eq).
  erewrite bind_run.
  2:{ eapply pipe_consumer_new_eq; cbn [pipes]; [by apply lookup_alter_same|done]. }
  cbn [pipes issued heap threads oom trace]. unfold mret, M_ret. f_equal. f_equal.
  - apply list_eq. intros i. destruct (decide (i = q)) as [->|Hi].
    + rewrite (lookup_alter_same _ _ _ (add_producer p)) by (by apply lookup_alter_same).
      rewrite list_lookup_insert_eq by (by eapply lookup_lt_Some).
      unfold add_consumer, add_producer. simpl. by rewrite Hlive.
    + by rewrite !list_lookup_alter_ne, list_lookup_insert_ne by done.
  - by rewrite <- (assoc_L (++)).
Qed.

(** X10.  [pipe_pipeline] on a descriptor list that starts with the
    sentinel: one queue is created and its creator's handle released, the
    result is a producer and a consumer endpoint on that one queue, no
    thread is created and [*count] and [*handles] are not even read (they
    come back as they were, whatever they hold). *)
Theorem pipe_pipeline_no_stage count handles first_size rest tid w :
  let q := length (pipes w) in
  pipe_pipeline count handles first_size (VaPtr 0 :: rest) tid w =
    Done (Pipeline (Some (Producer q (issued w))) (Some (Consumer q (S (issued w)))),
          count, handles)
         (World (pipes w ++ [Pipe first_size 0 [] 1 1 false])
                (S (S (issued w))) (heap w) (threads w) (oom w)
                (trace w ++ [(tid, EvPipeNew q first_size 0);
                             (tid, EvProducerNew q (Producer q (issued w)));
                             (tid, EvConsumerNew q (Consumer q (S (issued w))));
                             (tid, EvPipeFree q)])).
Proof.
  intros q. rewrite pipe_pipeline_start. cbv zeta.
  rewrite (bind_run _ _ _ _ _ _ (va_pipe_pipeline_sentinel _ _ _ _ _ _)).
  unfold pipeline_start. cbn [b_world b_result].
  erewrite bind_run by (eapply pipe_free_eq; [apply lookup_middle0|done]).
  cbn [pipes issued heap threads oom trace]. rewrite alter_middle0.
  unfold mret, M_ret. by rewrite <- (assoc_L (++)).
Qed.

(** X11.  An argument list that ends without the sentinel, after the
    descriptors [ds] or in the middle of a further descriptor, has no
    defined behaviour: [va_pipe_pipeline] builds the stages of [ds] and then
    takes an argument that is not there. *)
Theorem pipe_pipeline_missing_sentinel ds d k count handles first_size tid w :
  Forall real_stage ds → st_proc d ≠ 0 → (k < 3)%nat →
  registry_room (length ds) count handles w →
  pipe_pipeline count handles first_size (va_stages ds ++ take k (va_stage d)) tid w
    = Undefined.
Proof.
  intros Hds Hproc Hk Hroom. rewrite pipe_pipeline_start. cbv zeta.
  apply bind_Undefined.
  rewrite va_pipe_pipeline_chain; [|done|by eexists|done]. cbv zeta.
  assert (is_null (st_proc d) = false) as Hnull by by apply N.eqb_neq.
  destruct k as [|[|[|k]]]; [| | |lia]; cbn [take va_stage va_pipe_pipeline];
    rewrite ?Hnull; done.
Qed.

(** X12.  The registry cannot grow past [REGISTRY_MAX] handles.  From
    that count on (and below [2^29 - 1]) the byte size [new_count *
    sizeof( *handles)] no longer fits the [int] [new_size]: it wraps to a
    negative number, [realloc] is asked for more than [2^64 - 2^32] bytes
    and fails, and lines 195-206 leave [*count] and [*handles] as they
    were. *)
Theorem record_handle_int_overflow c hs t tid w :
  (REGISTRY_MAX ≤ c < 536870911)%Z →
  hs = NULL ∨ (∃ cells, heap_at hs w = Some (BHandles cells)) →
  record_handle (Some c) (Some hs) t tid w =
    Done (Some c, Some hs)
         (World (pipes w) (issued w) (heap w) (threads w) (drop 1 (oom w))
                (trace w ++ [(tid, EvRealloc hs (Z.to_N (18446744069414584320 + (c + 1) * 8))
                                             NULL)])).
Proof.
  intros Hc Hhs. unfold record_handle.
  rewrite bool_decide_eq_true_2 by (unfold INT_MAX, REGISTRY_MAX in *; lia).
  cbv zeta.
  assert (size_of_int (int_of_size (size_mul (size_of_int (c + 1)) sizeof_ptr))
          = Z.to_N (18446744069414584320 + (c + 1) * 8)) as ->.
  { unfold size_of_int, int_of_size, size_mul, sizeof_ptr, SIZE_MOD, INT_MAX,
      REGISTRY_MAX in *.
    change (2 ^ 64) with 18446744073709551616.
    rewrite (Z.mod_small (c + 1)) by lia.
    rewrite N.mod_small by lia.
    rewrite N2Z.inj_mul, Z2N.id by lia. change (Z.of_N 8) with 8%Z.
    rewrite (Z.mod_small ((c + 1) * 8)) by lia.
    destruct (Z.leb_spec ((c + 1) * 8) 2147483647); [lia|].
    f_equal. change (Z.of_N 18446744073709551616) with 18446744073709551616%Z.
    rewrite <- (Z.mod_add _ 1) by done. rewrite Z.mod_small by lia. lia. }
  set (bytes := Z.to_N _).
  assert (is_null bytes = false) as Hnz
    by (apply N.eqb_neq; unfold bytes, REGISTRY_MAX in *; lia).
  assert ((PTRDIFF_MAX <? bytes) = true) as Hbig.
  { apply N.ltb_lt. unfold PTRDIFF_MAX, bytes, REGISTRY_MAX in *.
    change (2 ^ 63 - 1) with 9223372036854775807. lia. }
  assert (realloc hs bytes tid w =
          Done NULL (World (pipes w) (issued w) (heap w) (threads w) (drop 1 (oom w))
                           (trace w ++ [(tid, EvRealloc hs bytes NULL)]))) as Hre.
  { unfold realloc. rewrite Hnz.
    assert ((if is_null hs then mret []
             else b ← load_block hs;
                  match b with BHandles cells => mret cells | _ => undefined end) tid w
            = Done (registry_cells hs w) w) as Hload.
    { unfold registry_cells. destruct Hhs as [->|[cells Hblk]]; [done|].
      assert (is_null hs = false) as ->.
      { unfold heap_at, block_at in Hblk. by destruct (is_null hs). }
      unfold load_block. munfold. by rewrite Hblk. }
    rewrite (bind_run _ _ _ _ _ _ Hload).
    rewrite (bind_run _ _ _ _ (default false (head (oom w))) (set_oom (drop 1) w)) by done.
    rewrite Hbig, orb_true_r. done. }
  rewrite (bind_run _ _ _ _ _ _ Hre). done.
Qed.

(** *** The registry when allocations fail *)

Lemma build_stage_unrecorded tid c hs hl r d w :
  registry_is c hs hl w →
  default false (head (oom w)) = true →
  let b' := build_stage tid (Build (Some c) (Some hs) r w) d in
  b_count b' = Some c ∧ b_handles b' = Some hs ∧
  registry_is c hs hl (b_world b') ∧
  oom (b_world b') = drop 1 (oom w).
Proof.
  intros [Hc Hhs] Hoom b'. unfold b', build_stage, recorded.
  cbn [b_count b_handles b_result b_world].
  change (oom (stage_connected r d tid w)) with (oom w). rewrite Hoom. cbn [fst snd].
  split_and!; [done|done| |done].
  split; [done|]. destruct (is_null hs); [done|].
  unfold heap_at in *. cbn [heap stage_connected]. by apply block_at_app.
Qed.

Lemma build_chain_kept tid ds c hs hl r w :
  registry_is c hs hl w → (c + Z.of_nat (length ds) ≤ REGISTRY_MAX)%Z →
  let b' := build_chain tid (Build (Some c) (Some hs) r w) ds in
  let kept := kept_handles (oom w) (new_handles (length (threads w)) (length ds)) in
  ∃ a, b_count b' = Some (c + Z.of_nat (length kept))%Z ∧ b_handles b' = Some a ∧
       registry_is (c + Z.of_nat (length kept)) a (hl ++ kept) (b_world b') ∧
       oom (b_world b') = drop (length ds) (oom w).
Proof.
  revert c hs hl r w. induction ds as [|d ds IH]; intros c hs hl r w Hreg Hmax b' kept.
  - exists hs. unfold b', kept, new_handles. simpl. rewrite Z.add_0_r, app_nil_r. done.
  - assert (registry_room 1 (Some c) (Some hs) w) as Hroom1
      by (apply (registry_is_room 1 c hs hl); [done|simpl in Hmax; lia]).
    destruct (build_stage_spec tid (Build (Some c) (Some hs) r w) d Hroom1)
      as (_ & _ & _ & _ & Ht1 & _).
    unfold b'.
    change (build_chain tid ?b (d :: ds)) with (build_chain tid (build_stage tid b d) ds).
    unfold kept, new_handles. cbn [length seq fmap list_fmap kept_handles].
    fold (new_handles (S (length (threads w))) (length ds)).
    destruct (default false (head (oom w))) eqn:Hhead.
    + destruct (build_stage_unrecorded tid c hs hl r d w Hreg Hhead)
        as (Hc1 & Hh1 & Hreg1 & Hoom1).
      destruct (build_stage tid (Build (Some c) (Some hs) r w) d)
        as [count1 handles1 r1 w1] eqn:Hb1.
      cbn [b_count b_handles b_world] in *. subst count1 handles1.
      destruct (IH c hs hl r1 w1 Hreg1) as (a' & Hc' & Hh' & Hreg' & Hoom').
      { simpl in Hmax. lia. }
      rewrite Ht1, length_app, Nat.add_1_r, Hoom1 in *.
      exists a'. split_and!; [done|done|done|].
      rewrite Hoom', drop_drop. done.
    + destruct (build_stage_registry tid c hs hl r d w Hreg ltac:(simpl in Hmax; lia) Hhead)
        as (a & Hc1 & Hh1 & Hreg1 & Hoom1).
      destruct (build_stage tid (Build (Some c) (Some hs) r w) d)
        as [count1 handles1 r1 w1] eqn:Hb1.
      cbn [b_count b_handles b_world] in *. subst count1 handles1.
      destruct (IH (c + 1)%Z a _ r1 w1 Hreg1) as (a' & Hc' & Hh' & Hreg' & Hoom').
      { simpl in Hmax. lia. }
      rewrite Ht1, length_app, Nat.add_1_r, Hoom1 in *.
      exists a'. cbn [length]. split_and!.
      * rewrite Hc'. f_equal. lia.
      * done.
      * rewrite <- (assoc_L (++)) in Hreg'. cbn [app] in Hreg'.
        replace (c + Z.of_nat (S (length _)))%Z
          with (c + 1 + Z.of_nat (length (kept_handles (drop 1 (oom w))
                                 (new_handles (S (length (threads w))) (length ds)))))%Z
          by lia.
        done.
      * rewrite Hoom', drop_drop. done.
Qed.

(** What [pipe_pipeline] makes of a registry when some of its [realloc]s
    fail. *)
Lemma pipe_pipeline_kept ds rest c hs hl first_size tid w :
  Forall real_stage ds →
  registry_is c hs hl w →
  (c + Z.of_nat (length ds) ≤ REGISTRY_MAX)%Z →
  let n := length ds in
  let created := new_handles (length (threads w)) n in
  let kept := kept_handles (oom w) created in
  ∃ pl a w' new,
    pipe_pipeline (Some c) (Some hs) first_size (va_stages ds ++ VaPtr 0 :: rest) tid w =
      Done (pl, Some (c + Z.of_nat (length kept))%Z, Some a) w' ∧
    threads w' = threads w ++ new ∧
    th_handle <$> new = created ∧
    registry_is (c + Z.of_nat (length kept)) a (hl ++ kept) w' ∧
    oom w' = drop n (oom w).
Proof.
  intros Hds Hreg Hmax n created kept.
  pose proof (registry_is_room n c hs hl w Hreg Hmax) as Hroom.
  pose proof (pipe_pipeline_sentinel_eq (Some c) (Some hs) first_size ds rest tid w Hds Hroom)
    as Hrun. cbv zeta in Hrun.
  destruct (build_chain_spec tid ds _
              (pipeline_start_room _ _ _ first_size tid _ Hroom))
    as (_ & _ & _ & _ & (new & Ht & Hh & _) & _).
  destruct (build_chain_kept tid ds c hs hl
              (b_result (pipeline_start (Some c) (Some hs) first_size tid w))
              (b_world (pipeline_start (Some c) (Some hs) first_size tid w)))
    as (a & Hc' & Hh' & Hreg' & Hoom'); [done|done|].
  change (build_chain tid _ ds) with (pipeline_chain (Some c) (Some hs) first_size ds tid w) in *.
  set (b := pipeline_chain (Some c) (Some hs) first_size ds tid w) in *.
  cbn [pipeline_start b_result b_world threads oom] in *.
  rewrite Hc', Hh' in Hrun.
  eexists _, a, _, new. split; [exact Hrun|].
  cbn [threads oom]. split_and!; [done|done| |done].
  destruct Hreg' as [Hlen Hblk]. split; [done|].
  destruct (is_null a); [done|]. exact Hblk.
Qed.

Lemma kept_handles_sublist oom hs : kept_handles oom hs `sublist_of` hs.
Proof.
  revert oom. induction hs as [|h hs IH]; intros oom; [done|]. simpl.
  destruct (default false (head oom)); [by apply sublist_cons|by apply sublist_skip].
Qed.

(** X13.  Whichever of its [realloc]s fail, [pipe_pipeline] creates the
    thread of every stage and leaves a registry that is consistent: the
    array holds the handles it held before, followed by the handles of
    exactly the stages whose [realloc] succeeded, in construction order, and
    [*count] is the number of handles in the array. *)
Theorem pipe_pipeline_registry_consistent ds rest c hs hl first_size tid w :
  Forall real_stage ds →
  registry_is c hs hl w →
  (c + Z.of_nat (length ds) ≤ REGISTRY_MAX)%Z →
  let n := length ds in
  let created := new_handles (length (threads w)) n in
  let kept := kept_handles (oom w) created in
  kept `sublist_of` created ∧
  ∃ pl a w' new,
    pipe_pipeline (Some c) (Some hs) first_size (va_stages ds ++ VaPtr 0 :: rest) tid w =
      Done (pl, Some (c + Z.of_nat (length kept))%Z, Some a) w' ∧
    threads w' = threads w ++ new ∧
    th_handle <$> new = created ∧
    registry_is (c + Z.of_nat (length kept)) a (hl ++ kept) w' ∧
    oom w' = drop n (oom w).
Proof.
  intros Hds Hreg Hmax n created kept. split; [apply kept_handles_sublist|].
  by apply pipe_pipeline_kept.
Qed.


(** ** The worker on an input that is closed *)

Lemma framed_refl i c o w : framed i c o w w.
Proof. done. Qed.

Lemma framed_trans i c o w1 w2 w3 :
  framed i c o w1 w2 → framed i c o w2 w3 → framed i c o w1 w3.
Proof.
  intros (Hl1 & Ht1 & Hp1) (Hl2 & Ht2 & Hp2). split_and!.
  - congruence.
  - intros j Hj. by rewrite Ht2, Ht1.
  - intros q H1 H2. by rewrite Hp2, Hp1.
Qed.

Lemma pipe_producer_free_eq o q tid w :
  pipes w !! p_pipe o = Some q → producer_refs q ≠ 0%nat →
  pipe_producer_free (Some o) tid w =
    Done () (World (alter drop_producer (p_pipe o) (pipes w)) (issued w) (heap w)
                   (threads w) (oom w) (trace w ++ [(tid, EvProducerFree o)])).
Proof.
  intros Hq Hrefs. unfold pipe_producer_free, lookup_pipe, update_pipe. munfold.
  by rewrite Hq, bool_decide_eq_false_2.
Qed.

(** The steps of the worker at index [i], whose data [p] connect the
    consumer endpoint [c] to the producer endpoint [o] of another queue. *)
Section Alone.
Variables (code : code_table) (i : nat) (t : THREAD_HANDLE)
          (c : pipe_consumer_t) (o : pipe_producer_t)
          (p : connect_data_t) (body : proc_body).
Hypothesis Hin : cd_in p = Some c.
Hypothesis Hout : cd_out p = Some o.
Hypothesis Hcode : code (cd_proc p) = Some body.
Hypothesis Hdistinct : c_pipe c ≠ p_pipe o.

Lemma alone_thread pc pc' qi qo qi' qo' h w ps n h' o' tr :
  alone i t c o pc qi qo h w →
  ps !! c_pipe c = Some qi' → ps !! p_pipe o = Some qo' →
  (∀ q, q ≠ c_pipe c → q ≠ p_pipe o → ps !! q = pipes w !! q) →
  let w' := set_threads (<[i := Thread t pc']>) (World ps n h' (threads w) o' tr) in
  alone i t c o pc' qi' qo' h' w' ∧ framed i c o w w'.
Proof.
  intros (Hth & _) Hqi Hqo Hps. unfold alone, framed, set_threads.
  cbn [threads pipes heap]. split_and!; try done.
  - apply list_lookup_insert_eq. by eapply lookup_lt_Some.
  - apply length_insert.
  - intros j Hj. by apply list_lookup_insert_ne.
Qed.

Lemma alone_entry param k qi qo h w :
  alone i t c o (PcEntry param) qi qo h w →
  block_at param h = Some (BConnect (Some p)) →
  ∃ w', step_thread code i k w = Done () w' ∧
        alone i t c o (PcAlloc p) qi qo (<[Nat.pred (N.to_nat param) := None]> h) w' ∧
        framed i c o w w'.
Proof.
  intros Hal Hblk. pose proof Hal as (Hth & Hqi & Hqo & Hh). subst h.
  unfold step_thread. rewrite Hth. cbn [th_pc th_handle process_pipe].
  rewrite (bind_run _ _ _ _ (BConnect (Some p)) w)
    by (unfold load_block, heap_at; by rewrite Hblk).
  erewrite bind_run by (by eapply free_eq).
  unfold mret, M_ret. eexists. split; [done|]. by eapply alone_thread.
Qed.

Lemma alone_alloc k qi qo h w :
  alone i t c o (PcAlloc p) qi qo h w →
  ∃ w', step_thread code i k w = Done () w' ∧
        alone i t c o (PcPop p (N.of_nat (S (length h)))) qi qo
              (h ++ [Some (BScratch (size_mul DEFAULT_BUFFER_SIZE (elem_size qi)))]) w' ∧
        framed i c o w w'.
Proof.
  intros Hal. pose proof Hal as (Hth & Hqi & Hqo & Hh). subst h.
  unfold step_thread. rewrite Hth. cbn [th_pc th_handle process_pipe]. rewrite Hin.
  unfold pipe_elem_size, lookup_pipe, malloc, fresh_block. munfold. rewrite Hqi. wsimpl.
  eexists. split; [done|]. by eapply alone_thread.
Qed.

Lemma alone_pop_end k buf qi qo h w :
  alone i t c o (PcPop p buf) qi qo h w →
  items qi = [] → pipe_open qi = false → consumer_refs qi ≠ 0%nat →
  ∃ w', step_thread code i k w = Done () w' ∧
        alone i t c o (PcEos p buf) qi qo h w' ∧ framed i c o w w'.
Proof.
  intros Hal Hitems Hopen Hrefs. pose proof Hal as (Hth & Hqi & Hqo & Hh). subst h.
  unfold step_thread. rewrite Hth. cbn [th_pc th_handle process_pipe]. rewrite Hin.
  unfold pipe_pop, lookup_pipe. munfold. rewrite Hqi, Hitems, Hopen.
  rewrite bool_decide_eq_false_2 by done. wsimpl.
  eexists. split; [done|]. by eapply alone_thread.
Qed.

Lemma alone_pop_batch k buf qi qo h w :
  alone i t c o (PcPop p buf) qi qo h w →
  items qi ≠ [] → consumer_refs qi ≠ 0%nat →
  let n := granted k DEFAULT_BUFFER_SIZE (length (items qi)) in
  ∃ w', step_thread code i k w = Done () w' ∧
        alone i t c o (PcProc p buf (take n (items qi)))
              (set_items (drop n (items qi)) qi) qo h w' ∧
        framed i c o w w'.
Proof.
  intros Hal Hitems Hrefs n. pose proof Hal as (Hth & Hqi & Hqo & Hh). subst h.
  unfold step_thread. rewrite Hth. cbn [th_pc th_handle process_pipe]. rewrite Hin.
  unfold pipe_pop, lookup_pipe, update_pipe. munfold. rewrite Hqi.
  rewrite bool_decide_eq_false_2 by done.
  destruct (items qi) as [|x l] eqn:Hl; [done|]. wsimpl. fold n.
  assert (take n (x :: l) ≠ []) as Hne.
  { unfold n, granted. simpl. destruct (Nat.max _ _) eqn:Hm; [lia|done]. }
  destruct (take n (x :: l)) as [|y l'] eqn:Htake; [done|].
  eexists. split; [done|].
  eapply alone_thread; [done| | |].
  - by apply lookup_alter_same.
  - by rewrite list_lookup_alter_ne.
  - intros q Hq _. by apply list_lookup_alter_ne.
Qed.

Lemma push_all_eq pushes qo tid w :
  pipes w !! p_pipe o = Some qo → producer_refs qo ≠ 0%nat →
  ∃ tr, push_all (Some o) pushes tid w =
    Done () (World (<[p_pipe o := set_items (items qo ++ concat pushes) qo]> (pipes w))
                   (issued w) (heap w) (threads w) (oom w) (trace w ++ tr)).
Proof.
  revert qo w. induction pushes as [|e pushes IH]; intros qo w Hqo Hrefs.
  - exists []. cbn [push_all concat]. unfold mret, M_ret. f_equal.
    destruct w as [ps n h ts om tr0]. cbn [pipes issued heap threads oom trace] in *.
    rewrite !app_nil_r. f_equal. symmetry. apply list_insert_id.
    etrans; [exact Hqo|]. by destruct qo.
  - cbn [push_all concat].
    assert (pipe_push (Some o) e tid w =
            Done () (World (<[p_pipe o := set_items (items qo ++ e) qo]> (pipes w))
                           (issued w) (heap w) (threads w) (oom w)
                           (trace w ++ [(tid, EvPush o e)]))) as Hpush.
    { unfold pipe_push, lookup_pipe, update_pipe. munfold. rewrite Hqo.
      rewrite bool_decide_eq_false_2 by done. wsimpl. do 2 f_equal.
      apply list_eq. intros j. destruct (decide (j = p_pipe o)) as [->|Hj].
      - rewrite (lookup_alter_same _ _ _ qo) by done.
        by rewrite list_lookup_insert_eq by (by eapply lookup_lt_Some).
      - by rewrite list_lookup_alter_ne, list_lookup_insert_ne. }
    rewrite (bind_run _ _ _ _ _ _ Hpush).
    match goal with
    | |- context [push_all _ _ _ ?W] =>
        destruct (IH (set_items (items qo ++ e) qo) W) as [tr Hrest]; [|done|]
    end.
    { cbn [pipes]. apply list_lookup_insert_eq. by eapply lookup_lt_Some. }
    rewrite Hrest. cbn [pipes issued heap threads oom trace].
    exists ((tid, EvPush o e) :: tr). f_equal. f_equal.
    + rewrite list_insert_insert_eq. f_equal. unfold set_items. simpl.
      by rewrite (assoc_L (++)).
    + by rewrite <- (assoc_L (++)).
Qed.

Lemma alone_proc k buf batch qi qo h w :
  alone i t c o (PcProc p buf batch) qi qo h w →
  producer_refs qo ≠ 0%nat →
  ∃ w', step_thread code i k w = Done () w' ∧
        alone i t c o (PcPop p buf) qi
              (set_items (items qo ++ concat (body batch (N.of_nat (length batch)) (cd_aux p))) qo)
              h w' ∧
        framed i c o w w'.
Proof.
  intros Hal Hrefs. pose proof Hal as (Hth & Hqi & Hqo & Hh). subst h.
  unfold step_thread. rewrite Hth. cbn [th_pc th_handle process_pipe].
  unfold call_proc. rewrite Hcode, Hout.
  destruct (push_all_eq (body batch (N.of_nat (length batch)) (cd_aux p)) qo t
              (set_trace (λ tr, tr ++ [(t, EvProc (cd_proc p) buf (N.of_nat (length batch))
                                           (Some o) (cd_aux p))]) w))
    as [tr Hpush]; [exact Hqo|done|].
  erewrite bind_run by (erewrite bind_run by done; exact Hpush).
  unfold mret, M_ret. eexists. split; [done|].
  cbn [pipes issued heap threads oom trace set_trace].
  eapply alone_thread; [done| | |].
  - by rewrite list_lookup_insert_ne.
  - apply list_lookup_insert_eq. by eapply lookup_lt_Some.
  - intros q _ Hq. by apply list_lookup_insert_ne.
Qed.

Hypothesis Heos : body [] 0 (cd_aux p) = [].

Lemma alone_eos k buf qi qo h w :
  alone i t c o (PcEos p buf) qi qo h w →
  ∃ w', step_thread code i k w = Done () w' ∧
        alone i t c o (PcFreeBuf p buf) qi qo h w' ∧ framed i c o w w'.
Proof.
  intros Hal. pose proof Hal as (Hth & Hqi & Hqo & Hh). subst h.
  unfold step_thread. rewrite Hth. cbn [th_pc th_handle process_pipe].
  unfold call_proc. rewrite Hcode, Heos. cbn [push_all]. munfold. wsimpl.
  eexists. split; [done|]. by eapply alone_thread.
Qed.

Lemma alone_free_buf k buf b qi qo h w :
  alone i t c o (PcFreeBuf p buf) qi qo h w →
  block_at buf h = Some b →
  ∃ w', step_thread code i k w = Done () w' ∧
        alone i t c o (PcFreeIn p) qi qo (<[Nat.pred (N.to_nat buf) := None]> h) w' ∧
        framed i c o w w'.
Proof.
  intros Hal Hblk. pose proof Hal as (Hth & Hqi & Hqo & Hh). subst h.
  unfold step_thread. rewrite Hth. cbn [th_pc th_handle process_pipe].
  erewrite bind_run by (by eapply free_eq).
  unfold mret, M_ret. eexists. split; [done|]. by eapply alone_thread.
Qed.

Lemma alone_free_in k qi qo h w :
  alone i t c o (PcFreeIn p) qi qo h w →
  consumer_refs qi ≠ 0%nat →
  ∃ w', step_thread code i k w = Done () w' ∧
        alone i t c o (PcFreeOut p) (drop_consumer qi) qo h w' ∧ framed i c o w w'.
Proof.
  intros Hal Hrefs. pose proof Hal as (Hth & Hqi & Hqo & Hh). subst h.
  unfold step_thread. rewrite Hth. cbn [th_pc th_handle process_pipe]. rewrite Hin.
  erewrite bind_run by (by eapply pipe_consumer_free_eq).
  unfold mret, M_ret. eexists. split; [done|]. eapply alone_thread; [done| | |].
  - by apply lookup_alter_same.
  - by rewrite list_lookup_alter_ne.
  - intros q Hq _. by apply list_lookup_alter_ne.
Qed.

Lemma alone_free_out k qi qo h w :
  alone i t c o (PcFreeOut p) qi qo h w →
  producer_refs qo ≠ 0%nat →
  ∃ w', step_thread code i k w = Done () w' ∧
        alone i t c o PcExit qi (drop_producer qo) h w' ∧ framed i c o w w'.
Proof.
  intros Hal Hrefs. pose proof Hal as (Hth & Hqi & Hqo & Hh). subst h.
  unfold step_thread. rewrite Hth. cbn [th_pc th_handle process_pipe]. rewrite Hout.
  erewrite bind_run by (by eapply pipe_producer_free_eq).
  unfold mret, M_ret. eexists. split; [done|]. eapply alone_thread; [done| | |].
  - by rewrite list_lookup_alter_ne.
  - by apply lookup_alter_same.
  - intros q _ Hq. by apply list_lookup_alter_ne.
Qed.

(** From the head of the loop to the exit, on an input queue that is closed
    on its input side. *)
Lemma alone_loop n : ∀ buf b qi qo h ks w,
  (length (items qi) ≤ n)%nat →
  alone i t c o (PcPop p buf) qi qo h w →
  pipe_open qi = false → consumer_refs qi ≠ 0%nat → producer_refs qo ≠ 0%nat →
  block_at buf h = Some b →
  (2 * length (items qi) + 5 ≤ length ks)%nat →
  ∃ bs w',
    run_thread code i (take (2 * length bs + 5) ks) w = Done () w' ∧
    concat bs = items qi ∧ Forall good_batch bs ∧
    alone i t c o PcExit (drop_consumer (set_items [] qi))
          (drop_producer (set_items (items qo ++ pushed body (cd_aux p) bs) qo))
          (<[Nat.pred (N.to_nat buf) := None]> h) w' ∧
    framed i c o w w'.
Proof.
  induction n as [|n IH]; intros buf b qi qo h ks w Hn Hal Hopen Hcr Hpr Hblk Hks.
  - assert (items qi = []) as Hnil by (destruct (items qi); [done|simpl in Hn; lia]).
    rewrite Hnil in *. simpl in Hks.
    destruct ks as [|k1 [|k2 [|k3 [|k4 [|k5 ks]]]]]; simpl in Hks; try lia.
    destruct (alone_pop_end k1 _ _ _ _ _ Hal Hnil Hopen Hcr) as (w1 & Hs1 & Hal1 & Hf1).
    destruct (alone_eos k2 _ _ _ _ _ Hal1) as (w2 & Hs2 & Hal2 & Hf2).
    destruct (alone_free_buf k3 _ _ _ _ _ _ Hal2 Hblk) as (w3 & Hs3 & Hal3 & Hf3).
    destruct (alone_free_in k4 _ _ _ _ Hal3 Hcr) as (w4 & Hs4 & Hal4 & Hf4).
    destruct (alone_free_out k5 _ _ _ _ Hal4 Hpr) as (w5 & Hs5 & Hal5 & Hf5).
    exists [], w5. split_and!; [|done|done| |].
    + cbn [length Nat.mul Nat.add take run_thread]. by rewrite Hs1, Hs2, Hs3, Hs4, Hs5.
    + unfold pushed. cbn [fmap list_fmap concat]. rewrite app_nil_r.
      replace (set_items [] qi) with qi by (destruct qi; simpl in *; by subst).
      replace (set_items (items qo) qo) with qo by (by destruct qo). done.
    + eauto using framed_trans.
  - destruct (decide (items qi = [])) as [Hnil|Hne].
    { apply (IH buf b qi qo h ks w); try done. rewrite Hnil. simpl. lia. }
    destruct (items qi) as [|x l] eqn:Hitems; [done|].
    destruct ks as [|k1 [|k2 ks]]; simpl in Hks; try lia.
    destruct (alone_pop_batch k1 _ _ _ _ _ Hal) as (w1 & Hs1 & Hal1 & Hf1);
      [by rewrite Hitems|done|].
    cbv zeta in Hal1. rewrite Hitems in Hal1.
    set (m := granted k1 DEFAULT_BUFFER_SIZE (length (x :: l))) in *.
    assert (1 ≤ m ≤ 128)%nat as Hm by (unfold m, granted, DEFAULT_BUFFER_SIZE; lia).
    set (batch := take m (x :: l)) in *.
    destruct (alone_proc k2 _ _ _ _ _ _ Hal1 Hpr) as (w2 & Hs2 & Hal2 & Hf2).
    destruct (IH buf b (set_items (drop m (x :: l)) qi)
                (set_items (items qo ++ concat (body batch (N.of_nat (length batch))
                                                       (cd_aux p))) qo) h ks w2)
      as (bs & w' & Hrun & Hcat & Hgood & Hal' & Hf');
      [|exact Hal2|done|done|done|done| |].
    { cbn [set_items items]. rewrite length_drop. simpl in *. lia. }
    { cbn [set_items items]. rewrite length_drop. simpl in *. lia. }
    cbn [set_items items elem_size limit producer_refs consumer_refs handle_live] in *.
    exists (batch :: bs), w'. split_and!.
    + replace (2 * length (batch :: bs) + 5)%nat with (S (S (2 * length bs + 5)))
        by (simpl; lia).
      cbn [take run_thread]. by rewrite Hs1, Hs2.
    + cbn [concat]. rewrite Hcat. apply take_drop.
    + constructor; [|done]. split.
      * unfold batch. destruct m; [lia|done].
      * unfold batch, DEFAULT_BUFFER_SIZE. rewrite length_take. lia.
    + unfold pushed in *. cbn [fmap list_fmap concat]. rewrite concat_app.
      rewrite <- (assoc_L (++)) in Hal'. exact Hal'.
    + eauto using framed_trans.
Qed.
End Alone.

(** The whole run of the worker, from the entry of [process_pipe]. *)
Lemma alone_run code i t param c o proc aux body qi qo ks w :
  threads w !! i = Some (Thread t (PcEntry param)) →
  heap_at param w = Some (BConnect (Some (ConnectData (Some c) proc aux (Some o)))) →
  code proc = Some body → body [] 0 aux = [] →
  c_pipe c ≠ p_pipe o →
  pipes w !! c_pipe c = Some qi → pipe_open qi = false → consumer_refs qi ≠ 0%nat →
  pipes w !! p_pipe o = Some qo → producer_refs qo ≠ 0%nat →
  (2 * length (items qi) + 7 ≤ length ks)%nat →
  ∃ bs w',
    run_thread code i (take (2 * length bs + 7) ks) w = Done () w' ∧
    concat bs = items qi ∧ Forall good_batch bs ∧
    alone i t c o PcExit (drop_consumer (set_items [] qi))
          (drop_producer (set_items (items qo ++ pushed body aux bs) qo))
          (<[Nat.pred (N.to_nat param) := None]> (heap w) ++ [None]) w' ∧
    framed i c o w w'.
Proof.
  intros Hth Hblk Hcode Heos Hne Hqi Hopen Hcr Hqo Hpr Hks.
  set (p := ConnectData (Some c) proc aux (Some o)) in *.
  assert (alone i t c o (PcEntry param) qi qo (heap w) w) as Hal by done.
  destruct ks as [|k1 [|k2 ks]]; simpl in Hks; try lia.
  destruct (alone_entry code i t c o p param k1 qi qo (heap w) w Hal Hblk)
    as (w1 & Hs1 & Hal1 & Hf1).
  destruct (alone_alloc code i t c o p eq_refl k2 qi qo _ w1 Hal1) as (w2 & Hs2 & Hal2 & Hf2).
  set (h1 := <[Nat.pred (N.to_nat param) := None]> (heap w)) in *.
  destruct (alone_loop code i t c o p body eq_refl eq_refl Hcode Hne Heos
              (length (items qi)) _ _ qi qo _ ks w2 (Nat.le_refl _) Hal2 Hopen Hcr Hpr
              (block_at_fresh h1 _))
    as (bs & w' & Hrun & Hcat & Hgood & Hal' & Hf'); [lia|].
  exists bs, w'. split_and!; try done.
  - replace (2 * length bs + 7)%nat with (S (S (2 * length bs + 5))) by lia.
    cbn [take run_thread]. by rewrite Hs1, Hs2.
  - rewrite pred_to_nat_of_nat_S, insert_snoc in Hal'. exact Hal'.
  - eauto using framed_trans.
Qed.

(** X15.  The worker on an input queue that is closed on its input side
    (no producer endpoint, creator's handle released) and holds [items qi],
    running a processing function [body] that pushes nothing at the end of
    the stream, with nothing else running.  Whatever numbers of elements
    the pops hand over ([ks]), [process_pipe] reaches its end after exactly
    [2 * length bs + 7] steps, where the batches [bs] it has handed to the
    function are non-empty, of at most 128 elements, and make up the content
    of the queue in order.  The output queue has then received, in order,
    what the function pushed for each batch; the input queue is empty; the
    worker's two endpoints are released; its argument block and its scratch
    buffer are freed. *)
Theorem process_pipe_drains code i t param c o proc aux body qi qo ks w :
  threads w !! i = Some (Thread t (PcEntry param)) →
  heap_at param w = Some (BConnect (Some (ConnectData (Some c) proc aux (Some o)))) →
  code proc = Some body → body [] 0 aux = [] →
  c_pipe c ≠ p_pipe o →
  pipes w !! c_pipe c = Some qi → pipe_open qi = false → consumer_refs qi ≠ 0%nat →
  pipes w !! p_pipe o = Some qo → producer_refs qo ≠ 0%nat →
  (2 * length (items qi) + 7 ≤ length ks)%nat →
  ∃ bs w',
    run_thread code i (take (2 * length bs + 7) ks) w = Done () w' ∧
    concat bs = items qi ∧ Forall good_batch bs ∧
    threads w' !! i = Some (Thread t PcExit) ∧
    pipes w' !! c_pipe c = Some (drop_consumer (set_items [] qi)) ∧
    pipes w' !! p_pipe o =
      Some (drop_producer (set_items (items qo ++ pushed body aux bs) qo)) ∧
    heap w' = <[Nat.pred (N.to_nat param) := None]> (heap w) ++ [None].
Proof.
  intros Hth Hblk Hcode Heos Hne Hqi Hopen Hcr Hqo Hpr Hks.
  destruct (alone_run code i t param c o proc aux body qi qo ks w)
    as (bs & w' & Hrun & Hcat & Hgood & (Hth' & Hqi' & Hqo' & Hheap) & _); try done.
  exists bs, w'. done.
Qed.

(** ** A pipeline of maps, stage after stage *)

Lemma run_sched_app code s1 s2 w w1 :
  run_sched code s1 w = Done () w1 →
  run_sched code (s1 ++ s2) w = run_sched code s2 w1.
Proof.
  revert w. induction s1 as [|[i k] s1 IH]; intros w Hrun.
  - by injection Hrun as ->.
  - cbn [app run_sched] in *. destruct (step_thread code i k w) as [[] w'| | |]; try done.
    by apply IH.
Qed.

Lemma run_thread_sched code i ks w :
  run_thread code i ks w = run_sched code (pair i <$> ks) w.
Proof.
  revert w. induction ks as [|k ks IH]; intros w; [done|].
  cbn [run_thread fmap list_fmap run_sched].
  destruct (step_thread code i k w) as [[] w'| | |]; try done.
Qed.

Lemma pushed_map f aux bs :
  Forall good_batch bs → pushed (map_body f) aux bs = f <$> concat bs.
Proof.
  unfold pushed. induction 1 as [|b bs [Hne _] _ IH]; [done|].
  cbn [fmap list_fmap concat]. rewrite concat_app, IH, fmap_app. f_equal.
  unfold map_body. destruct b; [done|]. simpl. by rewrite app_nil_r.
Qed.

Lemma pipe_push_eq o q elems tid w :
  pipes w !! p_pipe o = Some q → producer_refs q ≠ 0%nat →
  pipe_push (Some o) elems tid w =
    Done () (World (alter (λ q, set_items (items q ++ elems) q) (p_pipe o) (pipes w))
                   (issued w) (heap w) (threads w) (oom w)
                   (trace w ++ [(tid, EvPush o elems)])).
Proof.
  intros Hq Hrefs. unfold pipe_push, lookup_pipe, update_pipe. munfold.
  by rewrite Hq, bool_decide_eq_false_2.
Qed.

Lemma stages_inv_step code ds k d f ys w :
  stages_inv ds k ys w →
  ds !! k = Some d → code (st_proc d) = Some (map_body f) →
  ∃ ks w', run_thread code k ks w = Done () w' ∧ stages_inv ds (S k) (f <$> ys) w'.
Proof.
  intros (Hlen & Hheap & Hexit & Hrest & [sz Hq]) Hd Hcode.
  destruct (Hrest k d (Nat.le_refl _) Hd) as (Hth & Hblk & Hqo).
  destruct (alone_run code k (N.of_nat (S k)) (N.of_nat (S k))
              (Consumer k (2 * k + 1)) (Producer (S k) (2 * k + 2))
              (st_proc d) (st_aux d) (map_body f)
              (Pipe sz 0 ys 0 1 false) (Pipe (st_size d) 0 [] 1 1 false)
              (replicate (2 * length ys + 7) 0%nat) w)
    as (bs & w' & Hrun & Hcat & Hgood & (Hth' & Hqi' & Hqo' & Hheap') & (Hfl & Hft & Hfp));
    try done.
  { unfold heap_at, block_at. rewrite is_null_of_nat_S, pred_to_nat_of_nat_S, Hblk. done. }
  { by rewrite length_replicate. }
  cbn [c_pipe p_pipe items] in *.
  eexists _, w'. split; [exact Hrun|].
  rewrite pred_to_nat_of_nat_S in Hheap'.
  split_and!.
  - congruence.
  - rewrite Hheap', length_app, length_insert. simpl. lia.
  - intros j Hj. destruct (decide (j = k)) as [->|Hjk].
    + by rewrite Hth'.
    + rewrite Hft by done. apply Hexit. lia.
  - intros j d' Hj Hd'. destruct (Hrest j d' ltac:(lia) Hd') as (Hth1 & Hblk1 & Hq1).
    split_and!.
    + rewrite Hft by lia. done.
    + rewrite Hheap'. rewrite lookup_app_l by (rewrite length_insert; by eapply lookup_lt_Some).
      rewrite list_lookup_insert_ne by lia. done.
    + rewrite Hfp by lia. done.
  - exists (st_size d). etrans; [exact Hqo'|]. f_equal.
    unfold drop_producer, set_items. simpl. rewrite pushed_map, Hcat by done. done.
Qed.

Lemma stages_inv_run code (dfs : list (stage * (elem → elem))) m : ∀ k ys w,
  Forall (λ df, code (st_proc df.1) = Some (map_body df.2)) dfs →
  (k + m = length dfs)%nat →
  stages_inv (fst <$> dfs) k ys w →
  ∃ sched w',
    run_sched code sched w = Done () w' ∧
    stages_inv (fst <$> dfs) (length dfs) (foldl (λ zs df, df.2 <$> zs) ys (drop k dfs)) w'.
Proof.
  induction m as [|m IH]; intros k ys w Hcode Hk Hinv.
  - exists [], w. split; [done|].
    replace k with (length dfs) in * by lia. by rewrite drop_all.
  - destruct (dfs !! k) as [[d f]|] eqn:Hdf;
      [|apply lookup_ge_None in Hdf; lia].
    assert (code (st_proc d) = Some (map_body f)) as Hc
      by (by apply (Forall_lookup_1 _ _ _ _ Hcode Hdf)).
    destruct (stages_inv_step code (fst <$> dfs) k d f ys w Hinv) as (ks & w1 & Hrun & Hinv1);
      [by rewrite list_lookup_fmap, Hdf|done|].
    destruct (IH (S k) (f <$> ys) w1 Hcode ltac:(lia) Hinv1) as (sched & w' & Hrun' & Hinv').
    exists ((pair k <$> ks) ++ sched), w'. split.
    + rewrite (run_sched_app _ _ _ _ w1) by (by rewrite <- run_thread_sched). done.
    + by rewrite (drop_S _ _ _ Hdf).
Qed.

Lemma build_chain_none_threads tid ds b :
  b_count b = None ∨ b_handles b = None →
  threads (b_world (build_chain tid b ds)) =
    threads (b_world b) ++
      ((λ j, Thread (N.of_nat (S (length (threads (b_world b)) + j)))
                    (PcEntry (N.of_nat (S (length (heap (b_world b)) + j)))))
         <$> seq 0 (length ds)).
Proof.
  revert b. induction ds as [|d ds IH]; intros b Hnone.
  - simpl. by rewrite app_nil_r.
  - change (build_chain tid b (d :: ds)) with (build_chain tid (build_stage tid b d) ds).
    assert (b_count (build_stage tid b d) = b_count b ∧
            b_handles (build_stage tid b d) = b_handles b ∧
            threads (b_world (build_stage tid b d)) =
              threads (b_world b) ++
                [Thread (N.of_nat (S (length (threads (b_world b)))))
                        (PcEntry (N.of_nat (S (length (heap (b_world b))))))] ∧
            length (heap (b_world (build_stage tid b d))) = S (length (heap (b_world b))))
      as (Hc & Hh & Ht & Hheap).
    { unfold build_stage. rewrite recorded_none by done.
      cbn [b_count b_handles b_world fst snd threads heap stage_connected].
      split_and!; try done. rewrite length_app. simpl. lia. }
    rewrite IH by (by rewrite Hc, Hh). rewrite Ht, Hheap, length_app, <- (assoc_L (++)).
    f_equal. cbn [length seq fmap list_fmap app]. rewrite !Nat.add_0_r. f_equal.
    rewrite <- fmap_S_seq, <- list_fmap_compose. apply list_fmap_ext. intros _ j _. simpl.
    do 2 f_equal; f_equal; lia.
Qed.

Lemma chain_data_lookup ds : ∀ q i j d,
  ds !! j = Some d →
  chain_data (Some (Consumer q (S i))) (S q) (S (S i)) ds !! j =
    Some (ConnectData (Some (Consumer (q + j)%nat (S i + 2 * j))) (st_proc d) (st_aux d)
                      (Some (Producer (S q + j)%nat (S (S i) + 2 * j)))).
Proof.
  induction ds as [|d0 ds IH]; intros q i j d Hd; [done|].
  destruct j as [|j].
  - injection Hd as ->. cbn [chain_data lookup list_lookup].
    do 3 f_equal; f_equal; lia.
  - cbn [chain_data]. change ((?x :: ?l) !! S j) with (l !! j).
    rewrite (IH (S q) (S (S i)) j d Hd). do 3 f_equal; f_equal; lia.
Qed.

Lemma chain_data_length ds : ∀ prev q i, length (chain_data prev q i ds) = length ds.
Proof. induction ds as [|d ds IH]; intros prev q i; [done|]. simpl. by rewrite IH. Qed.

(** What a fresh process has after [pipe_pipeline] with no registry. *)
Lemma pipe_pipeline_fresh ds first_size tid :
  Forall real_stage ds →
  let n := length ds in
  ∃ w0,
    pipe_pipeline None None first_size (va_stages ds ++ [VaPtr 0]) tid empty_world =
      Done (Pipeline (Some (Producer 0%nat 0)) (Some (Consumer n (2 * n + 1))), None, None) w0 ∧
    pipes w0 = Pipe first_size 0 [] 1 1 false
                 :: ((λ d, Pipe (st_size d) 0 [] 1 1 false) <$> ds) ∧
    threads w0 = (λ j, Thread (N.of_nat (S j)) (PcEntry (N.of_nat (S j)))) <$> seq 0 n ∧
    heap w0 = (Some ∘ BConnect ∘ Some <$> chain_data (Some (Consumer 0%nat 1)) 1 2 ds).
Proof.
  intros Hds n.
  assert (registry_room n None None empty_world) as Hroom by done.
  pose proof (pipe_pipeline_sentinel_eq None None first_size ds [] tid empty_world Hds Hroom)
    as Hrun. cbv zeta in Hrun.
  destruct (build_chain_spec tid ds _
              (pipeline_start_room _ _ _ first_size tid _ Hroom))
    as (_ & _ & Hin & Hout & _).
  destruct (build_chain_unrecorded tid ds (pipeline_start None None first_size tid empty_world)
              (or_introl eq_refl)) as (Hc & Hhs & Hheap & _).
  pose proof (build_chain_none_threads tid ds
                (pipeline_start None None first_size tid empty_world) (or_introl eq_refl)) as Hth.
  pose proof (pipeline_chain_pipes None None first_size ds tid empty_world Hroom) as Hp.
  change (build_chain tid _ ds) with (pipeline_chain None None first_size ds tid empty_world) in *.
  set (b := pipeline_chain None None first_size ds tid empty_world) in *.
  cbn [pipeline_start b_result b_world b_count b_handles pl_in pl_out
       pipes issued threads heap empty_world length app] in *.
  rewrite chain_out_last in Hout.
  eexists. split; [|split_and!].
  - rewrite Hrun. destruct (b_result b) as [pi po]. simpl in Hin, Hout.
    rewrite Hin, Hout, Hc, Hhs. do 4 f_equal; lia.
  - cbn [pipes]. by rewrite Hp.
  - cbn [threads]. rewrite Hth. done.
  - cbn [heap]. by rewrite Hheap.
Qed.

(** X16.  A pipeline whose stages map the functions [f1], ..., [fn] over
    their batches, built by [pipe_pipeline] in a fresh process and fed the
    elements [xs] by its caller, who then releases the producer end.  There
    is a schedule, the workers running one after the other, after which
    every worker has left [process_pipe] and the queue of the consumer end
    holds [fn <$> (... (f1 <$> xs))], in order, with no producer left: the
    caller can pop exactly these elements and then sees the end of the
    stream. *)
Theorem pipe_pipeline_maps code (dfs : list (stage * (elem → elem))) first_size xs :
  Forall (λ df, real_stage df.1 ∧ code (st_proc df.1) = Some (map_body df.2)) dfs →
  let ds := fst <$> dfs in
  let n := length dfs in
  let source := Producer 0%nat 0 in
  ∃ w0 w1 sched w2,
    pipe_pipeline None None first_size (va_stages ds ++ [VaPtr 0]) main_thread empty_world =
      Done (Pipeline (Some source) (Some (Consumer n (2 * n + 1))), None, None) w0 ∧
    (pipe_push (Some source) xs;; pipe_producer_free (Some source)) main_thread w0
      = Done () w1 ∧
    run_sched code sched w1 = Done () w2 ∧
    length (threads w2) = n ∧
    Forall (λ th, th_pc th = PcExit) (threads w2) ∧
    ∃ sz, pipes w2 !! n =
            Some (Pipe sz 0 (foldl (λ zs df, df.2 <$> zs) xs dfs) 0 1 false).
Proof.
  intros Hdfs ds n source.
  assert (Forall real_stage ds) as Hds.
  { apply Forall_fmap. eapply list.Forall_impl; [exact Hdfs|]. by intros df [? _]. }
  assert (Forall (λ df, code (st_proc df.1) = Some (map_body df.2)) dfs) as Hcode.
  { eapply list.Forall_impl; [exact Hdfs|]. by intros df [_ ?]. }
  assert (length ds = n) as Hn by apply length_fmap.
  destruct (pipe_pipeline_fresh ds first_size main_thread Hds) as (w0 & Hrun0 & Hp0 & Ht0 & Hh0).
  rewrite Hn in Hrun0, Ht0.
  set (w1 := World (Pipe first_size 0 xs 0 1 false
                      :: ((λ d, Pipe (st_size d) 0 [] 1 1 false) <$> ds))
                   (issued w0) (heap w0) (threads w0) (oom w0)
                   (trace w0 ++ [(main_thread, EvPush source xs);
                                 (main_thread, EvProducerFree source)])).
  assert ((pipe_push (Some source) xs;; pipe_producer_free (Some source)) main_thread w0
          = Done () w1) as Hfeed.
  { erewrite bind_run by (eapply pipe_push_eq; [by rewrite Hp0|done]).
    erewrite pipe_producer_free_eq; [|cbn [pipes]; by rewrite Hp0|done].
    cbn [pipes issued heap threads oom trace]. rewrite Hp0.
    unfold w1. by rewrite <- (assoc_L (++)). }
  assert (stages_inv ds 0 xs w1) as Hinv.
  { unfold stages_inv, w1. cbn [threads heap pipes]. rewrite Ht0, Hh0. split_and!.
    - by rewrite length_fmap, length_seq.
    - by rewrite length_fmap, chain_data_length.
    - intros j Hj. lia.
    - intros j d _ Hd. assert (j < n)%nat as Hj by (rewrite <- Hn; by eapply lookup_lt_Some).
      split_and!.
      + by rewrite list_lookup_fmap, lookup_seq_lt.
      + rewrite list_lookup_fmap, (chain_data_lookup ds 0%nat 0%nat j d Hd). simpl.
        unfold stage_data.
        replace (2 * j + 1)%nat with (S (j + (j + 0))) by lia.
        replace (2 * j + 2)%nat with (S (S (j + (j + 0)))) by lia. done.
      + change ((?x :: ?l) !! S j) with (l !! j). by rewrite list_lookup_fmap, Hd.
    - by exists first_size. }
  destruct (stages_inv_run code dfs n 0 xs w1 Hcode ltac:(unfold n; lia) Hinv)
    as (sched & w2 & Hrun & (Hlen & _ & Hexit & _ & Hq)).
  rewrite drop_0 in Hq. fold n in Hexit, Hq.
  exists w0, w1, sched, w2. split_and!; try done.
  - by rewrite Hlen.
  - apply Forall_lookup. intros j th Hth.
    assert (j < n)%nat as Hj by (fold ds in Hlen; rewrite <- Hn, <- Hlen; by eapply lookup_lt_Some).
    specialize (Hexit j Hj). rewrite Hth in Hexit. by injection Hexit.
Qed.

(** ** Instances of a map, one after the other *)

Lemma instances_inv_step code w in_size out_size proc aux n f xs k w' :
  instances_inv w in_size out_size proc aux n f xs k w' →
  (k < n)%nat → code proc = Some (map_body f) →
  ∃ ks w'', run_thread code (length (threads w) + k) ks w' = Done () w'' ∧
            instances_inv w in_size out_size proc aux n f xs (S k) w''.
Proof.
  intros (Hheap & Hexit & Hrest & Hqi & Hqo) Hk Hcode.
  destruct (Hrest k ltac:(lia)) as (Hth & Hblk).
  destruct (alone_run code (length (threads w) + k) (par_handle w k) (par_block w k)
              (par_consumer w k) (par_producer w k) proc aux (map_body f)
              (Pipe in_size 0 (match k with O => xs | _ => [] end) 0 (n - k) false)
              (Pipe out_size 0 (match k with O => [] | _ => f <$> xs end) (n - k) 1 false)
              (replicate (2 * length (match k with O => xs | _ => [] end) + 7) 0%nat) w'
              Hth)
    as (bs & w'' & Hrun & Hcat & Hgood & (Hth' & Hqi' & Hqo' & Hheap') & (Hfl & Hft & Hfp));
    try done.
  { unfold heap_at, block_at, par_block.
    rewrite is_null_of_nat_S, pred_to_nat_of_nat_S, Hblk. done. }
  { simpl. lia. }
  { simpl. lia. }
  { by rewrite length_replicate. }
  cbn [c_pipe p_pipe par_consumer par_producer items] in *.
  unfold par_block in Hheap'. rewrite pred_to_nat_of_nat_S in Hheap'.
  eexists _, w''. split; [exact Hrun|]. split_and!.
  - rewrite Hheap', length_app, length_insert. simpl. lia.
  - intros j Hj. destruct (decide (j = k)) as [->|Hjk].
    + by rewrite Hth'.
    + rewrite Hft by lia. apply Hexit. lia.
  - intros j Hj. destruct (Hrest j ltac:(lia)) as (Hth1 & Hblk1). split.
    + rewrite Hft by lia. done.
    + rewrite Hheap', lookup_app_l by (rewrite length_insert; lia).
      rewrite list_lookup_insert_ne by lia. done.
  - etrans; [exact Hqi'|]. f_equal. unfold drop_consumer, set_items. simpl.
    f_equal. lia.
  - etrans; [exact Hqo'|]. f_equal. unfold drop_producer, set_items. simpl.
    rewrite pushed_map, Hcat by done. f_equal; [|lia].
    destruct k; [done|]. simpl. by rewrite app_nil_r.
Qed.

Lemma instances_inv_run code w in_size out_size proc aux n f xs m : ∀ k w',
  code proc = Some (map_body f) →
  (k + m = n)%nat →
  instances_inv w in_size out_size proc aux n f xs k w' →
  ∃ sched w'',
    run_sched code sched w' = Done () w'' ∧
    instances_inv w in_size out_size proc aux n f xs n w''.
Proof.
  induction m as [|m IH]; intros k w' Hcode Hk Hinv.
  - exists [], w'. split; [done|]. assert (k = n) as <- by lia. done.
  - destruct (instances_inv_step code w in_size out_size proc aux n f xs k w' Hinv)
      as (ks & w1 & Hrun & Hinv1); [lia|done|].
    destruct (IH (S k) w1 Hcode ltac:(lia) Hinv1) as (sched & w'' & Hrun' & Hinv').
    exists ((pair (length (threads w) + k)%nat <$> ks) ++ sched), w''. split; [|done].
    rewrite (run_sched_app _ _ _ _ w1) by (by rewrite <- run_thread_sched). done.
Qed.

(** X17.  The fan-out/fan-in network of [pipe_parallel] for [n >= 1]
    instances of a function that maps [f] over its batches, fed the elements
    [xs] by its caller, who then releases the producer end.  There is a
    schedule, the workers running one after the other, after which every
    worker has left [process_pipe], the input queue is empty and without
    endpoints, and the output queue holds [f <$> xs], in order, with no
    producer left: the caller can pop exactly these elements and then sees
    the end of the stream. *)
Theorem pipe_parallel_maps code instances handles in_size proc aux out_size f xs tid w :
  (0 < Z.of_N instances ≤ INT_MAX)%Z → proc ≠ 0 →
  code proc = Some (map_body f) →
  let n := N.to_nat instances in
  let source := Producer (par_in w) (issued w + 2 * n) in
  ∃ hs w0 w1 sched w2,
    pipe_parallel instances handles in_size proc aux out_size tid w =
      Done (Pipeline (Some source) (Some (Consumer (par_out w) (issued w + 2 * n + 1))), hs)
           w0 ∧
    (pipe_push (Some source) xs;; pipe_producer_free (Some source)) tid w0 = Done () w1 ∧
    run_sched code sched w1 = Done () w2 ∧
    (∀ j, (j < n)%nat →
       th_pc <$> threads w2 !! (length (threads w) + j)%nat = Some PcExit) ∧
    pipes w2 !! par_in w = Some (Pipe in_size 0 [] 0 0 false) ∧
    pipes w2 !! par_out w = Some (Pipe out_size 0 (f <$> xs) 0 1 false).
Proof.
  intros [Hpos Hmax] Hproc Hcode n source.
  pose proof (pipe_parallel_eq instances handles in_size proc aux out_size tid w
                Hmax (or_intror Hproc)) as Hbuild.
  fold n in Hbuild.
  set (w0 := par_final w in_size out_size proc aux tid n (bool_decide (is_Some handles))) in *.
  assert (pipes w0 !! par_in w = Some (Pipe in_size 0 [] 1 n false)) as Hin
    by apply lookup_middle0.
  set (w1 := World (alter drop_producer (par_in w)
                      (alter (λ q, set_items (items q ++ xs) q) (par_in w) (pipes w0)))
                   (issued w0) (heap w0) (threads w0) (oom w0)
                   (trace w0 ++ [(tid, EvPush source xs); (tid, EvProducerFree source)])).
  assert ((pipe_push (Some source) xs;; pipe_producer_free (Some source)) tid w0
          = Done () w1) as Hfeed.
  { erewrite bind_run by (by eapply pipe_push_eq).
    rewrite (pipe_producer_free_eq source
               (set_items (items (Pipe in_size 0 [] 1 n false) ++ xs)
                          (Pipe in_size 0 [] 1 n false)));
      [|exact (lookup_alter_same (λ q, set_items (items q ++ xs) q) _ _ _ Hin)|done].
    unfold w1. cbn [pipes issued heap threads oom trace p_pipe source].
    by rewrite <- (assoc_L (++)). }
  assert (instances_inv w in_size out_size proc aux n f xs 0 w1) as Hinv.
  { unfold instances_inv, w1. cbn [threads heap pipes]. unfold w0, par_final.
    cbn [threads heap pipes]. split_and!.
    - rewrite length_app. simpl. rewrite length_fmap, length_seq. lia.
    - intros j Hj. lia.
    - intros j Hj. split.
      + rewrite lookup_app_r by lia.
        replace (length (threads w) + j - length (threads w))%nat with j by lia.
        by rewrite list_lookup_fmap, lookup_seq_lt by lia.
      + rewrite lookup_app_r by lia.
        replace (S (length (heap w)) + j - length (heap w))%nat with (S j) by lia.
        change ((?x :: ?l) !! S j) with (l !! j).
        by rewrite list_lookup_fmap, lookup_seq_lt by lia.
    - unfold par_in. rewrite !alter_middle0, lookup_middle0. simpl.
      by rewrite Nat.sub_0_r.
    - unfold par_in, par_out. rewrite !alter_middle0, lookup_middle1. simpl.
      by rewrite Nat.sub_0_r. }
  destruct (instances_inv_run code w in_size out_size proc aux n f xs n 0 w1 Hcode
              ltac:(lia) Hinv) as (sched & w2 & Hrun & (_ & Hexit & _ & Hqi & Hqo)).
  assert (n ≠ 0)%nat as Hn by (unfold n; lia).
  rewrite Nat.sub_diag in Hqi, Hqo.
  eexists _, w0, w1, sched, w2. split_and!; try done.
  - by destruct n.
  - by destruct n.
Qed.

Local Open Scope nat_scope.

Section IdentityStageRuns.
Variables (esz : N) (aux : ptr) (xs : list elem).

Local Arguments step_ok : simpl never.

Ltac sys_eval :=
  unfold shaped, sys_step, step_thread, process_pipe, call_proc,
    identity_code, identity_body, pipe_push, pipe_pop, pipe_producer_free,
    pipe_consumer_free, pipe_elem_size, free, malloc, fresh_block, kill_block,
    load_block, heap_at, block_at, lookup_pipe, update_pipe, pipe_open;
  munfold;
  unfold set_pipes, set_issued, set_heap, set_threads, set_oom, set_trace;
  cbn;
  repeat (first [ rewrite bool_decide_eq_false_2 by done
                | rewrite bool_decide_eq_true_2 by done ]; cbn).

Ltac shape_split :=
  match goal with
  | H : shape_ok aux xs ?a |- _ =>
      destruct a as [pc inq outq feed sn op es tr];
      destruct H as (Hpc & Hdata & Hopen & Hdrain & Heos);
      cbn [a_pc a_inq a_outq a_feed a_seen a_open a_eos a_trace] in *
  end.

Lemma sys_step_feed a k : shape_ok aux xs a → step_ok esz aux xs a (sys_step (Feed k) (shaped esz aux a)).
Proof.
  intros Hok. shape_split.
  destruct feed as [|x feed]; [done|].
  destruct op; [|by specialize (Hopen eq_refl)].
  sys_eval. unfold step_ok.
  set (n := 1 `max` (k `min` S (length feed))).
  eexists (Shape pc (inq ++ take n (x :: feed)) outq (drop n (x :: feed)) sn true es _).
  split; [reflexivity|]. split.
  - split_and!; cbn [a_pc a_inq a_outq a_feed a_seen a_open a_eos a_trace]; try done.
    + by rewrite <- (assoc_L (++) inq), take_drop.
    + intros Hd. by destruct (Hdrain Hd).
  - unfold weight. cbn [a_pc a_inq a_outq a_feed a_seen a_open a_eos a_trace].
    rewrite length_app, length_take, length_drop. simpl length. lia.
Qed.

Ltac shape_done :=
  cbn [a_pc a_inq a_outq a_feed a_seen a_open a_eos a_trace
       inflight draining pc_ok pc_weight] in *.

Lemma sys_step_release a : shape_ok aux xs a → step_ok esz aux xs a (sys_step Release (shaped esz aux a)).
Proof.
  intros Hok. shape_split.
  destruct feed as [|x feed]; [|by destruct op].
  destruct op; [|done].
  sys_eval. unfold step_ok.
  eexists (Shape pc inq outq [] sn false es _).
  split; [reflexivity|]. split.
  - split_and!; shape_done; try done.
    intros Hd. by destruct (Hdrain Hd).
  - unfold weight. shape_done. lia.
Qed.

Lemma sys_step_drain a buf max k :
  shape_ok aux xs a → step_ok esz aux xs a (sys_step (Drain buf max k) (shaped esz aux a)).
Proof.
  intros Hok. shape_split.
  destruct es; [done|].
  destruct outq as [|y outq].
  - destruct pc; sys_eval; try done. unfold step_ok.
    eexists (Shape PcExit inq [] feed sn op true _).
    split; [by rewrite app_nil_r|]. split.
    + split_and!; shape_done; try done.
    + unfold weight. shape_done. lia.
  - sys_eval. unfold step_ok.
    set (n := granted k (N.pos max) (S (length outq))).
    assert (1 ≤ n) as Hn by (unfold n, granted; lia).
    eexists (Shape pc inq (drop n (y :: outq)) feed (sn ++ take n (y :: outq)) op false _).
    split.
    { unfold shaped. shape_done. do 2 f_equal.
      destruct n; [lia|]. done. }
    split.
    + split_and!; shape_done; try done.
      by rewrite <- (assoc_L (++) sn), (assoc_L (++) (take _ _)), take_drop.
    + unfold weight. shape_done. rewrite length_drop. simpl length. lia.
Qed.

Ltac shape_auto :=
  try done;
  try (let H := fresh in intros H;
       match goal with
       | Heos : _ = true → _ ∧ _ = PcExit |- _ => by destruct (Heos H)
       end);
  try (let H := fresh in intros H;
       match goal with
       | Hdrain : _ = true → _ ∧ _ = false |- _ => by destruct (Hdrain H)
       end).

Lemma sys_step_work a k : shape_ok aux xs a → step_ok esz aux xs a (sys_step (Work k) (shaped esz aux a)).
Proof.
  intros Hok. shape_split.
  destruct pc as [p|p|p b|p b batch|p b|p b|p|p|]; shape_done.
  - (* entry *)
    subst p. sys_eval. unfold step_ok.
    eexists (Shape (PcAlloc (the_data aux)) inq outq feed sn op es _).
    split; [reflexivity|]. split.
    + split_and!; shape_done; shape_auto.
    + unfold weight. shape_done. lia.
  - (* scratch buffer *)
    subst p. sys_eval. unfold step_ok.
    eexists (Shape (PcPop (the_data aux) 2%N) inq outq feed sn op es _).
    split; [reflexivity|]. split.
    + split_and!; shape_done; shape_auto.
    + unfold weight. shape_done. lia.
  - (* pop *)
    destruct Hpc as [-> ->]. destruct inq as [|x inq].
    + destruct op; sys_eval; [done|]. unfold step_ok.
      eexists (Shape (PcEos (the_data aux) 2%N) [] outq feed sn false es _).
      split; [reflexivity|]. split.
      * split_and!; shape_done; shape_auto.
      * unfold weight. shape_done. lia.
    + sys_eval. unfold step_ok.
      set (n := granted k DEFAULT_BUFFER_SIZE (S (length inq))).
      assert (1 ≤ n) as Hn by (unfold n, granted; lia).
      destruct n as [|n']; [lia|]. cbn [take drop].
      eexists (Shape (PcProc (the_data aux) 2%N (x :: take n' inq)) (drop n' inq)
                     outq feed sn op es _).
      split; [reflexivity|]. split.
      * split_and!; shape_done; shape_auto.
        rewrite <- Hdata. cbn [app]. by rewrite (assoc_L (++) (take _ _)), take_drop.
      * unfold weight. shape_done. rewrite length_drop. simpl length.
        rewrite length_take. lia.
  - (* the identity function pushes the batch *)
    destruct Hpc as (-> & -> & Hbatch). destruct batch as [|x batch]; [done|].
    sys_eval. unfold step_ok.
    eexists (Shape (PcPop (the_data aux) 2%N) inq (outq ++ x :: batch) feed sn op es _).
    split; [reflexivity|]. split.
    + split_and!; shape_done; shape_auto.
      by rewrite <- Hdata, <- !(assoc_L (++)).
    + unfold weight. shape_done. rewrite length_app. simpl length. lia.
  - (* end of stream *)
    destruct Hpc as [-> ->]. sys_eval. unfold step_ok.
    eexists (Shape (PcFreeBuf (the_data aux) 2%N) inq outq feed sn op es _).
    split; [reflexivity|]. split.
    + split_and!; shape_done; shape_auto.
    + unfold weight. shape_done. lia.
  - (* free the scratch buffer *)
    destruct Hpc as [-> ->]. sys_eval. unfold step_ok.
    eexists (Shape (PcFreeIn (the_data aux)) inq outq feed sn op es _).
    split; [reflexivity|]. split.
    + split_and!; shape_done; shape_auto.
    + unfold weight. shape_done. lia.
  - (* release the consumer endpoint *)
    subst p. sys_eval. unfold step_ok.
    eexists (Shape (PcFreeOut (the_data aux)) inq outq feed sn op es _).
    split; [reflexivity|]. split.
    + split_and!; shape_done; shape_auto.
    + unfold weight. shape_done. lia.
  - (* release the producer endpoint *)
    subst p. sys_eval. unfold step_ok.
    eexists (Shape PcExit inq outq feed sn op es _).
    split; [reflexivity|]. split.
    + split_and!; shape_done; shape_auto.
    + unfold weight. shape_done. lia.
  - (* exited *)
    by sys_eval.
Qed.

Lemma sys_step_shape a m : shape_ok aux xs a → step_ok esz aux xs a (sys_step m (shaped esz aux a)).
Proof.
  destruct m; [apply sys_step_feed|apply sys_step_release
              |apply sys_step_work|apply sys_step_drain].
Qed.

Lemma shape_eos a : shape_ok aux xs a → a_eos a = true → a_seen a = xs.
Proof.
  intros (Hpc & Hdata & Hopen & Hdrain & Heos) He.
  destruct (Heos He) as [Hout Hexit]. rewrite Hexit, Hout in *.
  destruct (Hdrain eq_refl) as [Hin Hop]. rewrite Hin, (Hopen Hop) in Hdata.
  simpl in Hdata. by rewrite app_nil_r in Hdata.
Qed.

Lemma shape_prefix a : shape_ok aux xs a → ∃ rest, xs = a_seen a ++ rest.
Proof. intros (_ & Hdata & _). eauto. Qed.

(** While the caller has not seen the end of the stream, something can
    happen. *)
Lemma shape_progress a :
  shape_ok aux xs a → a_eos a = false → ∃ m s', sys_step m (shaped esz aux a) = Next s'.
Proof.
  intros Hok He. shape_split. subst es.
  destruct feed as [|x feed].
  - destruct op.
    + exists Release. sys_eval. eauto.
    + destruct pc as [p|p|p b|p b batch|p b|p b|p|p|]; shape_done.
      * subst p. exists (Work 0). sys_eval. eauto.
      * subst p. exists (Work 0). sys_eval. eauto.
      * destruct Hpc as [-> ->]. exists (Work 0).
        destruct inq; sys_eval; eauto.
      * destruct Hpc as (-> & -> & Hbatch). exists (Work 0).
        destruct batch; [done|]. sys_eval. eauto.
      * destruct Hpc as [-> ->]. exists (Work 0). sys_eval. eauto.
      * destruct Hpc as [-> ->]. exists (Work 0). sys_eval. eauto.
      * subst p. exists (Work 0). sys_eval. eauto.
      * subst p. exists (Work 0). sys_eval. eauto.
      * exists (Drain 0%N 1 0). destruct outq; sys_eval; eauto.
  - destruct op; [|by specialize (Hopen eq_refl)].
    exists (Feed 0). sys_eval. eauto.
Qed.

Lemma sys_run_shape ms a s :
  shape_ok aux xs a → sys_run ms (shaped esz aux a) = Next s →
  ∃ a', s = shaped esz aux a' ∧ shape_ok aux xs a' ∧ weight a' + length ms ≤ weight a.
Proof.
  revert a. induction ms as [|m ms IH]; intros a Hok Hrun.
  - injection Hrun as <-. exists a. split_and!; [done|done|simpl; lia].
  - simpl in Hrun. pose proof (sys_step_shape a m Hok) as Hstep.
    destruct (sys_step m (shaped esz aux a)) as [s1| |]; [|done|done].
    destruct Hstep as (a1 & -> & Hok1 & Hlt).
    destruct (IH a1 Hok1 Hrun) as (a' & -> & Hok' & Hle).
    exists a'. split_and!; [done|done|simpl; lia].
Qed.

(** From every shape the process can run to the end of the stream. *)
Lemma shape_completes a :
  shape_ok aux xs a → ∃ ms s, sys_run ms (shaped esz aux a) = Next s ∧ eos s = true ∧ seen s = xs.
Proof.
  remember (weight a) as n eqn:Hn. revert a Hn.
  induction n as [n IH] using lt_wf_ind. intros a -> Hok.
  destruct (a_eos a) eqn:He.
  - exists [], (shaped esz aux a). split_and!; [done|done|]. by apply shape_eos.
  - destruct (shape_progress a Hok He) as (m & s1 & Hstep).
    pose proof (sys_step_shape a m Hok) as Hshape. rewrite Hstep in Hshape.
    destruct Hshape as (a1 & -> & Hok1 & Hlt).
    destruct (IH _ Hlt a1 eq_refl Hok1) as (ms & s & Hrun & Hs).
    exists (m :: ms), s. split; [|done]. simpl. by rewrite Hstep.
Qed.

Lemma stage_init_shape :
  esz ≠ 0%N →
  ∃ tr, stage_init esz aux xs =
          Some (shaped esz aux (Shape (PcEntry 1%N) [] [] xs [] true false tr)) ∧
        shape_ok aux xs (Shape (PcEntry 1%N) [] [] xs [] true false tr).
Proof.
  intros Hesz. eexists. split; [|by split_and!; shape_done; rewrite ?app_nil_r].
  unfold stage_init.
  change [VaPtr identity; VaPtr aux; VaSize esz; VaPtr 0]
    with (va_stages [(identity, aux, esz)] ++ VaPtr 0 :: []).
  rewrite pipe_pipeline_sentinel_eq; [|by repeat constructor|done].
  cbv. reflexivity.
Qed.
End IdentityStageRuns.

(** C5.  One stage running the identity function, built by a fresh
    process, fed the elements [xs] by its caller.  Whatever the scheduler
    does ([ms], every move of which took place), the caller has popped a
    prefix of [xs], in order; once it has seen the end of the stream it has
    popped exactly [xs]; no move can crash; until the end of the stream some
    move is possible; no run is longer than [5 * length xs + 11] moves; and
    the run can be continued to the end of the stream.  So every run that
    goes on as long as it can ends, and ends with the caller having popped
    exactly [xs], followed by the end of the stream. *)
Theorem identity_stage_preserves_order esz aux xs ms s0 s :
  esz ≠ 0%N →
  stage_init esz aux xs = Some s0 →
  sys_run ms s0 = Next s →
  (∃ rest, xs = seen s ++ rest) ∧
  (eos s = true → seen s = xs) ∧
  (∀ m, sys_step m s ≠ Crash) ∧
  (eos s = false → ∃ m s', sys_step m s = Next s') ∧
  length ms ≤ 5 * length xs + 11 ∧
  (∃ ms' s', sys_run ms' s = Next s' ∧ eos s' = true ∧ seen s' = xs).
Proof.
  intros Hesz Hinit Hrun.
  destruct (stage_init_shape esz aux xs Hesz) as (tr & Hinit' & Hok0).
  rewrite Hinit' in Hinit. injection Hinit as <-.
  edestruct sys_run_shape as (a & -> & Hok & Hle); [exact Hok0|exact Hrun|].
  split_and!.
  - edestruct shape_prefix as [rest ->]; [exact Hok|]. by exists rest.
  - intros He. by eapply shape_eos.
  - intros m Hcrash. pose proof (sys_step_shape esz aux xs a m Hok) as Hstep.
    by rewrite Hcrash in Hstep.
  - intros He. by eapply shape_progress.
  - unfold weight in Hle. simpl in Hle. lia.
  - by eapply shape_completes.
Qed.



(** ** The properties at concrete inputs *)



(** Two stages and the sentinel in a fresh process, the registry empty. *)
Lemma pipe_pipeline_builds_witness :
  Forall real_stage demo_stages ∧
  registry_is 0 NULL [] empty_world ∧
  (0 + Z.of_nat (length demo_stages) ≤ REGISTRY_MAX)%Z ∧
  Forall (λ b, b = false) (take (length demo_stages) (oom empty_world)) ∧
  ∃ a w' new,
    pipe_pipeline (Some 0%Z) (Some NULL) 4 (va_stages demo_stages ++ VaPtr 0 :: [])
                  main_thread empty_world =
      Done (Pipeline (Some (Producer 0 0)) (Some (Consumer 2 5)), Some 2%Z, Some a) w' ∧
    threads w' = new ∧
    th_handle <$> new = [1%N; 2%N] ∧
    registry_is 2 a [1%N; 2%N] w'.
Proof.
  assert (Forall real_stage demo_stages) as H1 by (repeat constructor; done).
  assert (registry_is 0 NULL [] empty_world) as H2 by done.
  assert (0 + Z.of_nat (length demo_stages) ≤ REGISTRY_MAX)%Z as H3
    by (unfold REGISTRY_MAX; simpl; lia).
  assert (Forall (λ b, b = false) (take (length demo_stages) (oom empty_world))) as H4
    by constructor.
  split_and!; [exact H1|exact H2|exact H3|exact H4|].
  destruct (pipe_pipeline_builds demo_stages [] 0 NULL [] 4 main_thread empty_world
              H1 H2 H3 H4)
    as (a & w' & new & Hrun & _ & Hth & Hh & _ & Hreg).
  exists a, w', new. split_and!; assumption.
Defined.

(** One stage, then a sink descriptor, then more arguments. *)
Lemma pipe_pipeline_sink_witness :
  Forall real_stage [(identity, 0%N, 4%N)] ∧ identity ≠ 0%N ∧
  registry_room 1 None None empty_world ∧
  ∃ count' handles' w',
    pipe_pipeline None None 4
        (va_stages [(identity, 0%N, 4%N)]
           ++ VaPtr identity :: VaPtr 0 :: VaSize 0 :: [VaPtr identity; VaPtr 0; VaSize 4])
        main_thread empty_world =
      Done (Pipeline (Some (Producer 0 0)) None, count', handles') w' ∧
    length (pipes w') = 2 ∧
    length (threads w') = 1.
Proof.
  assert (Forall real_stage [(identity, 0%N, 4%N)]) as H1 by (repeat constructor; done).
  assert (identity ≠ 0%N) as H2 by done.
  assert (registry_room 1 None None empty_world) as H3 by done.
  split_and!; [exact H1|exact H2|exact H3|].
  destruct (pipe_pipeline_sink [(identity, 0%N, 4%N)] identity 0%N
              [VaPtr identity; VaPtr 0; VaSize 4] [] None None 4 main_thread empty_world
              H1 H2 H3)
    as (count' & handles' & w' & ws & tr & Hrun & _ & Hp & _ & _ & _ & _ & Ht & _).
  exists count', handles', w'. split_and!; assumption.
Defined.

(** The identity stage fed [1..1000]: the caller pops exactly [1..1000],
    then sees the end of the stream. *)
Lemma identity_stage_preserves_order_witness :
  4%N ≠ 0%N ∧
  stage_init 4 0%N (upto 1000) = Some demo_start ∧
  sys_run demo_schedule demo_start = Next demo_end ∧
  eos demo_end = true ∧
  seen demo_end = upto 1000.
Proof.
  assert (4%N ≠ 0%N) as H1 by done.
  assert (stage_init 4 0%N (upto 1000) = Some demo_start) as H2
    by (vm_compute; reflexivity).
  assert (sys_run demo_schedule demo_start = Next demo_end) as H3
    by (vm_compute; reflexivity).
  assert (eos demo_end = true) as H4 by (vm_compute; reflexivity).
  split_and!; [exact H1|exact H2|exact H3|exact H4|].
  exact (proj1 (proj2 (identity_stage_preserves_order 4 0%N (upto 1000) demo_schedule
                         demo_start demo_end H1 H2 H3)) H4).
Defined.



(** Two stages built with a null [count] pointer. *)
Lemma pipe_pipeline_unrecorded_witness :
  Forall real_stage demo_stages ∧
  (@None Z = None ∨ Some NULL = None) ∧
  ∃ w' new,
    pipe_pipeline None (Some NULL) 4 (va_stages demo_stages ++ VaPtr 0 :: [])
                  main_thread empty_world =
      Done (Pipeline (Some (Producer 0 0)) (Some (Consumer 2 5)), None, Some NULL) w' ∧
    threads w' = new ∧
    th_handle <$> new = [1%N; 2%N] ∧
    length (heap w') = 2.
Proof.
  assert (Forall real_stage demo_stages) as H1 by (repeat constructor; done).
  assert (@None Z = None ∨ Some NULL = None) as H2 by by left.
  split_and!; [exact H1|exact H2|].
  destruct (pipe_pipeline_unrecorded demo_stages [] None (Some NULL) 4 main_thread
              empty_world H1 H2)
    as (w' & new & Hrun & Hth & Hh & Hheap & _).
  exists w', new. split_and!; [exact Hrun|exact Hth|exact Hh|by rewrite Hheap].
Defined.


(** The same registry, cleared with the count [-1]. *)
Lemma pipe_handles_free_negative_count_witness :
  (-1 < 0)%Z ∧
  heap_at 4%N demo_pipeline = Some (BHandles [Some 1%N; Some 2%N]) ∧
  pipe_handles_free (-1) (Some 4%N) main_thread demo_pipeline =
    Done (Some NULL)
         (World (pipes demo_pipeline) (issued demo_pipeline)
                (<[3 := None]> (heap demo_pipeline))
                (threads demo_pipeline) (oom demo_pipeline)
                (trace demo_pipeline ++ [(main_thread, EvFree 4%N)])).
Proof.
  assert (-1 < 0)%Z as H1 by lia.
  assert (heap_at 4%N demo_pipeline = Some (BHandles [Some 1%N; Some 2%N])) as H2
    by (vm_compute; reflexivity).
  refine (conj H1 (conj H2 _)).
  exact (pipe_handles_free_negative_count (-1) 4%N _ main_thread demo_pipeline H1 H2).
Defined.




(** [INT_MAX + 1] instances. *)
Lemma pipe_parallel_too_many_witness :
  (INT_MAX < Z.of_N 2147483648)%Z ∧ identity ≠ 0%N ∧
  pipe_parallel 2147483648 None 4 identity 0%N 4 main_thread empty_world = Undefined.
Proof.
  assert (INT_MAX < Z.of_N 2147483648)%Z as H1 by (unfold INT_MAX; lia).
  assert (identity ≠ 0%N) as H2 by done.
  refine (conj H1 (conj H2 _)).
  exact (pipe_parallel_too_many 2147483648 None 4 identity 0%N 4 main_thread empty_world
           H1 H2).
Defined.

(** No instance at all, and a pop of up to 128 elements on the result. *)
Lemma pipe_parallel_zero_instances_witness :
  128%N ≠ 0%N ∧
  pipe_parallel 0 None 4 identity 0%N 4 main_thread empty_world =
    Done (Pipeline (Some (Producer 0 0)) (Some (Consumer 1 1)), None)
         (par_final empty_world 4 4 identity 0%N main_thread 0 false) ∧
  ∃ w'',
    pipe_pop (Some (Consumer 1 1)) 0%N 128 0 main_thread
             (par_final empty_world 4 4 identity 0%N main_thread 0 false) = Done [] w''.
Proof.
  assert (128%N ≠ 0%N) as H1 by done.
  destruct (pipe_parallel_zero_instances None 4 identity 0%N 4 0%N 128 0 main_thread
              empty_world H1) as (Hrun & _ & Hpop).
  refine (conj H1 (conj Hrun _)). eexists. exact Hpop.
Defined.


(** The two ends of the queue of [demo_queue]. *)
Lemma pipe_trivial_pipeline_live_witness :
  pipes demo_queue !! 0 = Some (Pipe 4 0 [] 0 0 true) ∧
  handle_live (Pipe 4 0 [] 0 0 true) = true ∧
  ∃ w',
    pipe_trivial_pipeline 0 main_thread demo_queue =
      Done (Pipeline (Some (Producer 0 0)) (Some (Consumer 0 1))) w' ∧
    pipes w' = [Pipe 4 0 [] 1 1 true].
Proof.
  assert (pipes demo_queue !! 0 = Some (Pipe 4 0 [] 0 0 true)) as H1 by reflexivity.
  assert (handle_live (Pipe 4 0 [] 0 0 true) = true) as H2 by reflexivity.
  refine (conj H1 (conj H2 _)). eexists. split.
  - exact (pipe_trivial_pipeline_live 0 _ main_thread demo_queue H1 H2).
  - reflexivity.
Defined.

(** Two stages and the first argument of a third, with no sentinel. *)
Lemma pipe_pipeline_missing_sentinel_witness :
  Forall real_stage demo_stages ∧ st_proc (identity, 0%N, 4%N) ≠ 0%N ∧ 1 < 3 ∧
  registry_room (length demo_stages) None None empty_world ∧
  pipe_pipeline None None 4 (va_stages demo_stages ++ [VaPtr identity])
                main_thread empty_world = Undefined.
Proof.
  assert (Forall real_stage demo_stages) as H1 by (repeat constructor; done).
  assert (st_proc (identity, 0%N, 4%N) ≠ 0%N) as H2 by done.
  assert (1 < 3) as H3 by lia.
  assert (registry_room (length demo_stages) None None empty_world) as H4 by done.
  refine (conj H1 (conj H2 (conj H3 (conj H4 _)))).
  exact (pipe_pipeline_missing_sentinel demo_stages (identity, 0%N, 4%N) 1 None None 4
           main_thread empty_world H1 H2 H3 H4).
Defined.

(** A registry that counts [REGISTRY_MAX] handles. *)
Lemma record_handle_int_overflow_witness :
  (REGISTRY_MAX ≤ 268435455 < 536870911)%Z ∧
  (NULL = NULL ∨ ∃ cells, heap_at NULL empty_world = Some (BHandles cells)) ∧
  record_handle (Some 268435455%Z) (Some NULL) 1%N main_thread empty_world =
    Done (Some 268435455%Z, Some NULL)
         (World [] 0 [] [] []
                [(main_thread, EvRealloc NULL 18446744071562067968%N NULL)]).
Proof.
  assert (REGISTRY_MAX ≤ 268435455 < 536870911)%Z as H1 by (unfold REGISTRY_MAX; lia).
  assert (NULL = NULL ∨ ∃ cells, heap_at NULL empty_world = Some (BHandles cells)) as H2
    by (by left).
  refine (conj H1 (conj H2 _)).
  exact (record_handle_int_overflow 268435455 NULL 1%N main_thread empty_world H1 H2).
Defined.

(** Two stages built while the first [realloc] fails: the registry holds
    the handle of the second stage alone. *)
Lemma pipe_pipeline_registry_consistent_witness :
  Forall real_stage demo_stages ∧
  registry_is 0 NULL [] demo_oom ∧
  (0 + Z.of_nat (length demo_stages) ≤ REGISTRY_MAX)%Z ∧
  ∃ pl a w' new,
    pipe_pipeline (Some 0%Z) (Some NULL) 4 (va_stages demo_stages ++ VaPtr 0 :: [])
                  main_thread demo_oom = Done (pl, Some 1%Z, Some a) w' ∧
    th_handle <$> new = [1%N; 2%N] ∧
    threads w' = new ∧
    registry_is 1 a [2%N] w'.
Proof.
  assert (Forall real_stage demo_stages) as H1 by (repeat constructor; done).
  assert (registry_is 0 NULL [] demo_oom) as H2 by done.
  assert (0 + Z.of_nat (length demo_stages) ≤ REGISTRY_MAX)%Z as H3
    by (unfold REGISTRY_MAX; simpl; lia).
  refine (conj H1 (conj H2 (conj H3 _))).
  destruct (pipe_pipeline_registry_consistent demo_stages [] 0 NULL [] 4 main_thread
              demo_oom H1 H2 H3) as (_ & pl & a & w' & new & Hrun & Hth & Hh & Hreg & _).
  exists pl, a, w', new. exact (conj Hrun (conj Hh (conj Hth Hreg))).
Defined.



(** The worker of [demo_connected], whose input queue holds three elements
    and is closed, handed one element by each pop. *)
Lemma process_pipe_drains_witness :
  threads demo_connected !! 0 = Some (Thread 1%N (PcEntry 1%N)) ∧
  heap_at 1%N demo_connected =
    Some (BConnect (Some (ConnectData (Some (Consumer 0 1)) identity 0%N
                                      (Some (Producer 1 2))))) ∧
  identity_code identity = Some identity_body ∧
  identity_body [] 0%N 0%N = [] ∧
  pipes demo_connected !! 0 = Some (Pipe 4 0 [10; 20; 30]%Z 0 1 false) ∧
  pipes demo_connected !! 1 = Some (Pipe 4 0 [] 1 0 false) ∧
  ∃ bs w',
    run_thread identity_code 0 (take (2 * length bs + 7) (replicate 13 0)) demo_connected
      = Done () w' ∧
    concat bs = [10; 20; 30]%Z ∧
    threads w' !! 0 = Some (Thread 1%N PcExit) ∧
    heap w' = [None; None].
Proof.
  assert (threads demo_connected !! 0 = Some (Thread 1%N (PcEntry 1%N))) as H1
    by reflexivity.
  assert (heap_at 1%N demo_connected =
            Some (BConnect (Some (ConnectData (Some (Consumer 0 1)) identity 0%N
                                              (Some (Producer 1 2)))))) as H2
    by reflexivity.
  assert (identity_code identity = Some identity_body) as H3 by reflexivity.
  assert (identity_body [] 0%N 0%N = []) as H4 by reflexivity.
  assert (pipes demo_connected !! 0 = Some (Pipe 4 0 [10; 20; 30]%Z 0 1 false)) as H5
    by reflexivity.
  assert (pipes demo_connected !! 1 = Some (Pipe 4 0 [] 1 0 false)) as H6 by reflexivity.
  refine (conj H1 (conj H2 (conj H3 (conj H4 (conj H5 (conj H6 _)))))).
  destruct (process_pipe_drains identity_code 0 1%N 1%N (Consumer 0 1) (Producer 1 2)
              identity 0%N identity_body _ _ (replicate 13 0) demo_connected
              H1 H2 H3 H4 ltac:(done) H5 eq_refl ltac:(done) H6 ltac:(done)
              ltac:(simpl; lia))
    as (bs & w' & Hrun & Hcat & _ & Hth & _ & _ & Hheap).
  exists bs, w'. exact (conj Hrun (conj Hcat (conj Hth Hheap))).
Defined.

(** Two stages, one adding 1 and one doubling, fed [1; 2; 3]. *)
Lemma pipe_pipeline_maps_witness :
  Forall (λ df, real_stage df.1 ∧ demo_code (st_proc df.1) = Some (map_body df.2)) demo_maps ∧
  ∃ w0 w1 sched w2,
    pipe_pipeline None None 4 (va_stages (fst <$> demo_maps) ++ [VaPtr 0%N])
                  main_thread empty_world =
      Done (Pipeline (Some (Producer 0 0)) (Some (Consumer 2 5)), None, None) w0 ∧
    (pipe_push (Some (Producer 0 0)) [1; 2; 3]%Z;;
     pipe_producer_free (Some (Producer 0 0))) main_thread w0 = Done () w1 ∧
    run_sched demo_code sched w1 = Done () w2 ∧
    Forall (λ th, th_pc th = PcExit) (threads w2) ∧
    ∃ sz, pipes w2 !! 2 = Some (Pipe sz 0 [4; 6; 8]%Z 0 1 false).
Proof.
  assert (Forall (λ df, real_stage df.1 ∧ demo_code (st_proc df.1) = Some (map_body df.2))
                 demo_maps) as H1 by (repeat constructor; done).
  split; [exact H1|].
  destruct (pipe_pipeline_maps demo_code demo_maps 4 [1; 2; 3]%Z H1)
    as (w0 & w1 & sched & w2 & Hbuild & Hfeed & Hrun & _ & Hexit & Hq).
  exists w0, w1, sched, w2. exact (conj Hbuild (conj Hfeed (conj Hrun (conj Hexit Hq)))).
Defined.

(** Two instances of the function that adds 1, fed [1; 2; 3]. *)
Lemma pipe_parallel_maps_witness :
  (0 < Z.of_N 2 ≤ INT_MAX)%Z ∧ 1%N ≠ 0%N ∧
  demo_code 1%N = Some (map_body (Z.add 1)) ∧
  ∃ hs w0 w1 sched w2,
    pipe_parallel 2 None 4 1%N 0%N 4 main_thread empty_world =
      Done (Pipeline (Some (Producer 0 4)) (Some (Consumer 1 5)), hs) w0 ∧
    (pipe_push (Some (Producer 0 4)) [1; 2; 3]%Z;;
     pipe_producer_free (Some (Producer 0 4))) main_thread w0 = Done () w1 ∧
    run_sched demo_code sched w1 = Done () w2 ∧
    pipes w2 !! 1 = Some (Pipe 4 0 [2; 3; 4]%Z 0 1 false).
Proof.
  assert (0 < Z.of_N 2 ≤ INT_MAX)%Z as H1 by (unfold INT_MAX; lia).
  assert (1%N ≠ 0%N) as H2 by done.
  assert (demo_code 1%N = Some (map_body (Z.add 1))) as H3 by reflexivity.
  refine (conj H1 (conj H2 (conj H3 _))).
  destruct (pipe_parallel_maps demo_code 2 None 4 1%N 0%N 4 (Z.add 1) [1; 2; 3]%Z
              main_thread empty_world H1 H2 H3)
    as (hs & w0 & w1 & sched & w2 & Hbuild & Hfeed & Hrun & _ & _ & Hq).
  exists hs, w0, w1, sched, w2. exact (conj Hbuild (conj Hfeed (conj Hrun Hq))).
Defined.
